(** * Region time series extracted from a gridded dataset

    A shallow embedding of [extract_timeseries.py]: the label-based
    bounding-box selection on the longitude and latitude axes, the clip
    and spatial mean of one region, the incremental assembly of the
    time-series table, and the validation steps that come before them. *)

From Stdlib Require Import List String Ascii ZArith QArith Qround Lia Lqa Bool Arith Sorted.
Import ListNotations.
Local Close Scope Q_scope.
Local Open Scope string_scope.
Local Open Scope list_scope.
Local Open Scope nat_scope.

(** [length] is the length of a list throughout; the length of a string is
    written [String.length]. *)
Abbreviation length := Datatypes.length (only parsing).

(** ** Coordinate axes and label-based slicing

    Longitude and latitude labels are floating-point degrees; only their
    order matters for the selection, so they are embedded as rationals. *)

Module Axis.

Inductive side := left | right.

Definition flip (s : side) : side :=
  match s with left => right | right => left end.

Definition Qlt_bool (x y : Q) : bool := negb (Qle_bool y x).

(** [below s v x] : does the label [x] come strictly before the insertion
    point of [v] on an increasing axis ([x < v] on the left side, [x <= v]
    on the right side). *)
Definition below (s : side) (v x : Q) : bool :=
  match s with left => Qlt_bool x v | right => Qle_bool x v end.

(** [numpy.searchsorted] on an increasing array: the insertion point of
    [v], that is the length of the leading run of labels below it. *)
Fixpoint searchsorted (a : list Q) (v : Q) (s : side) : nat :=
  match a with
  | [] => 0
  | x :: a' => if below s v x then S (searchsorted a' v s) else 0
  end.

(** [pandas.Index.is_monotonic_increasing] and [is_monotonic_decreasing]:
    neither is strict, and both hold of an axis with fewer than two labels. *)
Fixpoint is_monotonic_increasing (a : list Q) : bool :=
  match a with
  | x :: ((y :: _) as a') => Qle_bool x y && is_monotonic_increasing a'
  | _ => true
  end.

Fixpoint is_monotonic_decreasing (a : list Q) : bool :=
  match a with
  | x :: ((y :: _) as a') => Qle_bool y x && is_monotonic_decreasing a'
  | _ => true
  end.

(** [pandas.Index._searchsorted_monotonic].  The increasing test comes
    first; a decreasing axis is searched in reverse with the side flipped.
    [None] is the error raised on an axis that is neither. *)
Definition searchsorted_monotonic (a : list Q) (label : Q) (s : side)
  : option nat :=
  if is_monotonic_increasing a then Some (searchsorted a label s)
  else if is_monotonic_decreasing a then
    Some (length a - searchsorted (rev a) label (flip s))
  else None.

(** The length of the leading run of labels equal to [v]. *)
Fixpoint run (v : Q) (a : list Q) : nat :=
  match a with
  | x :: a' => if Qeq_bool x v then S (run v a') else 0
  | [] => 0
  end.

(** Where a label stands on an axis: nowhere, on one stretch of
    positions [start, stop), or on several stretches. *)
Inductive loc :=
| Missing
| Found (start stop : nat)
| Scattered.

(** [pandas.Index.get_loc] as [get_slice_bound] reads it: a position, a
    slice and a mask that is one stretch all give the stretch; a mask of
    several stretches cannot be made a slice. *)
Fixpoint get_loc (a : list Q) (label : Q) : loc :=
  match a with
  | [] => Missing
  | x :: a' =>
      if Qeq_bool x label then
        let n := run label a' in
        if existsb (fun y => Qeq_bool y label) (skipn n a')
        then Scattered else Found 0 (S n)
      else
        match get_loc a' label with
        | Found i j => Found (S i) (S j)
        | l => l
        end
  end.

(** [pandas.Index.get_slice_bound]: the end of the stretch of a label
    that is on the axis, the insertion point of one that is not; [None]
    is [KeyError]. *)
Definition get_slice_bound (a : list Q) (label : Q) (s : side) : option nat :=
  match get_loc a label with
  | Found i j => Some (match s with left => i | right => j end)
  | Scattered => None
  | Missing => searchsorted_monotonic a label s
  end.

(** [pandas.Index.slice_locs start stop]: the left bound of [start] and
    the right bound of [stop]. *)
Definition slice_locs (a : list Q) (start stop : Q) : option (nat * nat) :=
  match get_slice_bound a start left, get_slice_bound a stop right with
  | Some i, Some j => Some (i, j)
  | _, _ => None
  end.

(** Python's [a[i:j]] for [0 <= i] and [0 <= j]; empty when [j <= i]. *)
Definition getslice {A} (a : list A) (i j : nat) : list A :=
  skipn i (firstn j a).

End Axis.

(** ** Exceptions and results *)

(** The texts the program logs and raises, with the values interpolated
    into each of them. *)
Inductive message :=
| MissingInputFile (inputfile : string)
| NotADataVariable (varname : string) (available : list string)
| CountryNotExisting (country : string)
| AddingParquetExtension
| ErrorRequestingShapefile
| AdmLevelRange
| AdmLevelMissing (adm_level : Z) (country : string).

Inductive exn :=
| Exception (m : message)          (* [raise Exception(...)] *)
| ValueError_int (literal : string) (* [int] of a text that is no number *)
| ValueError_length                 (* column length against index length *)
| UnboundLocalError (name : string)
| IndexError
| KeyError (key : string).

Inductive result (A : Type) :=
| Ok (a : A)
| Raise (e : exn).
Arguments Ok {A} a.
Arguments Raise {A} e.

Definition rbind {A B} (r : result A) (k : A -> result B) : result B :=
  match r with Ok a => k a | Raise e => Raise e end.

(** ** The gridded dataset *)

(** A cell value: [None] is NaN. *)
Definition float := option Q.
Definition nan : float := None.

(** A data variable over the dimensions (time, step, latitude, longitude),
    read by position on each of them. *)
Definition DataArray := nat -> nat -> nat -> nat -> float.

Record Dataset := {
  time : list Z;
  step : list Z;
  latitude : list Q;
  longitude : list Q;
  data_vars : list (string * DataArray)
}.

Fixpoint lookup {A} (k : string) (l : list (string * A)) : option A :=
  match l with
  | [] => None
  | (k', v) :: l' => if String.eqb k k' then Some v else lookup k l'
  end.

(** [ds[varname]] *)
Definition getitem (ds : Dataset) (varname : string) : result DataArray :=
  match lookup varname (data_vars ds) with
  | Some a => Ok a
  | None => Raise (KeyError varname)
  end.

(** [ds[varname].size] is the product of the four dimension lengths. *)
Definition size (ds : Dataset) : nat :=
  length (time ds) * length (step ds)
  * length (latitude ds) * length (longitude ds).

(** [ds.sel(longitude = slice(x0, x1), latitude = slice(y0, y1))]: both
    axes are cut at the positions of the labels and every variable is read
    through the offset of the cut. *)
Definition sel (ds : Dataset) (x0 x1 y0 y1 : Q) : result Dataset :=
  match Axis.slice_locs (longitude ds) x0 x1,
        Axis.slice_locs (latitude ds) y0 y1 with
  | Some (j0, j1), Some (i0, i1) =>
      Ok {| time := time ds;
            step := step ds;
            latitude := Axis.getslice (latitude ds) i0 i1;
            longitude := Axis.getslice (longitude ds) j0 j1;
            data_vars :=
              map (fun kv : string * DataArray =>
                     (fst kv, fun t s i j => snd kv t s (i0 + i) (j0 + j)))
                  (data_vars ds) |}
  | None, _ => Raise (KeyError "longitude")
  | _, None => Raise (KeyError "latitude")
  end.

(** ** Boundary geometries *)

(** One geometry of the boundary file, through what the program asks of
    it: its bounding box [(xmin, ymin, xmax, ymax)]; the cells the clip
    keeps when the geometry is rasterised on a grid, [mask lon lat i j]
    for the cell at latitude position [i] and longitude position [j] of
    the grid with the longitude axis [lon] and the latitude axis [lat];
    and its area in square metres under the equal-area projection. *)
Record Geometry := {
  total_bounds : Q * Q * Q * Q;
  mask : list Q -> list Q -> nat -> nat -> bool;
  cea_area : Q
}.

Record Row := {
  shapeName : string;
  shapeISO : string;
  geometry : Geometry
}.

Definition GeoDataFrame := list Row.

(** [sel.rio.clip(geometry, crs, drop=False)]: the axes are kept and every
    cell outside the mask of the geometry on this grid becomes NaN. *)
Definition clip (ds : Dataset) (g : Geometry) : Dataset :=
  {| time := time ds;
     step := step ds;
     latitude := latitude ds;
     longitude := longitude ds;
     data_vars :=
       map (fun kv : string * DataArray =>
              (fst kv,
               fun t s i j =>
                 if mask g (longitude ds) (latitude ds) i j
                 then snd kv t s i j else nan))
           (data_vars ds) |}.

(** ** Spatial mean and stacking *)

Fixpoint dropna (l : list float) : list Q :=
  match l with
  | [] => []
  | Some x :: l' => x :: dropna l'
  | None :: l' => dropna l'
  end.

Definition Qsum (l : list Q) : Q := fold_right Qplus 0%Q l.

(** The mean of a list of cells as xarray takes it: NaN cells are skipped,
    and the mean of no cell at all is NaN. *)
Definition nanmean (l : list float) : float :=
  match dropna l with
  | [] => nan
  | xs => Some (Qsum xs / inject_Z (Z.of_nat (length xs)))%Q
  end.

(** The cells of one (time, step) pair, latitude by latitude. *)
Definition cells (nlat nlon : nat) (a : DataArray) (t s : nat) : list float :=
  flat_map (fun i => map (fun j => a t s i j) (seq 0 nlon)) (seq 0 nlat).

(** [clipped.mean(dim=['longitude','latitude']).stack(dimension=['time','step'])]
    with the [timestep] coordinate added: one point per (time, step) pair,
    time outermost. *)
Record Stacked := {
  timestep : list Z;
  stacked_vars : list (string * list float)
}.

Definition stack_mean (nlat nlon ntime nstep : nat) (a : DataArray)
  : list float :=
  flat_map (fun t => map (fun s => nanmean (cells nlat nlon a t s))
                         (seq 0 nstep))
           (seq 0 ntime).

Definition stacked_data (clipped : Dataset) : Stacked :=
  {| timestep :=
       flat_map (fun t => map (fun s => (t + s)%Z) (step clipped))
                (time clipped);
     stacked_vars :=
       map (fun kv : string * DataArray =>
              (fst kv,
               stack_mean (length (latitude clipped))
                          (length (longitude clipped))
                          (length (time clipped))
                          (length (step clipped)) (snd kv)))
           (data_vars clipped) |}.

Definition stacked_getitem (sd : Stacked) (varname : string)
  : result (list float) :=
  match lookup varname (stacked_vars sd) with
  | Some v => Ok v
  | None => Raise (KeyError varname)
  end.

(** ** The two tables *)

Module Frame.

(** A table cell: a timestamp in nanoseconds, a number, or a missing
    value (NaN, NaT). *)
Inductive cell := Time (z : Z) | Num (x : Q) | NA.

Definition of_float (x : float) : cell :=
  match x with Some q => Num q | None => NA end.

(** A [pandas.DataFrame] on a default range index: the length of the
    index and the columns in their order. *)
Record DataFrame := {
  index : nat;
  columns : list (string * list cell)
}.

(** [pd.DataFrame()] *)
Definition empty : DataFrame := {| index := 0; columns := [] |}.

(** [len(df)] is the number of rows. *)
Definition len (df : DataFrame) : nat := index df.

(** A column is replaced where it stands, or else added last. *)
Fixpoint assign (key : string) (value : list cell)
         (cols : list (string * list cell)) : list (string * list cell) :=
  match cols with
  | [] => [(key, value)]
  | (k, v) :: cols' =>
      if String.eqb key k then (key, value) :: cols'
      else (k, v) :: assign key value cols'
  end.

(** [df[key] = value] for an array [value].  A frame whose index is still
    empty takes its index from the first array that is not empty (columns
    already there are refilled with missing values); after that an array
    of another length is refused. *)
Definition setitem (df : DataFrame) (key : string) (value : list cell)
  : result DataFrame :=
  let df' :=
    if (index df =? 0) && (0 <? length value)
    then {| index := length value;
            columns := map (fun kv : string * list cell =>
                              (fst kv, repeat NA (length value)))
                           (columns df) |}
    else df in
  if length value =? index df'
  then Ok {| index := index df';
             columns := assign key value (columns df') |}
  else Raise ValueError_length.

End Frame.

(** One row of the statistics table; [stat_index] is the index label the
    row inherits from the region. *)
Record StatsRow := {
  stat_index : nat;
  stat_name : string;
  stat_ISO : string;
  stat_area_km2 : Q;
  stat_n : nat
}.

(** Rounding to the nearest integer, ties to the even one. *)
Definition round_half_even (x : Q) : Z :=
  let f := Qfloor x in
  match ((x - inject_Z f) ?= (1 # 2))%Q with
  | Lt => f
  | Gt => (f + 1)%Z
  | Eq => if Z.even f then f else (f + 1)%Z
  end.

(** [round(x, 2)] *)
Definition round2 (x : Q) : Q :=
  (inject_Z (round_half_even (x * 100)) / 100)%Q.

(** ** One iteration of the loop over the regions *)

Definition LoopState := (Frame.DataFrame * list StatsRow)%type.

(** [dataset.sel(longitude = slice(xmin, xmax), latitude = slice(ymax, ymin))]
    for the bounding box of the region. *)
Definition this_dataset (dataset : Dataset) (row : Row) : result Dataset :=
  let '(xmin, ymin, xmax, ymax) := total_bounds (geometry row) in
  sel dataset xmin xmax ymax ymin.

Definition stats_row (index : nat) (row : Row) (window : Dataset) : StatsRow :=
  {| stat_index := index;
     stat_name := shapeName row;
     stat_ISO := shapeISO row;
     stat_area_km2 := round2 (cea_area (geometry row) / 1000000);
     stat_n := length (latitude window) * length (longitude window) |}.

(** The body of the [for index, row in geoBoundary.iterrows()] loop, the
    progress bar apart. *)
Definition loop_body (dataset : Dataset) (varname : string)
           (st : LoopState) (index : nat) (row : Row) : result LoopState :=
  let '(out_ts, stats) := st in
  rbind (this_dataset dataset row) (fun window =>
  let stats := stats ++ [stats_row index row window] in
  rbind (getitem window varname) (fun _ =>
  if 0 <? size window then
    let clipped := clip window (geometry row) in
    let sd := stacked_data clipped in
    rbind (if Frame.len out_ts =? 0
           then Frame.setitem out_ts "timestep" (map Frame.Time (timestep sd))
           else Ok out_ts) (fun out_ts =>
    rbind (stacked_getitem sd varname) (fun values =>
    rbind (Frame.setitem out_ts (shapeName row) (map Frame.of_float values))
          (fun out_ts => Ok (out_ts, stats))))
  else Ok (out_ts, stats))).

(** The loop from a given position, without its output to the terminal. *)
Fixpoint iterrows (dataset : Dataset) (varname : string)
         (st : LoopState) (index : nat) (rows : list Row) : result LoopState :=
  match rows with
  | [] => Ok st
  | row :: rows' =>
      rbind (loop_body dataset varname st index row)
            (fun st' => iterrows dataset varname st' (S index) rows')
  end.

(** Which of the two assignments of the body an iteration carries out on
    the table it finds. *)
Inductive branch :=
| NoColumn      (* the window has no cell: statistics only *)
| AxisAndColumn (* [out_ts['timestep']] is set, then the column *)
| ColumnOnly.   (* the table has its axis already *)

Definition branch_of (out_ts : Frame.DataFrame) (window : Dataset) : branch :=
  if 0 <? size window then
    if Frame.len out_ts =? 0 then AxisAndColumn else ColumnOnly
  else NoColumn.

(** The branch each iteration takes, in iteration order, as far as the
    loop runs. *)
Fixpoint branches (dataset : Dataset) (varname : string)
         (st : LoopState) (index : nat) (rows : list Row) : list branch :=
  match rows with
  | [] => []
  | row :: rows' =>
      match this_dataset dataset row, loop_body dataset varname st index row with
      | Ok window, Ok st' =>
          branch_of (fst st) window
          :: branches dataset varname st' (S index) rows'
      | _, _ => []
      end
  end.

(** ** Text: upper case, integer literals, file suffix

    A text is the string of its bytes.  [upper] and [int] are those of
    Python on ASCII texts ([isascii]), which is what country codes and
    levels are made of; the properties that rest on them say so. *)

Module Text.

Definition upper_ascii (c : ascii) : ascii :=
  let n := nat_of_ascii c in
  if (97 <=? n) && (n <=? 122) then ascii_of_nat (n - 32) else c.

(** [s.upper()] on an ASCII text: the letters a to z are raised. *)
Fixpoint upper (s : string) : string :=
  match s with
  | EmptyString => EmptyString
  | String c s' => String (upper_ascii c) (upper s')
  end.

(** [s.isascii()]: every character of the text is below 128. *)
Definition isascii (s : string) : bool :=
  forallb (fun c => nat_of_ascii c <? 128) (list_ascii_of_string s).

(** The blanks [int] skips around an ASCII literal: the space and the
    characters 9 to 13. *)
Definition is_space (c : ascii) : bool :=
  let n := nat_of_ascii c in
  (n =? 32) || ((9 <=? n) && (n <=? 13)).

Fixpoint lstrip (l : list ascii) : list ascii :=
  match l with
  | c :: l' => if is_space c then lstrip l' else l
  | [] => []
  end.

Definition strip (l : list ascii) : list ascii :=
  rev (lstrip (rev (lstrip l))).

Definition digit_of (c : ascii) : option Z :=
  let n := nat_of_ascii c in
  if (48 <=? n) && (n <=? 57) then Some (Z.of_nat (n - 48)) else None.

Definition is_digit (c : ascii) : bool :=
  match digit_of c with Some _ => true | None => false end.

(** Decimal digits, where a single underscore may stand between two of
    them. *)
Fixpoint digits (acc : Z) (after_digit : bool) (l : list ascii) : option Z :=
  match l with
  | [] => if after_digit then Some acc else None
  | c :: l' =>
      match digit_of c with
      | Some d => digits (10 * acc + d) true l'
      | None =>
          if Ascii.eqb c "_" && after_digit then digits acc false l' else None
      end
  end.

(** [sys.get_int_max_str_digits()], at its default. *)
Definition max_str_digits : Z := 4300.

(** [int(s)] on an ASCII text: surrounding blanks, an optional sign,
    decimal digits, no more of them than [max_str_digits]; [None] is
    [ValueError]. *)
Definition int (s : string) : option Z :=
  let l := strip (list_ascii_of_string s) in
  if (max_str_digits <? Z.of_nat (length (filter is_digit l)))%Z then None
  else
    match l with
    | "-"%char :: l' => option_map Z.opp (digits 0 false l')
    | "+"%char :: l' => digits 0 false l'
    | _ => digits 0 false l
    end.

Fixpoint split (sep : ascii) (l : list ascii) : list (list ascii) :=
  match l with
  | [] => [[]]
  | c :: l' =>
      match split sep l' with
      | cur :: rest =>
          if Ascii.eqb c sep then [] :: cur :: rest else (c :: cur) :: rest
      | [] => [[c]]
      end
  end.

Definition is_part (p : list ascii) : bool :=
  match p with
  | [] => false
  | ["."%char] => false
  | _ => true
  end.

(** [pathlib.Path(path).name]: the last component of the path. *)
Definition name (path : list ascii) : list ascii :=
  last (filter is_part (split "/" path)) [].

Fixpoint rfind (c : ascii) (l : list ascii) : option nat :=
  match l with
  | [] => None
  | x :: l' =>
      match rfind c l' with
      | Some i => Some (S i)
      | None => if Ascii.eqb x c then Some 0 else None
      end
  end.

(** [pathlib.Path(path).suffix]: the name from its last dot on, when that
    dot is neither its first nor its last character. *)
Definition suffix (path : string) : string :=
  let nm := name (list_ascii_of_string path) in
  match rfind "." nm with
  | Some i =>
      if (0 <? i) && (i <? length nm - 1)
      then string_of_list_ascii (skipn i nm) else ""
  | None => ""
  end.

End Text.

(** ** The world around the program *)

(** The answer of the boundary service: a JSON array of objects, one per
    administrative level, each a list of fields. *)
Definition AdmRecord := list (string * string).
Definition Response := list AdmRecord.

Record Env := {
  path_exists : string -> bool;         (* [os.path.exists] *)
  open_dataset : string -> Dataset;     (* [xr.open_dataset] *)
  countries : list string;              (* the [alpha_3] of [pycountry.countries] *)
  get_json : string -> option Response; (* [requests.get(url).json()], [None] when it raises *)
  read_file : string -> GeoDataFrame    (* [gpd.read_file] *)
}.

Inductive level := ERROR | WARNING.

(** What a run does to the world, in the order it does it. *)
Inductive event :=
| Log (l : level) (m : message)
| OpenDataset (path : string)
| Request (url : string)
| ReadFile (path : string)
| Print (bar : nat)
| ToParquet (path : string) (table : Frame.DataFrame)
| ToCsv (path : string) (stats : list StatsRow).

(** A computation that may raise and that extends the trace of events. *)
Definition M (A : Type) : Type := list event -> result A * list event.

Definition ret {A} (a : A) : M A := fun tr => (Ok a, tr).

Definition bind {A B} (m : M A) (k : A -> M B) : M B :=
  fun tr =>
    match m tr with
    | (Ok a, tr') => k a tr'
    | (Raise e, tr') => (Raise e, tr')
    end.

Definition raise {A} (e : exn) : M A := fun tr => (Raise e, tr).

Definition emit (ev : event) : M unit := fun tr => (Ok tt, tr ++ [ev]).

Definition lift {A} (r : result A) : M A := fun tr => (r, tr).

Declare Scope monad_scope.
Delimit Scope monad_scope with monad.
Notation "x <- m ;; k" := (bind m (fun x => k))
  (at level 61, m at next level, right associativity) : monad_scope.
Notation "m ;; k" := (bind m (fun _ => k))
  (at level 61, right associativity) : monad_scope.
Local Open Scope monad_scope.

(** [logging.error(m)] followed by [raise Exception(m)] *)
Definition fail {A} (m : message) : M A :=
  emit (Log ERROR m) ;; raise (Exception m).

(** ** The run, section by section *)

Section Run.

Variable env : Env.

(** Load the GRIB file *)
Definition load_grib (inputfile : string) : M Dataset :=
  if path_exists env inputfile
  then emit (OpenDataset inputfile) ;; ret (open_dataset env inputfile)
  else fail (MissingInputFile inputfile).

Definition has_var (dataset : Dataset) (varname : string) : bool :=
  match lookup varname (data_vars dataset) with
  | Some _ => true
  | None => false
  end.

(** Checking that the varname is in the input file *)
Definition check_varname (dataset : Dataset) (varname : string) : M unit :=
  if negb (has_var dataset varname)
  then fail (NotADataVariable varname (map fst (data_vars dataset)))
  else ret tt.

Definition mem (s : string) (l : list string) : bool :=
  existsb (String.eqb s) l.

(** Check that the country is in [all_countries]; the code the run goes
    on with is the upper-cased one. *)
Definition check_country (country : string) : M string :=
  let country := Text.upper country in
  let all_countries := countries env in
  if negb (mem country all_countries)
  then fail (CountryNotExisting country)
  else ret country.

(** Output file *)
Definition output_file (outputfile : string) : M string :=
  if negb (String.eqb (Text.suffix outputfile) ".parquet")
  then emit (Log WARNING AddingParquetExtension) ;;
       ret (outputfile ++ ".parquet")%string
  else ret outputfile.

Definition url (country : string) : string :=
  ("https://www.geoboundaries.org/api/current/gbOpen/" ++ country ++ "/ALL/")%string.

(** The request inside [try] / [except]: when it raises, the error is
    logged and [r] stays unbound ([None]). *)
Definition request (country : string) : M (option Response) :=
  emit (Request (url country)) ;;
  match get_json env (url country) with
  | Some r => ret (Some r)
  | None => emit (Log ERROR ErrorRequestingShapefile) ;; ret None
  end.

(** Check the range of [adm_level] *)
Definition check_adm_level (adm_level : string) : M Z :=
  match Text.int adm_level with
  | None => raise (ValueError_int adm_level)
  | Some adm_level =>
      if (adm_level <? 0)%Z || (adm_level >? 2)%Z
      then fail AdmLevelRange
      else ret adm_level
  end.

(** [r[i]] on a list, for [0 <= i]. *)
Definition item (r : Response) (i : Z) : M AdmRecord :=
  match nth_error r (Z.to_nat i) with
  | Some x => ret x
  | None => raise IndexError
  end.

(** The choice of the record of the requested level. *)
Definition select_adm (r : option Response) (adm_level : Z) (country : string)
  : M AdmRecord :=
  match r with
  | None => raise (UnboundLocalError "r")
  | Some r =>
      if 2 <? length r then item r adm_level
      else emit (Log WARNING (AdmLevelMissing adm_level country)) ;;
           item r 0%Z
  end.

(** Selecting the simplified GeoJSON from the returned data *)
Definition read_boundary (selected_adm : AdmRecord) : M GeoDataFrame :=
  match lookup "simplifiedGeometryGeoJSON" selected_adm with
  | None => raise (KeyError "simplifiedGeometryGeoJSON")
  | Some dlPath => emit (ReadFile dlPath) ;; ret (read_file env dlPath)
  end.

(** The loop over the regions with its progress bar, whose length is
    [80 * (index + 1) // geoBoundary.shape[0]]. *)
Fixpoint for_rows (dataset : Dataset) (varname : string) (shape0 : nat)
         (st : LoopState) (index : nat) (rows : list Row) : M LoopState :=
  match rows with
  | [] => ret st
  | row :: rows' =>
      emit (Print (80 * (index + 1) / shape0)) ;;
      st' <- lift (loop_body dataset varname st index row) ;;
      for_rows dataset varname shape0 st' (S index) rows'
  end.

(** Saving files *)
Definition save (target_file_name : string) (st : LoopState) : M unit :=
  emit (ToParquet target_file_name (fst st)) ;;
  emit (ToCsv (target_file_name ++ ".csv")%string (snd st)).

Definition extract_time_series
           (inputfile outputfile varname adm_level country : string) : M unit :=
  dataset <- load_grib inputfile ;;
  check_varname dataset varname ;;
  country <- check_country country ;;
  target_file_name <- output_file outputfile ;;
  r <- request country ;;
  adm_level <- check_adm_level adm_level ;;
  selected_adm <- select_adm r adm_level country ;;
  geoBoundary <- read_boundary selected_adm ;;
  st <- for_rows dataset varname (length geoBoundary)
                 (Frame.empty, []) 0 geoBoundary ;;
  save target_file_name st.

End Run.

(** What a trace shows of the network, of the regions and of the disk. *)
Definition is_request (ev : event) : bool :=
  match ev with Request _ | ReadFile _ => true | _ => false end.

Definition is_region_step (ev : event) : bool :=
  match ev with Print _ => true | _ => false end.

Definition is_write (ev : event) : bool :=
  match ev with ToParquet _ _ | ToCsv _ _ => true | _ => false end.

(** ** Vocabulary of the properties *)

(** [lo <= x <= hi] *)
Definition between (lo hi x : Q) : bool := Qle_bool lo x && Qle_bool x hi.

(** An axis pandas searches as an increasing one. *)
Definition ascending (a : list Q) : bool := Axis.is_monotonic_increasing a.

(** An axis pandas searches as a decreasing one: decreasing, and with two
    labels that differ, since the increasing test comes first. *)
Definition descending (a : list Q) : bool :=
  negb (Axis.is_monotonic_increasing a) && Axis.is_monotonic_decreasing a.

Definition monotonic (a : list Q) : bool := ascending a || descending a.

(** No label of the axis lies in [lo, hi]: they are all above it or all
    below it. *)
Definition misses (lo hi : Q) (a : list Q) : bool :=
  forallb (fun x => Axis.Qlt_bool hi x) a
  || forallb (fun x => Axis.Qlt_bool x lo) a.

(** The bounding box is well formed. *)
Definition bbox_ok (g : Geometry) : bool :=
  let '(xmin, ymin, xmax, ymax) := total_bounds g in
  Qle_bool xmin xmax && Qle_bool ymin ymax.

(** The bounding box does not meet the extent of the grid. *)
Definition bbox_misses_grid (g : Geometry) (ds : Dataset) : bool :=
  let '(xmin, ymin, xmax, ymax) := total_bounds g in
  misses xmin xmax (longitude ds) || misses ymin ymax (latitude ds).

(** The geometry covers the whole grid: every label is inside the
    bounding box and the clip on the grid keeps every cell. *)
Definition covers_grid (g : Geometry) (ds : Dataset) : bool :=
  let '(xmin, ymin, xmax, ymax) := total_bounds g in
  forallb (between xmin xmax) (longitude ds)
  && forallb (between ymin ymax) (latitude ds)
  && forallb (fun i =>
                forallb (fun j => mask g (longitude ds) (latitude ds) i j)
                        (seq 0 (length (longitude ds))))
             (seq 0 (length (latitude ds))).

(** The composite time axis of a grid and the spatial means of one of its
    variables over all of its cells, one per (time, step) pair, time
    outermost. *)
Definition grid_timesteps (ds : Dataset) : list Z :=
  flat_map (fun t => map (fun s => (t + s)%Z) (step ds)) (time ds).

Definition grid_means (ds : Dataset) (a : DataArray) : list float :=
  flat_map (fun t =>
              map (fun s => nanmean (cells (length (latitude ds))
                                           (length (longitude ds)) a t s))
                  (seq 0 (length (step ds))))
           (seq 0 (length (time ds))).

(** The series of one region as the body of the loop computes it, [None]
    when the window has no cell. *)
Definition aggregate (dataset : Dataset) (varname : string) (row : Row)
  : result (option (list Z * list float)) :=
  rbind (this_dataset dataset row) (fun window =>
  rbind (getitem window varname) (fun _ =>
  if 0 <? size window then
    let sd := stacked_data (clip window (geometry row)) in
    rbind (stacked_getitem sd varname) (fun values =>
    Ok (Some (timestep sd, values)))
  else Ok None)).

(** [p] can only hold on a leading run of a list sorted by [R]: it holds
    of whatever comes before something it holds of. *)
Definition leading {A} (R : A -> A -> Prop) (p : A -> bool) : Prop :=
  forall x y, R x y -> p y = true -> p x = true.

(** The number of points of every series of a grid. *)
Definition npoints (ds : Dataset) : nat := length (time ds) * length (step ds).

(** Does the window of the region hold any value of the grid? *)
Definition has_cells (ds : Dataset) (row : Row) : bool :=
  match this_dataset ds row with
  | Ok window => 0 <? size window
  | Raise _ => false
  end.

(** Every column of the table has as many values as the index has rows. *)
Definition aligned (df : Frame.DataFrame) : Prop :=
  Forall (fun kv : string * list Frame.cell =>
            length (snd kv) = Frame.index df)
         (Frame.columns df).

(** The table of a run on a grid: still the empty one, or one whose axis
    is set, with a row per point of the grid and aligned columns. *)
Definition table_inv (ds : Dataset) (df : Frame.DataFrame) : Prop :=
  df = Frame.empty
  \/ (0 < npoints ds
      /\ Frame.index df = npoints ds
      /\ aligned df
      /\ exists axis, lookup "timestep" (Frame.columns df) = Some axis).

(** A computation only adds events to the trace it is given. *)
Definition extends {A} (m : M A) : Prop :=
  forall tr, exists more, snd (m tr) = tr ++ more.

(** Whatever a computation raises satisfies [P]. *)
Definition raises_only {A} (P : exn -> Prop) (m : M A) : Prop :=
  forall tr e tr', m tr = (Raise e, tr') -> P e.

(** An exception other than the one of the country check. *)
Definition not_country (e : exn) : Prop :=
  match e with
  | Exception (CountryNotExisting _) => False
  | _ => True
  end.

(** ** Sample data *)

Module Sample.

(** A variable whose cells all differ: 100 t + 50 s + 10 i + j. *)
Definition t2m : DataArray :=
  fun t s i j => Some (inject_Z (Z.of_nat (100 * t + 50 * s + 10 * i + j))).

(** Three longitudes, three latitudes stored from north to south as in
    ERA5-land, two times and two steps. *)
Definition era5 : Dataset :=
  {| time := [0; 86400]%Z;
     step := [3600; 7200]%Z;
     latitude := [42; 41; 40]%Q;
     longitude := [10; 11; 12]%Q;
     data_vars := [("t2m", t2m)] |}.

(** The same grid with its latitudes stored from south to north. *)
Definition south_up : Dataset :=
  {| time := [0; 86400]%Z;
     step := [3600; 7200]%Z;
     latitude := [40; 41; 42]%Q;
     longitude := [10; 11; 12]%Q;
     data_vars := [("t2m", t2m)] |}.

Definition box (xmin ymin xmax ymax : Q) : Geometry :=
  {| total_bounds := (xmin, ymin, xmax, ymax);
     mask := fun lon lat i j =>
               between xmin xmax (nth j lon 0%Q)
               && between ymin ymax (nth i lat 0%Q);
     cea_area := 1234567890 |}.

(** A region over the whole grid, one over its north-west corner and one
    far away from it. *)
Definition whole : Row :=
  {| shapeName := "Whole"; shapeISO := "W"; geometry := box 10 40 12 42 |}.

Definition corner : Row :=
  {| shapeName := "Corner"; shapeISO := "C"; geometry := box 9 41 11 43 |}.

Definition far : Row :=
  {| shapeName := "Far"; shapeISO := "F"; geometry := box 100 0 101 1 |}.

Definition adm (path : string) : AdmRecord :=
  [("boundaryType", "ADM"); ("simplifiedGeometryGeoJSON", path)].

(** A world with one input file, three countries, and a boundary service
    that knows three levels of Italy, one of France, none of Germany, and
    fails for everything else. *)
Definition env : Env :=
  {| path_exists := fun p => String.eqb p "era5.grib";
     open_dataset := fun _ => era5;
     countries := ["DEU"; "FRA"; "ITA"];
     get_json := fun u =>
       if String.eqb u (url "ITA")
       then Some [adm "ita0.geojson"; adm "ita1.geojson"; adm "ita2.geojson"]
       else if String.eqb u (url "FRA") then Some [adm "fra0.geojson"]
       else if String.eqb u (url "DEU") then Some []
       else None;
     read_file := fun p =>
       if String.eqb p "ita1.geojson" then [far; corner; whole]
       else [whole] |}.

(** The same world with the network down. *)
Definition offline : Env :=
  {| path_exists := path_exists env;
     open_dataset := open_dataset env;
     countries := countries env;
     get_json := fun _ => None;
     read_file := read_file env |}.

End Sample.

(** ** What the loop leaves in the two tables *)

(** The column the body of the loop sets for a region: the values of its
    series, [] when it has none. *)
Definition series_of (ds : Dataset) (varname : string) (row : Row)
  : list Frame.cell :=
  match aggregate ds varname row with
  | Ok (Some (_, values)) => map Frame.of_float values
  | _ => []
  end.

(** The column of the composite time axis of a grid. *)
Definition axis_column (ds : Dataset) : list Frame.cell :=
  map Frame.Time (grid_timesteps ds).

(** The last region of the list that bears the name and has cells in its
    window. *)
Fixpoint last_named (ds : Dataset) (name : string) (rows : list Row)
  : option Row :=
  match rows with
  | [] => None
  | row :: rows' =>
      match last_named ds name rows' with
      | Some r => Some r
      | None =>
          if String.eqb name (shapeName row) && has_cells ds row
          then Some row else None
      end
  end.

(** The number of cells of the grid whose longitude and latitude lie in
    the bounding box of the region. *)
Definition box_cells (ds : Dataset) (row : Row) : nat :=
  let '(xmin, ymin, xmax, ymax) := total_bounds (geometry row) in
  length (filter (between ymin ymax) (latitude ds))
  * length (filter (between xmin xmax) (longitude ds)).

(** A computation adds events to the trace it is given, all of which
    satisfy [P]. *)
Definition adds {A} (P : event -> bool) (m : M A) : Prop :=
  forall tr, exists more, snd (m tr) = tr ++ more /\ forallb P more = true.

(** The row of the statistics table for the region at a position, on a
    grid whose longitudes ascend and whose latitudes descend. *)
Definition box_stats (ds : Dataset) (index : nat) (row : Row) : StatsRow :=
  {| stat_index := index;
     stat_name := shapeName row;
     stat_ISO := shapeISO row;
     stat_area_km2 := round2 (cea_area (geometry row) / 1000000);
     stat_n := box_cells ds row |}.

(** An event other than the writing of a file. *)
Definition no_write (ev : event) : bool := negb (is_write ev).

(** A computation that, from a trace without a write, either raises
    without having written, or ends after having written the table and
    then the statistics beside it, last of all. *)
Definition writes_at_end (m : M unit) : Prop :=
  forall tr,
    existsb is_write tr = false ->
    match m tr with
    | (Ok _, tr') =>
        exists before target out stats,
          tr' = before ++ [ToParquet target out;
                           ToCsv (target ++ ".csv")%string stats]
          /\ existsb is_write before = false
    | (Raise _, tr') => existsb is_write tr' = false
    end.

(** ** More sample data *)

Module More.


(** The variable of the sample grid changed outside the two northern
    rows and the two western columns, where the corner region lies. *)
Definition t2m_elsewhere : DataArray :=
  fun t s i j =>
    if (i <? 2) && (j <? 2) then Sample.t2m t s i j else Some 0%Q.

Definition era5_elsewhere : Dataset :=
  {| time := time Sample.era5;
     step := step Sample.era5;
     latitude := latitude Sample.era5;
     longitude := longitude Sample.era5;
     data_vars := [("t2m", t2m_elsewhere)] |}.

End More.

(** ** The command line

    [getopt.getopt] of the standard library, as [main] calls it, and
    [main] itself. *)

Module Cli.

(** The four errors of [getopt], with the option they name; [long] tells
    an option written with two dashes from one written with one. *)
Inductive getopt_error :=
| RequiresArgument (long : bool) (opt : string)
| NotRecognized (long : bool) (opt : string)
| MustNotHaveArgument (opt : string)
| NotUniquePrefix (opt : string).

Inductive parse (A : Type) :=
| Parsed (a : A)
| GetoptError (e : getopt_error).
Arguments Parsed {A} a.
Arguments GetoptError {A} e.

(** [short_has_arg(opt, shortopts)] *)
Fixpoint short_has_arg (opt : ascii) (shortopts : string) : parse bool :=
  match shortopts with
  | EmptyString => GetoptError (NotRecognized false (String opt ""))
  | String c rest =>
      if Ascii.eqb opt c && negb (Ascii.eqb c ":")
      then Parsed (String.prefix ":" rest)
      else short_has_arg opt rest
  end.

(** [do_shorts(opts, optstring, shortopts, args)], on the text after the
    dash.  [next] is [args[0]] when there is one; the answer is the
    options read, and whether [args[0]] was taken as the argument of the
    last of them. *)
Fixpoint do_shorts (optstring shortopts : string) (next : option string)
  : parse (list (string * string) * bool) :=
  match optstring with
  | EmptyString => Parsed ([], false)
  | String opt optstring' =>
      match short_has_arg opt shortopts with
      | GetoptError e => GetoptError e
      | Parsed true =>
          match optstring' with
          | EmptyString =>
              match next with
              | None => GetoptError (RequiresArgument false (String opt ""))
              | Some optarg => Parsed ([(String "-" (String opt ""), optarg)], true)
              end
          | _ => Parsed ([(String "-" (String opt ""), optstring')], false)
          end
      | Parsed false =>
          match do_shorts optstring' shortopts next with
          | GetoptError e => GetoptError e
          | Parsed (opts, took) =>
              Parsed ((String "-" (String opt ""), "") :: opts, took)
          end
      end
  end.

(** The text before the first [=] and, when there is one, the text
    after it. *)
Fixpoint cut (s : string) : string * option string :=
  match s with
  | EmptyString => ("", None)
  | String c s' =>
      if Ascii.eqb c "=" then ("", Some s')
      else let (opt, optarg) := cut s' in (String c opt, optarg)
  end.

(** A text that ends with [=], without it. *)
Fixpoint without_eq (s : string) : option string :=
  match s with
  | EmptyString => None
  | String c EmptyString => if Ascii.eqb c "=" then Some "" else None
  | String c s' => option_map (String c) (without_eq s')
  end.

(** [long_has_args(opt, longopts)] *)
Definition long_has_args (opt : string) (longopts : list string)
  : parse (bool * string) :=
  let possibilities := filter (String.prefix opt) longopts in
  match possibilities with
  | [] => GetoptError (NotRecognized true opt)
  | _ =>
      if existsb (String.eqb opt) possibilities then Parsed (false, opt)
      else if existsb (String.eqb (opt ++ "=")%string) possibilities
      then Parsed (true, opt)
      else
        match possibilities with
        | [unique_match] =>
            match without_eq unique_match with
            | Some name => Parsed (true, name)
            | None => Parsed (false, unique_match)
            end
        | _ => GetoptError (NotUniquePrefix opt)
        end
  end.

(** [do_longs(opts, opt, longopts, args)], on the text after the two
    dashes; [next] and the flag of the answer are as for [do_shorts]. *)
Definition do_longs (text : string) (longopts : list string)
           (next : option string) : parse ((string * string) * bool) :=
  let (opt, optarg) := cut text in
  match long_has_args opt longopts with
  | GetoptError e => GetoptError e
  | Parsed (has_arg, opt) =>
      if has_arg then
        match optarg with
        | Some optarg => Parsed ((("--" ++ opt)%string, optarg), false)
        | None =>
            match next with
            | None => GetoptError (RequiresArgument true opt)
            | Some optarg => Parsed ((("--" ++ opt)%string, optarg), true)
            end
        end
      else
        match optarg with
        | Some _ => GetoptError (MustNotHaveArgument opt)
        | None => Parsed ((("--" ++ opt)%string, ""), false)
        end
  end.

Fixpoint drop (n : nat) (s : string) : string :=
  match n, s with
  | S n', String _ s' => drop n' s'
  | _, _ => s
  end.

(** [getopt.getopt(args, shortopts, longopts)]: options are read while
    the first argument left starts with a dash and is not a dash alone;
    two dashes alone end them.  The answer is the options and the
    arguments left. *)
Fixpoint getopt (args : list string) (shortopts : string)
         (longopts : list string)
  : parse (list (string * string) * list string) :=
  match args with
  | [] => Parsed ([], [])
  | arg :: rest =>
      if String.prefix "-" arg && negb (String.eqb arg "-") then
        if String.eqb arg "--" then Parsed ([], rest)
        else
          let read :=
            if String.prefix "--" arg then
              match do_longs (drop 2 arg) longopts (hd_error rest) with
              | GetoptError e => GetoptError e
              | Parsed (opt, took) => Parsed ([opt], took)
              end
            else do_shorts (drop 1 arg) shortopts (hd_error rest) in
          match read with
          | GetoptError e => GetoptError e
          | Parsed (opts, took) =>
              let after :=
                match rest with
                | [] => Parsed ([], [])
                | _ :: rest' =>
                    if took then getopt rest' shortopts longopts
                    else getopt rest shortopts longopts
                end in
              match after with
              | GetoptError e => GetoptError e
              | Parsed (more, args') => Parsed (opts ++ more, args')
              end
          end
      else Parsed ([], args)
  end.

Definition usage : string :=
  "python extract_timeseries.py -i <inputfile> -o <outputfile> -v <varname> -c <country_iso3> -a <adm_level>".

(** The five local variables of [main] the options bind; [None] is a
    variable that is not bound. *)
Record locals := {
  inputfile : option string;
  outputfile : option string;
  varname : option string;
  adm_level : option string;
  country : option string
}.

Definition unbound : locals :=
  {| inputfile := None; outputfile := None; varname := None;
     adm_level := None; country := None |}.

(** The loop over the options; [None] when [-h] is met, where the usage
    is printed and the program exits. *)
Fixpoint for_opts (opts : list (string * string)) (vars : locals)
  : option locals :=
  match opts with
  | [] => Some vars
  | (opt, arg) :: opts' =>
      if String.eqb opt "-h" then None
      else if String.eqb opt "-i" || String.eqb opt "--ifile" then
        for_opts opts' {| inputfile := Some arg;
                          outputfile := outputfile vars;
                          varname := varname vars;
                          adm_level := adm_level vars;
                          country := country vars |}
      else if String.eqb opt "-o" || String.eqb opt "--ofile" then
        for_opts opts' {| inputfile := inputfile vars;
                          outputfile := Some arg;
                          varname := varname vars;
                          adm_level := adm_level vars;
                          country := country vars |}
      else if String.eqb opt "-v" || String.eqb opt "--varname" then
        for_opts opts' {| inputfile := inputfile vars;
                          outputfile := outputfile vars;
                          varname := Some arg;
                          adm_level := adm_level vars;
                          country := country vars |}
      else if String.eqb opt "-a" || String.eqb opt "--adm_level" then
        for_opts opts' {| inputfile := inputfile vars;
                          outputfile := outputfile vars;
                          varname := varname vars;
                          adm_level := Some arg;
                          country := country vars |}
      else if String.eqb opt "-c" || String.eqb opt "--country_iso3" then
        for_opts opts' {| inputfile := inputfile vars;
                          outputfile := outputfile vars;
                          varname := varname vars;
                          adm_level := adm_level vars;
                          country := Some arg |}
      else for_opts opts' vars
  end.

(** What [main] does to the world, and how it ends. *)
Inductive cli_event :=
| LogError (text : string)
| Stdout (text : string)
| Extract (ev : event).

Inductive cli_outcome :=
| Returned
| SystemExit
| Getopt (e : getopt_error)
| Unbound (name : string)
| Raised (e : exn).

(** The call [extract_time_series(inputfile, outputfile, varname,
    adm_level, country)] with its arguments bound. *)
Definition run (env : Env) (i o v a c : string)
  : list cli_event * cli_outcome :=
  let (res, tr) := extract_time_series env i o v a c [] in
  (map Extract tr, match res with Ok _ => Returned | Raise e => Raised e end).

(** The same call from the local variables, which are read from left to
    right. *)
Definition launch (env : Env) (vars : locals) : list cli_event * cli_outcome :=
  match inputfile vars with
  | None => ([], Unbound "inputfile")
  | Some i =>
  match outputfile vars with
  | None => ([], Unbound "outputfile")
  | Some o =>
  match varname vars with
  | None => ([], Unbound "varname")
  | Some v =>
  match adm_level vars with
  | None => ([], Unbound "adm_level")
  | Some a =>
  match country vars with
  | None => ([], Unbound "country")
  | Some c => run env i o v a c
  end end end end end.

Definition main (env : Env) (argv : list string)
  : list cli_event * cli_outcome :=
  if negb (length argv =? 10) then
    ([LogError "Missing arguments:"; LogError usage], SystemExit)
  else
    match getopt argv "hi:o:v:a:c:"
                 ["ifile="; "ofile="; "varname="; "adm_level=";
                  "country_iso3="] with
    | GetoptError e => ([], Getopt e)
    | Parsed (opts, _) =>
        match for_opts opts unbound with
        | None => ([Stdout usage], SystemExit)
        | Some vars => launch env vars
        end
    end.

(** The five options, the two ways to write each of them, and the
    command line of a list of options with their values. *)
Inductive key := KI | KO | KV | KA | KC.

Definition spelled (k : key) (long : bool) : string :=
  match k, long with
  | KI, false => "-i" | KI, true => "--ifile"
  | KO, false => "-o" | KO, true => "--ofile"
  | KV, false => "-v" | KV, true => "--varname"
  | KA, false => "-a" | KA, true => "--adm_level"
  | KC, false => "-c" | KC, true => "--country_iso3"
  end.

Definition given := (key * bool * string)%type.

Definition key_of (g : given) : key := fst (fst g).

Definition argv_of (l : list given) : list string :=
  flat_map (fun g : given => [spelled (key_of g) (snd (fst g)); snd g]) l.

Definition get (k : key) (vars : locals) : option string :=
  match k with
  | KI => inputfile vars
  | KO => outputfile vars
  | KV => varname vars
  | KA => adm_level vars
  | KC => country vars
  end.

Definition set (k : key) (arg : string) (vars : locals) : locals :=
  match k with
  | KI => {| inputfile := Some arg; outputfile := outputfile vars;
             varname := varname vars; adm_level := adm_level vars;
             country := country vars |}
  | KO => {| inputfile := inputfile vars; outputfile := Some arg;
             varname := varname vars; adm_level := adm_level vars;
             country := country vars |}
  | KV => {| inputfile := inputfile vars; outputfile := outputfile vars;
             varname := Some arg; adm_level := adm_level vars;
             country := country vars |}
  | KA => {| inputfile := inputfile vars; outputfile := outputfile vars;
             varname := varname vars; adm_level := Some arg;
             country := country vars |}
  | KC => {| inputfile := inputfile vars; outputfile := outputfile vars;
             varname := varname vars; adm_level := adm_level vars;
             country := Some arg |}
  end.

Definition key_eqb (k k' : key) : bool :=
  match k, k' with
  | KI, KI | KO, KO | KV, KV | KA, KA | KC, KC => true
  | _, _ => false
  end.

(** The option [getopt] answers for a given one, and the local
    variables after the loop over given options. *)
Definition entry (g : given) : string * string :=
  (spelled (key_of g) (snd (fst g)), snd g).

Definition bind_all (l : list given) (vars : locals) : locals :=
  fold_left (fun vars g => set (key_of g) (snd g) vars) l vars.

End Cli.

(** * Properties *)

(** ** Order on the labels *)

Lemma Qlt_bool_iff (x y : Q) : Axis.Qlt_bool x y = true <-> (x < y)%Q.
Proof.
  unfold Axis.Qlt_bool. rewrite negb_true_iff.
  split; intros H.
  - apply Qnot_le_lt. intros Hle. apply Qle_bool_iff in Hle. congruence.
  - destruct (Qle_bool y x) eqn:E; [|reflexivity].
    apply Qle_bool_iff in E. exfalso. apply (Qlt_not_le _ _ H E).
Qed.

Lemma Qle_bool_false (x y : Q) : Qle_bool x y = false <-> (y < x)%Q.
Proof.
  rewrite <- Qlt_bool_iff. unfold Axis.Qlt_bool.
  now rewrite negb_true_iff.
Qed.

Lemma between_iff (lo hi x : Q) :
  between lo hi x = true <-> (lo <= x /\ x <= hi)%Q.
Proof.
  unfold between. rewrite andb_true_iff, !Qle_bool_iff. reflexivity.
Qed.

Lemma increasing_sorted (a : list Q) :
  Axis.is_monotonic_increasing a = true -> StronglySorted Qle a.
Proof.
  intros H. apply Sorted_StronglySorted.
  - intros x y z. apply Qle_trans.
  - induction a as [|x a IH]; [constructor|].
    destruct a as [|y a']; [repeat constructor|].
    simpl in H. apply andb_true_iff in H. destruct H as [Hxy H].
    constructor; [now apply IH|].
    constructor. now apply Qle_bool_iff.
Qed.

Lemma decreasing_sorted (a : list Q) :
  Axis.is_monotonic_decreasing a = true ->
  StronglySorted (fun x y => (y <= x)%Q) a.
Proof.
  intros H. apply Sorted_StronglySorted.
  - intros x y z Hxy Hyz. exact (Qle_trans _ _ _ Hyz Hxy).
  - induction a as [|x a IH]; [constructor|].
    destruct a as [|y a']; [repeat constructor|].
    simpl in H. apply andb_true_iff in H. destruct H as [Hxy H].
    constructor; [now apply IH|].
    constructor. now apply Qle_bool_iff.
Qed.

Lemma sorted_snoc {A} (R : A -> A -> Prop) (l : list A) (x : A) :
  StronglySorted R l -> Forall (fun y => R y x) l ->
  StronglySorted R (l ++ [x]).
Proof.
  induction 1 as [|y l Hs IH Hy]; intros Hx; simpl.
  - repeat constructor.
  - inversion Hx; subst. constructor.
    + now apply IH.
    + apply Forall_app. split; [exact Hy|]. now repeat constructor.
Qed.

Lemma decreasing_rev_increasing (a : list Q) :
  StronglySorted (fun x y => (y <= x)%Q) a -> StronglySorted Qle (rev a).
Proof.
  induction 1 as [|x a Hs IH Hx]; simpl; [constructor|].
  apply sorted_snoc; [exact IH|].
  now apply Forall_rev.
Qed.

(** ** Label-based slices of a monotonic axis *)

Section Slices.

Context {A : Type} (R : A -> A -> Prop).

Lemma leading_tail_false (p : A -> bool) (x : A) (l : list A) :
  leading R p -> Forall (R x) l -> p x = false -> filter p l = [].
Proof.
  intros Hp Hx Hf. induction Hx as [|y l Hy _ IH]; [reflexivity|].
  simpl. destruct (p y) eqn:E; [|exact IH].
  rewrite (Hp _ _ Hy E) in Hf. discriminate.
Qed.

Lemma firstn_filter (p : A -> bool) (l : list A) :
  StronglySorted R l -> leading R p ->
  firstn (length (filter p l)) l = filter p l.
Proof.
  intros Hs Hp. induction Hs as [|x l Hs IH Hx]; [reflexivity|].
  simpl. destruct (p x) eqn:E.
  - simpl. now rewrite IH.
  - now rewrite (leading_tail_false p x l Hp Hx E).
Qed.

Lemma getslice_filter (p q : A -> bool) (l : list A) :
  StronglySorted R l -> leading R p -> leading R q ->
  Axis.getslice l (length (filter p l)) (length (filter q l))
  = filter (fun x => negb (p x) && q x) l.
Proof.
  intros Hs Hp Hq. unfold Axis.getslice.
  induction Hs as [|x l Hs IH Hx]; [reflexivity|].
  simpl. destruct (p x) eqn:Ep, (q x) eqn:Eq; simpl.
  - exact IH.
  - rewrite (leading_tail_false q x l Hq Hx Eq). simpl.
    symmetry. erewrite filter_ext_in; [apply filter_false|].
    intros y Hy. simpl.
    destruct (q y) eqn:E; [|apply andb_false_r].
    rewrite Forall_forall in Hx.
    rewrite (Hq _ _ (Hx _ Hy) E) in Eq. discriminate.
  - rewrite (leading_tail_false p x l Hp Hx Ep). simpl. f_equal.
    rewrite (firstn_filter q l Hs Hq).
    apply filter_ext_in. intros y Hy.
    destruct (p y) eqn:E; [|reflexivity].
    rewrite Forall_forall in Hx.
    rewrite (Hp _ _ (Hx _ Hy) E) in Ep. discriminate.
  - rewrite (leading_tail_false p x l Hp Hx Ep). simpl.
    rewrite (leading_tail_false q x l Hq Hx Eq). simpl.
    symmetry. erewrite filter_ext_in; [apply filter_false|].
    intros y Hy. simpl.
    destruct (q y) eqn:E; [|apply andb_false_r].
    rewrite Forall_forall in Hx.
    rewrite (Hq _ _ (Hx _ Hy) E) in Eq. discriminate.
Qed.

End Slices.

Lemma filter_partition_length {A} (p : A -> bool) (l : list A) :
  length l
  = length (filter p l) + length (filter (fun x => negb (p x)) l).
Proof.
  induction l as [|x l IH]; [reflexivity|].
  cbn [filter length]. destruct (p x); cbn [negb length]; lia.
Qed.

Lemma filter_complement {A} (p : A -> bool) (l : list A) :
  length l - length (filter p l) = length (filter (fun x => negb (p x)) l).
Proof.
  rewrite (filter_partition_length p l) at 1. lia.
Qed.

Lemma below_leading (s : Axis.side) (v : Q) : leading Qle (Axis.below s v).
Proof.
  intros x y Hxy. destruct s; simpl.
  - rewrite !Qlt_bool_iff. intros H. exact (Qle_lt_trans _ _ _ Hxy H).
  - rewrite !Qle_bool_iff. intros H. exact (Qle_trans _ _ _ Hxy H).
Qed.

Lemma not_below_leading (s : Axis.side) (v : Q) :
  leading (fun x y => (y <= x)%Q) (fun x => negb (Axis.below s v x)).
Proof.
  intros x y Hxy. rewrite !negb_true_iff. destruct s; simpl.
  - unfold Axis.Qlt_bool. rewrite !negb_false_iff, !Qle_bool_iff.
    intros H. exact (Qle_trans _ _ _ H Hxy).
  - rewrite !Qle_bool_false. intros H. exact (Qlt_le_trans _ _ _ H Hxy).
Qed.

Lemma searchsorted_count (a : list Q) (v : Q) (s : Axis.side) :
  StronglySorted Qle a ->
  Axis.searchsorted a v s = length (filter (Axis.below s v) a).
Proof.
  induction 1 as [|x a Hs IH Hx]; [reflexivity|].
  simpl. destruct (Axis.below s v x) eqn:E.
  - simpl. now rewrite IH.
  - now rewrite (leading_tail_false Qle _ x a (below_leading s v) Hx E).
Qed.

Lemma searchsorted_monotonic_ascending (a : list Q) (v : Q) (s : Axis.side) :
  ascending a = true ->
  Axis.searchsorted_monotonic a v s
  = Some (length (filter (Axis.below s v) a)).
Proof.
  unfold ascending, Axis.searchsorted_monotonic. intros H. rewrite H.
  now rewrite searchsorted_count by now apply increasing_sorted.
Qed.

Lemma searchsorted_monotonic_descending (a : list Q) (v : Q) (s : Axis.side) :
  descending a = true ->
  Axis.searchsorted_monotonic a v s
  = Some (length (filter (fun x => negb (Axis.below (Axis.flip s) v x)) a)).
Proof.
  unfold descending, Axis.searchsorted_monotonic. intros H.
  apply andb_true_iff in H. destruct H as [Hi Hd].
  apply negb_true_iff in Hi. rewrite Hi, Hd.
  rewrite searchsorted_count
    by now apply decreasing_rev_increasing, decreasing_sorted.
  rewrite filter_rev, length_rev. now rewrite filter_complement.
Qed.

(** *** Labels that are on the axis *)

Lemma Qeq_bool_le (x v : Q) :
  Qeq_bool x v = Qle_bool v x && Qle_bool x v.
Proof.
  destruct (Qeq_bool x v) eqn:E; symmetry.
  - apply Qeq_bool_iff in E. apply andb_true_iff.
    rewrite !Qle_bool_iff. split; lra.
  - apply andb_false_iff.
    destruct (Qle_bool v x) eqn:E1; [|now left]. right.
    destruct (Qle_bool x v) eqn:E2; [|reflexivity].
    apply Qle_bool_iff in E1, E2.
    assert (H : Qeq_bool x v = true) by (apply Qeq_bool_iff; lra).
    congruence.
Qed.

Lemma filter_nil_false {A} (p : A -> bool) (l : list A) :
  filter p l = [] -> forall x, In x l -> p x = false.
Proof.
  induction l as [|y l IH]; simpl; [contradiction|].
  destruct (p y) eqn:E; [discriminate|].
  intros H x [<-|Hx]; [exact E|now apply IH].
Qed.

Section Stretch.

Variables (R : Q -> Q -> Prop) (v : Q).

(** On a sorted list where [q] holds of the labels equal to [v] only,
    the labels [q] holds of are the leading run of [v], and [v] does not
    come back after it. *)
Lemma run_count (q : Q -> bool) (a : list Q) :
  StronglySorted R a -> leading R q ->
  (forall y, In y a -> Qeq_bool y v = q y) ->
  Axis.run v a = length (filter q a)
  /\ existsb (fun y => Qeq_bool y v) (skipn (Axis.run v a) a) = false.
Proof.
  intros Hs Hq. induction Hs as [|y a Hs IH Hy]; intros Heq;
    [split; reflexivity|].
  assert (Hy' : Qeq_bool y v = q y) by (apply Heq; now left).
  assert (Heq' : forall z, In z a -> Qeq_bool z v = q z)
    by (intros z Hz; apply Heq; now right).
  simpl. rewrite Hy'. destruct (q y) eqn:E.
  - destruct (IH Heq') as [IH1 IH2]. simpl. split; [now rewrite IH1|exact IH2].
  - pose proof (leading_tail_false R q y a Hq Hy E) as Hnil.
    rewrite Hnil. split; [reflexivity|].
    simpl. rewrite Hy'. simpl.
    apply not_true_is_false. intros H. apply existsb_exists in H.
    destruct H as (z & Hz & Hzv). rewrite (Heq' z Hz) in Hzv.
    rewrite (filter_nil_false q a Hnil z Hz) in Hzv. discriminate.
Qed.

Lemma get_loc_found (a : list Q) (i j : nat) :
  Axis.get_loc a v = Axis.Found i j ->
  exists y, In y a /\ Qeq_bool y v = true.
Proof.
  revert i j. induction a as [|x a IH]; intros i j; simpl; [discriminate|].
  destruct (Qeq_bool x v) eqn:E.
  - intros _. exists x. split; [now left|exact E].
  - destruct (Axis.get_loc a v) as [|i' j'|]; try discriminate.
    intros _. destruct (IH i' j' eq_refl) as (y & Hy & Hyv).
    exists y. split; [now right|exact Hyv].
Qed.

(** On a list sorted by [R], with [p] holding of the labels before [v]
    and [q] of those before [v] or equal to it, a label that is on the
    list stands on one stretch, between the labels [p] holds of and the
    others [q] holds of. *)
Lemma get_loc_sorted (p q : Q -> bool) (a : list Q) :
  StronglySorted R a -> leading R p -> leading R q ->
  (forall x, Qeq_bool x v = negb (p x) && q x) ->
  match Axis.get_loc a v with
  | Axis.Found i j => i = length (filter p a) /\ j = length (filter q a)
  | Axis.Missing => True
  | Axis.Scattered => False
  end.
Proof.
  intros Hs Hp Hq Heq. induction Hs as [|x a Hs IH Hx]; [exact I|].
  simpl. destruct (Qeq_bool x v) eqn:E.
  - rewrite Heq in E. apply andb_true_iff in E. destruct E as [Ep Eq].
    apply negb_true_iff in Ep. rewrite Ep, Eq.
    pose proof (leading_tail_false R p x a Hp Hx Ep) as Hnil.
    destruct (run_count q a Hs Hq) as [Hrun Hback].
    { intros y Hy. rewrite Heq.
      now rewrite (filter_nil_false p a Hnil y Hy). }
    rewrite Hback, Hnil. simpl. now rewrite Hrun.
  - destruct (Axis.get_loc a v) as [|i j|] eqn:Hloc; [exact I| |exact IH].
    destruct IH as [-> ->].
    destruct (get_loc_found a _ _ Hloc) as (y & Hy & Hyv).
    rewrite Forall_forall in Hx.
    rewrite Heq in Hyv. apply andb_true_iff in Hyv. destruct Hyv as [_ Hqy].
    pose proof (Hq x y (Hx y Hy) Hqy) as Hqx.
    rewrite Heq, Hqx, andb_true_r in E. apply negb_false_iff in E.
    now rewrite E, Hqx.
Qed.

End Stretch.

Lemma get_slice_bound_ascending (a : list Q) (v : Q) (s : Axis.side) :
  ascending a = true ->
  Axis.get_slice_bound a v s = Some (length (filter (Axis.below s v) a)).
Proof.
  intros H. unfold Axis.get_slice_bound.
  pose proof (get_loc_sorted Qle v
                (Axis.below Axis.left v) (Axis.below Axis.right v) a
                (increasing_sorted a H)
                (below_leading Axis.left v) (below_leading Axis.right v))
    as Hloc.
  destruct (Axis.get_loc a v) as [|i j|].
  - now apply searchsorted_monotonic_ascending.
  - destruct Hloc as [-> ->]; [|now destruct s].
    intros x. simpl. unfold Axis.Qlt_bool. rewrite negb_involutive.
    apply Qeq_bool_le.
  - exfalso. apply Hloc. intros x. simpl. unfold Axis.Qlt_bool.
    rewrite negb_involutive. apply Qeq_bool_le.
Qed.

Lemma get_slice_bound_descending (a : list Q) (v : Q) (s : Axis.side) :
  descending a = true ->
  Axis.get_slice_bound a v s
  = Some (length (filter (fun x => negb (Axis.below (Axis.flip s) v x)) a)).
Proof.
  intros H. unfold Axis.get_slice_bound.
  assert (Hd : Axis.is_monotonic_decreasing a = true)
    by (unfold descending in H; now apply andb_true_iff in H).
  assert (Heq : forall x,
             Qeq_bool x v
             = negb (negb (Axis.below Axis.right v x))
               && negb (Axis.below Axis.left v x)).
  { intros x. simpl. unfold Axis.Qlt_bool. rewrite !negb_involutive.
    rewrite Qeq_bool_le. apply andb_comm. }
  pose proof (get_loc_sorted (fun x y => (y <= x)%Q) v
                (fun x => negb (Axis.below Axis.right v x))
                (fun x => negb (Axis.below Axis.left v x)) a
                (decreasing_sorted a Hd)
                (not_below_leading Axis.right v)
                (not_below_leading Axis.left v) Heq)
    as Hloc.
  destruct (Axis.get_loc a v) as [|i j|].
  - now apply searchsorted_monotonic_descending.
  - destruct Hloc as [-> ->]. now destruct s.
  - contradiction.
Qed.

(** On an ascending axis [slice(lo, hi)] keeps the labels of [lo, hi]. *)
Lemma slice_ascending (a : list Q) (lo hi : Q) :
  ascending a = true ->
  exists i j, Axis.slice_locs a lo hi = Some (i, j)
              /\ Axis.getslice a i j = filter (between lo hi) a.
Proof.
  intros H. unfold Axis.slice_locs.
  rewrite !get_slice_bound_ascending by exact H.
  eexists _, _. split; [reflexivity|].
  rewrite (getslice_filter Qle) by
    (try apply below_leading; now apply increasing_sorted).
  apply filter_ext. intros x. unfold between. simpl.
  unfold Axis.Qlt_bool. now rewrite negb_involutive.
Qed.

(** On a descending axis [slice(hi, lo)] keeps the labels of [lo, hi]. *)
Lemma slice_descending (a : list Q) (lo hi : Q) :
  descending a = true ->
  exists i j, Axis.slice_locs a hi lo = Some (i, j)
              /\ Axis.getslice a i j = filter (between lo hi) a.
Proof.
  intros H. unfold Axis.slice_locs.
  rewrite !get_slice_bound_descending by exact H.
  eexists _, _. split; [reflexivity|].
  rewrite (getslice_filter (fun x y => (y <= x)%Q)) by
    (try apply not_below_leading;
     apply decreasing_sorted; unfold descending in H;
     now apply andb_true_iff in H).
  apply filter_ext. intros x. unfold between. simpl.
  unfold Axis.Qlt_bool. rewrite !negb_involutive. apply andb_comm.
Qed.

(** ** The window of a region *)

Lemma lookup_map {A B} (f : A -> B) (k : string) (l : list (string * A)) :
  lookup k (map (fun kv => (fst kv, f (snd kv))) l)
  = option_map f (lookup k l).
Proof.
  induction l as [|[k' v] l IH]; [reflexivity|].
  simpl. destruct (String.eqb k k'); [reflexivity|exact IH].
Qed.

Lemma nth_getslice {A} (l : list A) (i j k : nat) (d : A) :
  k < length (Axis.getslice l i j) ->
  nth k (Axis.getslice l i j) d = nth (i + k) l d.
Proof.
  unfold Axis.getslice. rewrite length_skipn, length_firstn. intros H.
  rewrite nth_skipn, nth_firstn.
  destruct (i + k <? j) eqn:E; [reflexivity|].
  apply Nat.ltb_ge in E. lia.
Qed.

(** The window in terms of the positions at which the two axes are cut. *)
Lemma sel_cut (ds : Dataset) (x0 x1 y0 y1 : Q) (i0 i1 j0 j1 : nat) :
  Axis.slice_locs (longitude ds) x0 x1 = Some (j0, j1) ->
  Axis.slice_locs (latitude ds) y0 y1 = Some (i0, i1) ->
  exists w,
    sel ds x0 x1 y0 y1 = Ok w
    /\ time w = time ds /\ step w = step ds
    /\ latitude w = Axis.getslice (latitude ds) i0 i1
    /\ longitude w = Axis.getslice (longitude ds) j0 j1
    /\ forall v, lookup v (data_vars w)
                 = option_map (fun (a : DataArray) t s i j =>
                                 a t s (i0 + i) (j0 + j))
                              (lookup v (data_vars ds)).
Proof.
  intros Hx Hy. unfold sel. rewrite Hx, Hy.
  eexists. split; [reflexivity|]. simpl.
  repeat split. intros v.
  apply (lookup_map (fun (a : DataArray) t s i j => a t s (i0 + i) (j0 + j))).
Qed.

(** C8, as the program has it.  On a grid whose longitudes ascend and
    whose latitudes descend, the window of a region is the sub-grid of the
    longitudes in [xmin, xmax] and of the latitudes in [ymin, ymax]: the
    time and step axes are kept, both cuts are contiguous, and every
    variable is read at the cell of the grid the window cell comes from. *)
Theorem bounding_box_selection (ds : Dataset) (row : Row) (xmin ymin xmax ymax : Q) :
  total_bounds (geometry row) = (xmin, ymin, xmax, ymax) ->
  ascending (longitude ds) = true ->
  descending (latitude ds) = true ->
  exists w i0 j0,
    this_dataset ds row = Ok w
    /\ time w = time ds /\ step w = step ds
    /\ longitude w = filter (between xmin xmax) (longitude ds)
    /\ latitude w = filter (between ymin ymax) (latitude ds)
    /\ (forall i, i < length (latitude w) ->
          nth i (latitude w) 0%Q = nth (i0 + i) (latitude ds) 0%Q)
    /\ (forall j, j < length (longitude w) ->
          nth j (longitude w) 0%Q = nth (j0 + j) (longitude ds) 0%Q)
    /\ (forall v a, lookup v (data_vars ds) = Some a ->
          lookup v (data_vars w)
          = Some (fun t s i j => a t s (i0 + i) (j0 + j))).
Proof.
  intros Hb Hlon Hlat. unfold this_dataset. rewrite Hb.
  destruct (slice_ascending (longitude ds) xmin xmax Hlon)
    as (j0 & j1 & Hj & Hjf).
  destruct (slice_descending (latitude ds) ymin ymax Hlat)
    as (i0 & i1 & Hi & Hif).
  destruct (sel_cut ds xmin xmax ymax ymin i0 i1 j0 j1 Hj Hi)
    as (w & Hw & Ht & Hs & Hla & Hlo & Hv).
  exists w, i0, j0. repeat split; try assumption.
  - now rewrite Hlo.
  - now rewrite Hla.
  - intros i Hlt. rewrite Hla in *. now apply nth_getslice.
  - intros j Hlt. rewrite Hlo in *. now apply nth_getslice.
  - intros v a Ha. now rewrite Hv, Ha.
Qed.

Lemma bounding_box_selection_witness :
  exists w i0 j0,
    this_dataset Sample.era5 Sample.corner = Ok w
    /\ time w = time Sample.era5 /\ step w = step Sample.era5
    /\ longitude w = filter (between 9 11) (longitude Sample.era5)
    /\ latitude w = filter (between 41 43) (latitude Sample.era5)
    /\ (forall i, i < length (latitude w) ->
          nth i (latitude w) 0%Q = nth (i0 + i) (latitude Sample.era5) 0%Q)
    /\ (forall j, j < length (longitude w) ->
          nth j (longitude w) 0%Q = nth (j0 + j) (longitude Sample.era5) 0%Q)
    /\ (forall v a, lookup v (data_vars Sample.era5) = Some a ->
          lookup v (data_vars w)
          = Some (fun t s i j => a t s (i0 + i) (j0 + j))).
Proof.
  apply (bounding_box_selection Sample.era5 Sample.corner 9 41 11 43);
    reflexivity.
Defined.

(** C8 as stated fails on a grid whose latitudes ascend: the box of the
    region, from latitude 40 to latitude 42, holds all three latitudes of
    the grid, and the window has none of them. *)
Lemma bounding_box_selection_ascending_latitude :
  total_bounds (geometry Sample.whole) = (10, 40, 12, 42)%Q
  /\ ascending (latitude Sample.south_up) = true
  /\ filter (between 40 42) (latitude Sample.south_up) = [40; 41; 42]%Q
  /\ exists w, this_dataset Sample.south_up Sample.whole = Ok w
               /\ latitude w = []
               /\ latitude w
                  <> filter (between 40 42) (latitude Sample.south_up).
Proof.
  split; [reflexivity|]. split; [reflexivity|]. split; [reflexivity|].
  eexists. split; [reflexivity|]. split; [reflexivity|]. discriminate.
Qed.

(** ** A region away from the grid *)

Lemma slice_monotonic (a : list Q) (start stop : Q) :
  monotonic a = true ->
  exists i j, Axis.slice_locs a start stop = Some (i, j)
              /\ (Axis.getslice a i j = filter (between start stop) a
                  \/ Axis.getslice a i j = filter (between stop start) a).
Proof.
  unfold monotonic. intros H. apply orb_true_iff in H. destruct H as [H|H].
  - destruct (slice_ascending a start stop H) as (i & j & Hs & Hf).
    exists i, j. auto.
  - destruct (slice_descending a stop start H) as (i & j & Hs & Hf).
    exists i, j. auto.
Qed.

Lemma misses_filter (lo hi : Q) (a : list Q) :
  (lo <= hi)%Q -> misses lo hi a = true ->
  filter (between lo hi) a = [] /\ filter (between hi lo) a = [].
Proof.
  intros Hle H. unfold misses in H. apply orb_true_iff in H.
  split; (erewrite filter_ext_in; [apply filter_false|]);
    intros x Hx; simpl;
    destruct (between _ _ x) eqn:E; try reflexivity;
    apply between_iff in E; destruct E as [E1 E2]; exfalso;
    (destruct H as [H|H];
     rewrite forallb_forall in H; specialize (H x Hx);
     apply Qlt_bool_iff in H; lra).
Qed.

Lemma misses_slice (lo hi : Q) (a : list Q) (start stop : Q) :
  monotonic a = true -> (lo <= hi)%Q -> misses lo hi a = true ->
  (start = lo /\ stop = hi) \/ (start = hi /\ stop = lo) ->
  exists i j, Axis.slice_locs a start stop = Some (i, j)
              /\ Axis.getslice a i j = [].
Proof.
  intros Hm Hle Hmiss Hends.
  destruct (slice_monotonic a start stop Hm) as (i & j & Hs & Hf).
  destruct (misses_filter lo hi a Hle Hmiss) as [F1 F2].
  exists i, j. split; [exact Hs|].
  destruct Hends as [[-> ->]|[-> ->]], Hf as [Hf|Hf]; congruence.
Qed.

Lemma has_var_lookup (ds : Dataset) (varname : string) :
  has_var ds varname = true -> exists a, lookup varname (data_vars ds) = Some a.
Proof.
  unfold has_var. destruct (lookup varname (data_vars ds)) as [a|];
    [now exists a|discriminate].
Qed.

(** The window of a region on a grid with monotonic axes: the time and
    step axes are those of the grid and the variables are the same. *)
Lemma this_dataset_monotonic (ds : Dataset) (row : Row) :
  monotonic (longitude ds) = true -> monotonic (latitude ds) = true ->
  exists w i0 i1 j0 j1 xmin ymin xmax ymax,
    total_bounds (geometry row) = (xmin, ymin, xmax, ymax)
    /\ Axis.slice_locs (longitude ds) xmin xmax = Some (j0, j1)
    /\ Axis.slice_locs (latitude ds) ymax ymin = Some (i0, i1)
    /\ this_dataset ds row = Ok w
    /\ time w = time ds /\ step w = step ds
    /\ latitude w = Axis.getslice (latitude ds) i0 i1
    /\ longitude w = Axis.getslice (longitude ds) j0 j1
    /\ forall v, lookup v (data_vars w)
                 = option_map (fun (a : DataArray) t s i j =>
                                 a t s (i0 + i) (j0 + j))
                              (lookup v (data_vars ds)).
Proof.
  intros Hlon Hlat. unfold this_dataset.
  destruct (total_bounds (geometry row)) as [[[xmin ymin] xmax] ymax].
  destruct (slice_monotonic (longitude ds) xmin xmax Hlon)
    as (j0 & j1 & Hj & _).
  destruct (slice_monotonic (latitude ds) ymax ymin Hlat)
    as (i0 & i1 & Hi & _).
  destruct (sel_cut ds xmin xmax ymax ymin i0 i1 j0 j1 Hj Hi)
    as (w & Hw & Ht & Hs & Hla & Hlo & Hv).
  exists w, i0, i1, j0, j1, xmin, ymin, xmax, ymax. repeat split; assumption.
Qed.

(** C2.  On a grid with monotonic axes, a region whose bounding box does
    not meet the extent of the grid yields no series: the table is left as
    it is, and the statistics get one more row, whose cell count is 0. *)
Theorem no_overlap_stats_only
        (ds : Dataset) (varname : string) (row : Row)
        (out_ts : Frame.DataFrame) (stats : list StatsRow) (index : nat) :
  monotonic (longitude ds) = true ->
  monotonic (latitude ds) = true ->
  has_var ds varname = true ->
  bbox_ok (geometry row) = true ->
  bbox_misses_grid (geometry row) ds = true ->
  aggregate ds varname row = Ok None
  /\ exists r,
       loop_body ds varname (out_ts, stats) index row
       = Ok (out_ts, stats ++ [r])
       /\ stat_name r = shapeName row
       /\ stat_n r = 0.
Proof.
  intros Hlon Hlat Hvar Hok Hmiss.
  destruct (this_dataset_monotonic ds row Hlon Hlat)
    as (w & i0 & i1 & j0 & j1 & xmin & ymin & xmax & ymax
        & Hb & Hj & Hi & Hw & Ht & Hs & Hla & Hlo & Hv).
  unfold bbox_ok, bbox_misses_grid in *. rewrite Hb in *.
  apply andb_true_iff in Hok. destruct Hok as [Hx Hy].
  apply Qle_bool_iff in Hx, Hy.
  assert (Hn : length (latitude w) * length (longitude w) = 0).
  { apply orb_true_iff in Hmiss. destruct Hmiss as [Hm|Hm].
    - destruct (misses_slice xmin xmax (longitude ds) xmin xmax Hlon Hx Hm)
        as (j & j' & Hj' & He); [now left|].
      rewrite Hj in Hj'. injection Hj' as <- <-.
      rewrite Hlo, He. simpl. lia.
    - destruct (misses_slice ymin ymax (latitude ds) ymax ymin Hlat Hy Hm)
        as (i & i' & Hi' & He); [now right|].
      rewrite Hi in Hi'. injection Hi' as <- <-.
      rewrite Hla, He. reflexivity. }
  assert (Hsize : (0 <? size w) = false).
  { apply Nat.ltb_ge. unfold size. rewrite <- Nat.mul_assoc, Hn. lia. }
  destruct (has_var_lookup ds varname Hvar) as [a Ha].
  assert (Hget : getitem w varname
                 = Ok (fun t s i j => a t s (i0 + i) (j0 + j))).
  { unfold getitem. now rewrite Hv, Ha. }
  split.
  - unfold aggregate. rewrite Hw. simpl. rewrite Hget. simpl.
    now rewrite Hsize.
  - exists (stats_row index row w).
    unfold loop_body. rewrite Hw. simpl. rewrite Hget. simpl.
    rewrite Hsize. repeat split. exact Hn.
Qed.

Lemma no_overlap_stats_only_witness :
  aggregate Sample.era5 "t2m" Sample.far = Ok None
  /\ exists r,
       loop_body Sample.era5 "t2m" (Frame.empty, []) 0 Sample.far
       = Ok (Frame.empty, [] ++ [r])
       /\ stat_name r = shapeName Sample.far
       /\ stat_n r = 0.
Proof.
  apply (no_overlap_stats_only Sample.era5 "t2m" Sample.far Frame.empty [] 0);
    reflexivity.
Defined.

(** ** A region over the whole grid *)

Lemma filter_none {A} (p : A -> bool) (l : list A) :
  (forall x, In x l -> p x = false) -> filter p l = [].
Proof.
  intros H. erewrite filter_ext_in; [apply filter_false|]. exact H.
Qed.

Lemma filter_all {A} (p : A -> bool) (l : list A) :
  (forall x, In x l -> p x = true) -> filter p l = l.
Proof.
  intros H. erewrite filter_ext_in; [apply filter_true|]. exact H.
Qed.

Lemma slice_all_ascending (a : list Q) (lo hi : Q) :
  ascending a = true -> forallb (between lo hi) a = true ->
  Axis.slice_locs a lo hi = Some (0, length a).
Proof.
  intros Ha Hall. unfold Axis.slice_locs.
  rewrite !get_slice_bound_ascending by exact Ha.
  rewrite forallb_forall in Hall.
  rewrite filter_none.
  - rewrite filter_all; [reflexivity|].
    intros x Hx. apply Hall, between_iff in Hx. simpl.
    now apply Qle_bool_iff.
  - intros x Hx. apply Hall, between_iff in Hx. simpl.
    unfold Axis.Qlt_bool. apply negb_false_iff. now apply Qle_bool_iff.
Qed.

Lemma slice_all_descending (a : list Q) (lo hi : Q) :
  descending a = true -> forallb (between lo hi) a = true ->
  Axis.slice_locs a hi lo = Some (0, length a).
Proof.
  intros Ha Hall. unfold Axis.slice_locs.
  rewrite !get_slice_bound_descending by exact Ha.
  rewrite forallb_forall in Hall.
  rewrite filter_none.
  - rewrite filter_all; [reflexivity|].
    intros x Hx. apply Hall, between_iff in Hx. simpl.
    unfold Axis.Qlt_bool. rewrite negb_involutive. now apply Qle_bool_iff.
  - intros x Hx. apply Hall, between_iff in Hx. simpl.
    apply negb_false_iff. now apply Qle_bool_iff.
Qed.

Lemma getslice_all {A} (l : list A) : Axis.getslice l 0 (length l) = l.
Proof. unfold Axis.getslice. simpl. apply firstn_all. Qed.

Lemma flat_map_ext_in {A B} (f g : A -> list B) (l : list A) :
  (forall x, In x l -> f x = g x) -> flat_map f l = flat_map g l.
Proof.
  induction l as [|x l IH]; intros H; [reflexivity|].
  simpl. rewrite (H x) by now left.
  f_equal. apply IH. intros y Hy. apply H. now right.
Qed.

Lemma cells_ext (nlat nlon : nat) (a b : DataArray) (t s : nat) :
  (forall i j, i < nlat -> j < nlon -> a t s i j = b t s i j) ->
  cells nlat nlon a t s = cells nlat nlon b t s.
Proof.
  intros H. unfold cells. apply flat_map_ext_in. intros i Hi.
  apply map_ext_in. intros j Hj.
  apply in_seq in Hi, Hj. apply H; lia.
Qed.

Lemma stack_mean_ext (nlat nlon ntime nstep : nat) (a b : DataArray) :
  (forall t s i j, i < nlat -> j < nlon -> a t s i j = b t s i j) ->
  stack_mean nlat nlon ntime nstep a = stack_mean nlat nlon ntime nstep b.
Proof.
  intros H. unfold stack_mean. apply flat_map_ext_in. intros t _.
  apply map_ext_in. intros s _. f_equal. apply cells_ext. intros. now apply H.
Qed.

(** Points of a stacked series, time outermost. *)
Lemma length_stacked {A B} (f : A -> list B) (l : list A) (m : nat) :
  (forall x, In x l -> length (f x) = m) ->
  length (flat_map f l) = length l * m.
Proof.
  induction l as [|x l IH]; intros H; [reflexivity|].
  simpl. rewrite length_app, (H x) by now left.
  rewrite IH; [reflexivity|]. intros y Hy. apply H. now right.
Qed.

Lemma nth_stacked {A B} (f : A -> list B) (l : list A) (m t s : nat)
      (dx : A) (d : B) :
  (forall x, In x l -> length (f x) = m) ->
  t < length l -> s < m ->
  nth (t * m + s) (flat_map f l) d = nth s (f (nth t l dx)) d.
Proof.
  revert t. induction l as [|x l IH]; intros t H Ht Hs; [simpl in Ht; lia|].
  simpl flat_map. destruct t as [|t].
  - simpl. apply app_nth1. rewrite (H x) by now left. exact Hs.
  - assert (Hx : length (f x) = m) by (apply H; now left).
    rewrite app_nth2 by (rewrite Hx; simpl; lia).
    rewrite Hx.
    replace (S t * m + s - m) with (t * m + s) by (simpl; lia).
    apply IH; [|simpl in Ht; lia|exact Hs].
    intros y Hy. apply H. now right.
Qed.

Lemma covers_grid_cells (g : Geometry) (ds : Dataset) (i j : nat) :
  covers_grid g ds = true ->
  i < length (latitude ds) -> j < length (longitude ds) ->
  mask g (longitude ds) (latitude ds) i j = true.
Proof.
  unfold covers_grid.
  destruct (total_bounds g) as [[[xmin ymin] xmax] ymax].
  intros H Hi Hj. apply andb_true_iff in H. destruct H as [_ H].
  rewrite forallb_forall in H.
  assert (Hi' : In i (seq 0 (length (latitude ds))))
    by (apply in_seq; lia).
  specialize (H i Hi'). rewrite forallb_forall in H.
  apply H. apply in_seq. lia.
Qed.

Lemma nth_map_lt {A B} (f : A -> B) (l : list A) (k : nat) (d : B) (dx : A) :
  k < length l -> nth k (map f l) d = f (nth k l dx).
Proof.
  intros H. rewrite (nth_indep _ d (f dx)) by now rewrite length_map.
  apply map_nth.
Qed.

(** The window of a region that covers the grid is the grid itself. *)
Lemma this_dataset_whole (ds : Dataset) (row : Row) :
  ascending (longitude ds) = true ->
  descending (latitude ds) = true ->
  covers_grid (geometry row) ds = true ->
  exists w,
    this_dataset ds row = Ok w
    /\ time w = time ds /\ step w = step ds
    /\ latitude w = latitude ds /\ longitude w = longitude ds
    /\ forall v, lookup v (data_vars w)
                 = option_map (fun (a : DataArray) t s i j => a t s i j)
                              (lookup v (data_vars ds)).
Proof.
  intros Hlon Hlat Hc. unfold this_dataset.
  pose proof Hc as Hc'. unfold covers_grid in Hc'.
  destruct (total_bounds (geometry row)) as [[[xmin ymin] xmax] ymax].
  apply andb_true_iff in Hc'. destruct Hc' as [Hc' _].
  apply andb_true_iff in Hc'. destruct Hc' as [Hx Hy].
  destruct (sel_cut ds xmin xmax ymax ymin
                    0 (length (latitude ds)) 0 (length (longitude ds)))
    as (w & Hw & Ht & Hs & Hla & Hlo & Hv).
  - now apply slice_all_ascending.
  - now apply slice_all_descending.
  - exists w. rewrite getslice_all in Hla, Hlo. repeat split; assumption.
Qed.

(** C1, as the program has it.  On a grid that is not empty, whose
    longitudes ascend and whose latitudes descend, a region that covers the
    whole grid yields a series with one point per (time, step) pair, time
    outermost and in the order of the two axes: the point of the pair
    [(t, s)] carries the time plus the step, and the mean of the variable
    over all the cells of the grid at that pair. *)
Theorem whole_grid_series
        (ds : Dataset) (varname : string) (a : DataArray) (row : Row) :
  ascending (longitude ds) = true ->
  descending (latitude ds) = true ->
  lookup varname (data_vars ds) = Some a ->
  covers_grid (geometry row) ds = true ->
  0 < size ds ->
  exists ts vs,
    aggregate ds varname row = Ok (Some (ts, vs))
    /\ length ts = length (time ds) * length (step ds)
    /\ length vs = length (time ds) * length (step ds)
    /\ forall t s, t < length (time ds) -> s < length (step ds) ->
         nth (t * length (step ds) + s) ts 0%Z
         = (nth t (time ds) 0 + nth s (step ds) 0)%Z
         /\ nth (t * length (step ds) + s) vs nan
            = nanmean (cells (length (latitude ds)) (length (longitude ds))
                             a t s).
Proof.
  intros Hlon Hlat Ha Hc Hsize.
  destruct (this_dataset_whole ds row Hlon Hlat Hc)
    as (w & Hw & Ht & Hs & Hla & Hlo & Hv).
  exists (grid_timesteps ds), (grid_means ds a).
  split; [|split; [|split]].
  - unfold aggregate. rewrite Hw. simpl.
    unfold getitem. rewrite Hv, Ha. simpl.
    assert (Hsz : size w = size ds)
      by (unfold size; now rewrite Ht, Hs, Hla, Hlo).
    rewrite Hsz. apply Nat.ltb_lt in Hsize. rewrite Hsize.
    unfold stacked_getitem, stacked_data. cbn [stacked_vars timestep].
    rewrite (lookup_map (fun b : DataArray =>
               stack_mean (length (latitude (clip w (geometry row))))
                          (length (longitude (clip w (geometry row))))
                          (length (time (clip w (geometry row))))
                          (length (step (clip w (geometry row)))) b)).
    cbn [clip data_vars latitude longitude time step].
    rewrite (lookup_map (fun (b : DataArray) t s i j =>
               if mask (geometry row) (longitude w) (latitude w) i j
               then b t s i j else nan)).
    rewrite Hv, Ha. simpl. rewrite Ht, Hs, Hla, Hlo.
    do 3 f_equal. apply stack_mean_ext. intros t s i j Hi Hj.
    now rewrite (covers_grid_cells _ ds i j Hc Hi Hj).
  - unfold grid_timesteps. apply length_stacked. intros. apply length_map.
  - unfold grid_means. rewrite (length_stacked _ _ (length (step ds))).
    + now rewrite length_seq.
    + intros. now rewrite length_map, length_seq.
  - intros t s Hlt Hls. split.
    + unfold grid_timesteps.
      rewrite (nth_stacked _ _ (length (step ds)) t s 0%Z);
        [|intros; apply length_map|exact Hlt|exact Hls].
      now rewrite (nth_map_lt _ _ _ _ 0%Z).
    + unfold grid_means.
      rewrite (nth_stacked _ _ (length (step ds)) t s 0);
        [|intros; now rewrite length_map, length_seq
         |now rewrite length_seq|exact Hls].
      rewrite (nth_map_lt _ _ _ _ 0) by now rewrite length_seq.
      now rewrite !seq_nth.
Qed.

Lemma whole_grid_series_witness :
  exists ts vs,
    aggregate Sample.era5 "t2m" Sample.whole = Ok (Some (ts, vs))
    /\ length ts = 2 * 2
    /\ length vs = 2 * 2
    /\ forall t s, t < 2 -> s < 2 ->
         nth (t * 2 + s) ts 0%Z
         = (nth t (time Sample.era5) 0 + nth s (step Sample.era5) 0)%Z
         /\ nth (t * 2 + s) vs nan
            = nanmean (cells 3 3 Sample.t2m t s).
Proof.
  apply (whole_grid_series Sample.era5 "t2m" Sample.t2m Sample.whole);
    try reflexivity.
  vm_compute. lia.
Defined.

(** C1 as stated fails on a grid whose latitudes ascend: the region
    covers the whole grid, which has nine cells and four (time, step)
    pairs, and yields no series at all. *)
Lemma whole_grid_series_ascending_latitude :
  covers_grid (geometry Sample.whole) Sample.south_up = true
  /\ size Sample.south_up = 4 * 9
  /\ npoints Sample.south_up = 4
  /\ aggregate Sample.south_up "t2m" Sample.whole = Ok None.
Proof. repeat split. Qed.

(** The mean of cells none of which is NaN is their sum over their
    number. *)
Lemma nanmean_numbers (x : Q) (xs : list Q) :
  nanmean (map Some (x :: xs))
  = Some (Qsum (x :: xs) / inject_Z (Z.of_nat (length (x :: xs))))%Q.
Proof.
  unfold nanmean.
  assert (H : forall l, dropna (map Some l) = l)
    by (induction l as [|y l IH]; simpl; congruence).
  now rewrite H.
Qed.

(** ** Columns of the table *)

Lemma lookup_assign_same (k : string) (v : list Frame.cell)
      (cols : list (string * list Frame.cell)) :
  lookup k (Frame.assign k v cols) = Some v.
Proof.
  induction cols as [|[k' v'] cols IH]; simpl.
  - now rewrite String.eqb_refl.
  - destruct (String.eqb k k') eqn:E; simpl.
    + now rewrite String.eqb_refl.
    + now rewrite E.
Qed.

Lemma lookup_assign_other (k k' : string) (v : list Frame.cell)
      (cols : list (string * list Frame.cell)) :
  k <> k' -> lookup k' (Frame.assign k v cols) = lookup k' cols.
Proof.
  intros Hne. induction cols as [|[k0 v0] cols IH]; simpl.
  - destruct (String.eqb k' k) eqn:E; [|reflexivity].
    apply String.eqb_eq in E. congruence.
  - destruct (String.eqb k k0) eqn:E; simpl.
    + apply String.eqb_eq in E. subst k0.
      destruct (String.eqb k' k) eqn:E'; [|reflexivity].
      apply String.eqb_eq in E'. congruence.
    + destruct (String.eqb k' k0); [reflexivity|exact IH].
Qed.

Lemma lookup_assign_some (k k' : string) (v : list Frame.cell)
      (cols : list (string * list Frame.cell)) :
  (exists a, lookup k' cols = Some a) ->
  exists a, lookup k' (Frame.assign k v cols) = Some a.
Proof.
  intros [a Ha]. destruct (string_dec k k') as [->|Hne].
  - exists v. apply lookup_assign_same.
  - exists a. now rewrite lookup_assign_other.
Qed.

Lemma assign_Forall (P : string * list Frame.cell -> Prop)
      (k : string) (v : list Frame.cell)
      (cols : list (string * list Frame.cell)) :
  P (k, v) -> Forall P cols -> Forall P (Frame.assign k v cols).
Proof.
  intros Hv H. induction H as [|[k' v'] cols Hx Hc IH]; simpl.
  - now repeat constructor.
  - destruct (String.eqb k k'); constructor; assumption.
Qed.

Lemma assign_In (k : string) (v : list Frame.cell)
      (cols : list (string * list Frame.cell)) :
  In (k, v) (Frame.assign k v cols).
Proof.
  induction cols as [|[k' v'] cols IH]; simpl; [now left|].
  destruct (String.eqb k k'); [now left|now right].
Qed.

Lemma setitem_empty (k : string) (v : list Frame.cell) :
  0 < length v ->
  Frame.setitem Frame.empty k v
  = Ok {| Frame.index := length v; Frame.columns := [(k, v)] |}.
Proof.
  intros H. unfold Frame.setitem. simpl.
  apply Nat.ltb_lt in H. rewrite H. simpl. now rewrite Nat.eqb_refl.
Qed.

Lemma setitem_established (df : Frame.DataFrame) (k : string)
      (v : list Frame.cell) :
  0 < Frame.index df -> length v = Frame.index df ->
  Frame.setitem df k v
  = Ok {| Frame.index := Frame.index df;
          Frame.columns := Frame.assign k v (Frame.columns df) |}.
Proof.
  intros Hpos Hlen. unfold Frame.setitem.
  destruct (Frame.index df =? 0) eqn:E; [apply Nat.eqb_eq in E; lia|].
  simpl. now rewrite Hlen, Nat.eqb_refl.
Qed.

(** A column of another length is refused once the axis is there. *)
Lemma setitem_mismatch (df : Frame.DataFrame) (k : string)
      (v : list Frame.cell) :
  0 < Frame.index df -> length v <> Frame.index df ->
  Frame.setitem df k v = Raise ValueError_length.
Proof.
  intros Hpos Hlen. unfold Frame.setitem.
  destruct (Frame.index df =? 0) eqn:E; [apply Nat.eqb_eq in E; lia|].
  simpl. apply Nat.eqb_neq in Hlen. now rewrite Hlen.
Qed.

(** ** Series of a window *)

Lemma sel_inv (ds : Dataset) (x0 x1 y0 y1 : Q) (w : Dataset) :
  sel ds x0 x1 y0 y1 = Ok w ->
  time w = time ds /\ step w = step ds
  /\ forall v, lookup v (data_vars w) = None <-> lookup v (data_vars ds) = None.
Proof.
  intros H.
  destruct (Axis.slice_locs (longitude ds) x0 x1) as [[j0 j1]|] eqn:Hj;
    [|unfold sel in H; rewrite Hj in H; discriminate].
  destruct (Axis.slice_locs (latitude ds) y0 y1) as [[i0 i1]|] eqn:Hi;
    [|unfold sel in H; rewrite Hj, Hi in H; discriminate].
  destruct (sel_cut ds x0 x1 y0 y1 i0 i1 j0 j1 Hj Hi)
    as (w' & Hw & Ht & Hs & _ & _ & Hv).
  rewrite H in Hw. injection Hw as <-.
  split; [exact Ht|]. split; [exact Hs|].
  intros v. rewrite Hv.
  destruct (lookup v (data_vars ds)); simpl; split; intros E;
    try discriminate E; reflexivity.
Qed.

Lemma this_dataset_inv (ds : Dataset) (row : Row) (w : Dataset) :
  this_dataset ds row = Ok w ->
  time w = time ds /\ step w = step ds
  /\ forall v, lookup v (data_vars w) = None <-> lookup v (data_vars ds) = None.
Proof.
  unfold this_dataset.
  destruct (total_bounds (geometry row)) as [[[xmin ymin] xmax] ymax].
  apply sel_inv.
Qed.

Lemma length_timestep (c : Dataset) :
  length (timestep (stacked_data c)) = npoints c.
Proof.
  unfold stacked_data, npoints. simpl.
  apply length_stacked. intros. apply length_map.
Qed.

Lemma length_stack_mean (nlat nlon ntime nstep : nat) (a : DataArray) :
  length (stack_mean nlat nlon ntime nstep a) = ntime * nstep.
Proof.
  unfold stack_mean. rewrite (length_stacked _ _ nstep).
  - now rewrite length_seq.
  - intros. now rewrite length_map, length_seq.
Qed.

Lemma stacked_getitem_length (c : Dataset) (varname : string) :
  lookup varname (data_vars c) <> None ->
  exists values, stacked_getitem (stacked_data c) varname = Ok values
                 /\ length values = npoints c.
Proof.
  intros H. unfold stacked_getitem, stacked_data. cbn [stacked_vars].
  rewrite (lookup_map (fun b : DataArray =>
             stack_mean (length (latitude c)) (length (longitude c))
                        (length (time c)) (length (step c)) b)).
  destruct (lookup varname (data_vars c)) as [b|]; [|congruence].
  simpl. eexists. split; [reflexivity|]. apply length_stack_mean.
Qed.

Lemma clip_lookup (w : Dataset) (g : Geometry) (v : string) :
  lookup v (data_vars (clip w g)) = None <-> lookup v (data_vars w) = None.
Proof.
  unfold clip. cbn [data_vars].
  rewrite (lookup_map (fun (b : DataArray) t s i j =>
             if mask g (longitude w) (latitude w) i j
             then b t s i j else nan)).
  destruct (lookup v (data_vars w)); simpl; split; intros E;
    try discriminate E; reflexivity.
Qed.

(** ** One iteration *)

Lemma size_npoints (ds w : Dataset) :
  time w = time ds -> step w = step ds -> 0 < size w -> 0 < npoints ds.
Proof.
  unfold size, npoints. intros -> ->.
  destruct (length (time ds) * length (step ds)); simpl; lia.
Qed.

(** What an iteration does to a table the loop can have reached: nothing
    when the window has no cell; otherwise the axis is set if the table is
    still empty, and the column of the region is set. *)
Lemma loop_body_step (ds : Dataset) (varname : string)
      (out : Frame.DataFrame) (stats : list StatsRow) (index : nat)
      (row : Row) (w : Dataset) :
  this_dataset ds row = Ok w ->
  has_var ds varname = true ->
  table_inv ds out ->
  exists out',
    loop_body ds varname (out, stats) index row
    = Ok (out', stats ++ [stats_row index row w])
    /\ table_inv ds out'
    /\ ((0 <? size w) = false -> out' = out)
    /\ ((0 <? size w) = true ->
        0 < npoints ds
        /\ exists values,
             length values = npoints ds
             /\ out' = {| Frame.index := npoints ds;
                          Frame.columns :=
                            Frame.assign (shapeName row) values
                              (if Frame.len out =? 0
                               then [("timestep",
                                      map Frame.Time (grid_timesteps ds))]
                               else Frame.columns out) |}).
Proof.
  intros Hw Hvar Hinv.
  destruct (this_dataset_inv ds row w Hw) as (Ht & Hs & Hv).
  destruct (has_var_lookup ds varname Hvar) as [a Ha].
  assert (Hwv : lookup varname (data_vars w) <> None)
    by (rewrite Hv; congruence).
  unfold loop_body. rewrite Hw. cbn [rbind].
  unfold getitem.
  destruct (lookup varname (data_vars w)) as [b|] eqn:Hb; [|congruence].
  cbn [rbind]. destruct (0 <? size w) eqn:Hsize.
  - pose proof Hsize as Hpos. apply Nat.ltb_lt in Hpos.
    apply (size_npoints ds w Ht Hs) in Hpos.
    cbv zeta. set (c := clip w (geometry row)).
    assert (Hn : npoints c = npoints ds)
      by (unfold npoints, c; simpl; now rewrite Ht, Hs).
    assert (Hts : timestep (stacked_data c) = grid_timesteps ds)
      by (unfold stacked_data, grid_timesteps, c; simpl; now rewrite Ht, Hs).
    destruct (stacked_getitem_length c varname) as (vals & Hvals & Hlen).
    { unfold c. rewrite clip_lookup, Hb. discriminate. }
    rewrite Hvals, Hts. rewrite Hn in Hlen.
    assert (Hlen' : length (map Frame.of_float vals) = npoints ds)
      by now rewrite length_map.
    assert (Htl : length (map Frame.Time (grid_timesteps ds)) = npoints ds)
      by (rewrite length_map, <- Hts, length_timestep; exact Hn).
    destruct Hinv as [->|(_ & Hidx & Hal & Hax)].
    + change (Frame.len Frame.empty =? 0) with true. cbv iota.
      rewrite setitem_empty by lia. cbn [rbind].
      rewrite setitem_established by (simpl; lia). cbn [rbind Frame.index Frame.columns].
      rewrite Htl. eexists. split; [reflexivity|].
      split; [|split; [discriminate|]].
      * right. cbn [Frame.index Frame.columns].
        repeat split; try assumption.
        -- unfold aligned. cbn [Frame.index Frame.columns].
           apply assign_Forall; [exact Hlen'|].
           repeat constructor. exact Htl.
        -- apply lookup_assign_some. now eexists.
      * intros _. split; [exact Hpos|].
        exists (map Frame.of_float vals). now split.
    + unfold Frame.len. rewrite Hidx.
      destruct (npoints ds =? 0) eqn:E; [apply Nat.eqb_eq in E; lia|].
      cbn [rbind].
      rewrite setitem_established by lia. cbn [rbind]. rewrite Hidx.
      eexists. split; [reflexivity|].
      split; [|split; [discriminate|]].
      * right. cbn [Frame.index Frame.columns].
        repeat split; try assumption.
        -- unfold aligned in *. cbn [Frame.index Frame.columns].
           rewrite Hidx in Hal.
           apply assign_Forall; assumption.
        -- now apply lookup_assign_some.
      * intros _. split; [exact Hpos|].
        exists (map Frame.of_float vals). now split.
  - exists out. split; [reflexivity|]. split; [exact Hinv|].
    split; [reflexivity|discriminate].
Qed.

(** The series of [aggregate] is the one the body of the loop puts into
    the table. *)
Lemma loop_body_aggregate (ds : Dataset) (varname : string)
      (out : Frame.DataFrame) (stats : list StatsRow) (index : nat)
      (row : Row) (w : Dataset) :
  this_dataset ds row = Ok w ->
  loop_body ds varname (out, stats) index row
  = rbind (aggregate ds varname row) (fun series =>
      let stats := stats ++ [stats_row index row w] in
      match series with
      | None => Ok (out, stats)
      | Some (ts, vs) =>
          rbind (if Frame.len out =? 0
                 then Frame.setitem out "timestep" (map Frame.Time ts)
                 else Ok out) (fun out =>
          rbind (Frame.setitem out (shapeName row) (map Frame.of_float vs))
                (fun out => Ok (out, stats)))
      end).
Proof.
  intros Hw. unfold loop_body, aggregate. rewrite Hw. cbn [rbind].
  destruct (getitem w varname) as [a|e]; [|reflexivity]. cbn [rbind].
  destruct (0 <? size w); [|reflexivity]. cbv zeta.
  set (sd := stacked_data (clip w (geometry row))).
  destruct (stacked_getitem sd varname) as [vs|e]; cbn [rbind];
    [reflexivity|].
  destruct (Frame.len out =? 0) eqn:E; [|reflexivity].
  unfold Frame.len in E. apply Nat.eqb_eq in E.
  unfold Frame.setitem. rewrite E. cbn [Nat.eqb andb].
  destruct (0 <? length (map Frame.Time (timestep sd))) eqn:E'.
  - cbn [Frame.index]. now rewrite Nat.eqb_refl.
  - rewrite E. apply Nat.ltb_ge in E'.
    replace (length (map Frame.Time (timestep sd))) with 0 by lia.
    reflexivity.
Qed.

(** ** The loop *)

Section Loop.

Variables (ds : Dataset) (varname : string).
Hypothesis Hlon : monotonic (longitude ds) = true.
Hypothesis Hlat : monotonic (latitude ds) = true.
Hypothesis Hvar : has_var ds varname = true.

Lemma step_total (out : Frame.DataFrame) (stats : list StatsRow)
      (index : nat) (row : Row) :
  table_inv ds out ->
  exists w out',
    this_dataset ds row = Ok w
    /\ has_cells ds row = (0 <? size w)
    /\ loop_body ds varname (out, stats) index row
       = Ok (out', stats ++ [stats_row index row w])
    /\ table_inv ds out'
    /\ (has_cells ds row = false -> out' = out)
    /\ (has_cells ds row = true ->
        0 < npoints ds
        /\ exists values,
             length values = npoints ds
             /\ out' = {| Frame.index := npoints ds;
                          Frame.columns :=
                            Frame.assign (shapeName row) values
                              (if Frame.len out =? 0
                               then [("timestep",
                                      map Frame.Time (grid_timesteps ds))]
                               else Frame.columns out) |}).
Proof.
  intros Hinv.
  destruct (this_dataset_monotonic ds row Hlon Hlat) as (w & Hw).
  destruct Hw as (_ & _ & _ & _ & _ & _ & _ & _ & _ & _ & _ & Hw & _).
  destruct (loop_body_step ds varname out stats index row w Hw Hvar Hinv)
    as (out' & Hbody & Hinv' & Hno & Hyes).
  assert (Hc : has_cells ds row = (0 <? size w))
    by (unfold has_cells; now rewrite Hw).
  exists w, out'. split; [exact Hw|]. split; [exact Hc|].
  split; [exact Hbody|]. split; [exact Hinv'|].
  rewrite Hc. split; assumption.
Qed.

(** The loop runs to its end from any table it can have reached, and
    leaves a table it can have reached. *)
Lemma iterrows_total (rows : list Row) :
  forall (st : LoopState) (index : nat),
    table_inv ds (fst st) ->
    exists st',
      iterrows ds varname st index rows = Ok st'
      /\ table_inv ds (fst st')
      /\ length (snd st') = length (snd st) + length rows
      /\ (existsb (has_cells ds) rows = false -> fst st' = fst st)
      /\ (existsb (has_cells ds) rows = true -> fst st' <> Frame.empty).
Proof.
  induction rows as [|row rows IH]; intros [out stats] index Hinv.
  - exists (out, stats). simpl. repeat split; try assumption; try lia.
  - simpl in Hinv.
    destruct (step_total out stats index row Hinv)
      as (w & out' & Hw & Hc & Hbody & Hinv' & Hno & Hyes).
    destruct (IH (out', stats ++ [stats_row index row w]) (S index) Hinv')
      as (st' & Hrun & Hinv'' & Hlen & Hno' & Hyes').
    exists st'. cbn [iterrows]. rewrite Hbody. cbn [rbind].
    split; [exact Hrun|]. split; [exact Hinv''|].
    split; [rewrite Hlen; simpl; rewrite length_app; simpl; lia|].
    simpl existsb. simpl fst in *. split.
    + intros H. apply orb_false_iff in H. destruct H as [H1 H2].
      rewrite (Hno' H2). now apply Hno.
    + intros H. destruct (existsb (has_cells ds) rows) eqn:E.
      * now apply Hyes'.
      * rewrite (Hno' eq_refl). rewrite orb_false_r in H.
        destruct (Hyes H) as (Hpos & values & _ & ->).
        intros Heq. unfold Frame.empty in Heq.
        injection Heq as Heq _. lia.
Qed.

(** Once the axis is set, no iteration sets it again. *)
Lemma branches_established (rows : list Row) :
  forall (st : LoopState) (index : nat),
    table_inv ds (fst st) -> fst st <> Frame.empty ->
    branches ds varname st index rows
    = map (fun r => if has_cells ds r then ColumnOnly else NoColumn) rows.
Proof.
  induction rows as [|row rows IH]; intros [out stats] index Hinv Hne;
    [reflexivity|].
  simpl in Hinv, Hne.
  destruct (step_total out stats index row Hinv)
    as (w & out' & Hw & Hc & Hbody & Hinv' & Hno & Hyes).
  cbn [branches]. rewrite Hw, Hbody. cbn [map]. f_equal.
  - unfold branch_of. rewrite <- Hc. simpl fst.
    destruct (has_cells ds row); [|reflexivity].
    destruct Hinv as [->|(Hpos & Hidx & _)]; [congruence|].
    unfold Frame.len. rewrite Hidx.
    destruct (npoints ds =? 0) eqn:E; [apply Nat.eqb_eq in E; lia|reflexivity].
  - apply IH; [exact Hinv'|]. simpl.
    destruct (has_cells ds row) eqn:E.
    + destruct (Hyes eq_refl) as (Hpos & values & _ & ->).
      intros Heq. unfold Frame.empty in Heq. injection Heq as Heq _. lia.
    + now rewrite (Hno eq_refl).
Qed.

End Loop.

Lemma lookup_In {A} (k : string) (v : A) (l : list (string * A)) :
  lookup k l = Some v -> In (k, v) l.
Proof.
  induction l as [|[k' v'] l IH]; simpl; [discriminate|].
  destruct (String.eqb k k') eqn:E.
  - apply String.eqb_eq in E. intros [= ->]. left. now subst.
  - intros H. right. now apply IH.
Qed.

(** C4.  On a grid with monotonic axes that holds the variable, the loop
    over any regions runs to its end; when one of the regions at least
    has a window with cells, the table has its [timestep] column, of one
    value per (time, step) pair, and every column of the table is as long
    as that one. *)
Theorem columns_aligned_with_axis
        (ds : Dataset) (varname : string) (rows : list Row) :
  monotonic (longitude ds) = true ->
  monotonic (latitude ds) = true ->
  has_var ds varname = true ->
  existsb (has_cells ds) rows = true ->
  exists out stats axis,
    iterrows ds varname (Frame.empty, []) 0 rows = Ok (out, stats)
    /\ lookup "timestep" (Frame.columns out) = Some axis
    /\ length axis = npoints ds
    /\ forall name col,
         In (name, col) (Frame.columns out) -> length col = length axis.
Proof.
  intros Hlon Hlat Hvar Hsome.
  destruct (iterrows_total ds varname Hlon Hlat Hvar rows (Frame.empty, []) 0)
    as ([out stats] & Hrun & Hinv & _ & _ & Hne); [now left|].
  simpl in Hinv, Hne. specialize (Hne Hsome).
  destruct Hinv as [->|(_ & Hidx & Hal & axis & Hax)]; [congruence|].
  exists out, stats, axis.
  unfold aligned in Hal. rewrite Forall_forall in Hal.
  assert (Hlen : length axis = npoints ds)
    by (rewrite <- Hidx; apply (Hal _ (lookup_In _ _ _ Hax))).
  repeat split; try assumption.
  intros name col Hin. rewrite Hlen, <- Hidx. apply (Hal _ Hin).
Qed.

Lemma columns_aligned_with_axis_witness :
  exists out stats axis,
    iterrows Sample.era5 "t2m" (Frame.empty, []) 0
             [Sample.far; Sample.corner; Sample.whole]
    = Ok (out, stats)
    /\ lookup "timestep" (Frame.columns out) = Some axis
    /\ length axis = npoints Sample.era5
    /\ forall name col,
         In (name, col) (Frame.columns out) -> length col = length axis.
Proof.
  apply (columns_aligned_with_axis Sample.era5 "t2m"
           [Sample.far; Sample.corner; Sample.whole]); reflexivity.
Defined.

Lemma branches_prefix (ds : Dataset) (varname : string)
      (row : Row) (post : list Row) :
  monotonic (longitude ds) = true ->
  monotonic (latitude ds) = true ->
  has_var ds varname = true ->
  has_cells ds row = true ->
  forall (pre : list Row) (stats : list StatsRow) (index : nat),
    existsb (has_cells ds) pre = false ->
    branches ds varname (Frame.empty, stats) index (pre ++ row :: post)
    = map (fun _ => NoColumn) pre
      ++ AxisAndColumn
      :: map (fun r => if has_cells ds r then ColumnOnly else NoColumn) post
    /\ (exists stats',
          iterrows ds varname (Frame.empty, stats) index pre
          = Ok (Frame.empty, stats'))
    /\ 0 < npoints ds
    /\ exists values stats',
         length values = npoints ds
         /\ iterrows ds varname (Frame.empty, stats) index (pre ++ [row])
            = Ok ({| Frame.index := npoints ds;
                     Frame.columns :=
                       Frame.assign (shapeName row) values
                         [("timestep", map Frame.Time (grid_timesteps ds))] |},
                  stats').
Proof.
  intros Hlon Hlat Hvar Hrow.
  induction pre as [|r pre IH]; intros stats index Hpre.
  - destruct (step_total ds varname Hlon Hlat Hvar Frame.empty stats index row)
      as (w & out' & Hw & Hc & Hbody & Hinv' & _ & Hyes); [now left|].
    destruct (Hyes Hrow) as (Hpos & values & Hlen & Hout).
    simpl in Hout. cbn [app map branches iterrows].
    rewrite Hw, Hbody. cbn [rbind fst].
    split; [|split; [now exists stats|split; [exact Hpos|]]].
    + f_equal.
      * unfold branch_of. now rewrite <- Hc, Hrow.
      * apply (branches_established ds varname Hlon Hlat Hvar);
          [exact Hinv'|]. simpl. rewrite Hout.
        intros Heq. unfold Frame.empty in Heq. injection Heq as Heq _. lia.
    + exists values, (stats ++ [stats_row index row w]).
      split; [exact Hlen|]. now rewrite Hout.
  - simpl in Hpre. apply orb_false_iff in Hpre. destruct Hpre as [Hr Hpre].
    destruct (step_total ds varname Hlon Hlat Hvar Frame.empty stats index r)
      as (w & out' & Hw & Hc & Hbody & _ & Hno & _); [now left|].
    rewrite (Hno Hr) in Hbody.
    destruct (IH (stats ++ [stats_row index r w]) (S index) Hpre)
      as (Hbr & (stats' & Hrun) & Hpos & values & stats'' & Hlen & Hrun').
    cbn [app map branches iterrows]. rewrite Hw, Hbody. cbn [rbind fst].
    split; [|split; [now exists stats'|split; [exact Hpos|]]].
    + f_equal; [|exact Hbr]. unfold branch_of. now rewrite <- Hc, Hr.
    + now exists values, stats''.
Qed.

(** When no region has a cell in its window the table stays the empty
    one: no axis is set. *)
Lemma no_axis_without_cells (ds : Dataset) (varname : string)
      (rows : list Row) :
  monotonic (longitude ds) = true ->
  monotonic (latitude ds) = true ->
  has_var ds varname = true ->
  existsb (has_cells ds) rows = false ->
  exists stats,
    iterrows ds varname (Frame.empty, []) 0 rows = Ok (Frame.empty, stats)
    /\ length stats = length rows.
Proof.
  intros Hlon Hlat Hvar Hnone.
  destruct (iterrows_total ds varname Hlon Hlat Hvar rows (Frame.empty, []) 0)
    as ([out stats] & Hrun & _ & Hlen & Hsame & _); [now left|].
  simpl in Hsame, Hlen. rewrite (Hsame Hnone) in Hrun.
  now exists stats.
Qed.

(** ** The sections of a run *)

Section Sections.

Variable env : Env.

Lemma load_grib_found (inputfile : string) (tr : list event) :
  path_exists env inputfile = true ->
  load_grib env inputfile tr
  = (Ok (open_dataset env inputfile), tr ++ [OpenDataset inputfile]).
Proof. intros H. unfold load_grib. now rewrite H. Qed.

Lemma load_grib_missing (inputfile : string) (tr : list event) :
  path_exists env inputfile = false ->
  load_grib env inputfile tr
  = (Raise (Exception (MissingInputFile inputfile)),
     tr ++ [Log ERROR (MissingInputFile inputfile)]).
Proof. intros H. unfold load_grib. now rewrite H. Qed.

Lemma check_varname_present (ds : Dataset) (varname : string)
      (tr : list event) :
  has_var ds varname = true -> check_varname ds varname tr = (Ok tt, tr).
Proof. intros H. unfold check_varname. now rewrite H. Qed.

Lemma check_varname_absent (ds : Dataset) (varname : string)
      (tr : list event) :
  has_var ds varname = false ->
  check_varname ds varname tr
  = (Raise (Exception (NotADataVariable varname (map fst (data_vars ds)))),
     tr ++ [Log ERROR (NotADataVariable varname (map fst (data_vars ds)))]).
Proof. intros H. unfold check_varname. now rewrite H. Qed.

Lemma check_country_valid (country : string) (tr : list event) :
  mem (Text.upper country) (countries env) = true ->
  check_country env country tr = (Ok (Text.upper country), tr).
Proof. intros H. unfold check_country. now rewrite H. Qed.

Lemma check_country_invalid (country : string) (tr : list event) :
  mem (Text.upper country) (countries env) = false ->
  check_country env country tr
  = (Raise (Exception (CountryNotExisting (Text.upper country))),
     tr ++ [Log ERROR (CountryNotExisting (Text.upper country))]).
Proof. intros H. unfold check_country. now rewrite H. Qed.

(** The output section never fails and writes nothing: it logs a warning
    at most. *)
Lemma output_file_trace (outputfile : string) (tr : list event) :
  exists target warn,
    output_file outputfile tr = (Ok target, tr ++ warn)
    /\ (warn = [] \/ warn = [Log WARNING AddingParquetExtension]).
Proof.
  unfold output_file.
  destruct (negb (String.eqb (Text.suffix outputfile) ".parquet")).
  - exists (outputfile ++ ".parquet")%string,
           [Log WARNING AddingParquetExtension]. auto.
  - exists outputfile, []. rewrite app_nil_r. auto.
Qed.

Lemma request_answered (country : string) (r : Response) (tr : list event) :
  get_json env (url country) = Some r ->
  request env country tr = (Ok (Some r), tr ++ [Request (url country)]).
Proof. intros H. unfold request, bind, emit. now rewrite H. Qed.

(** A request that raises is logged and leaves [r] unbound; nothing is
    raised. *)
Lemma request_failed (country : string) (tr : list event) :
  get_json env (url country) = None ->
  request env country tr
  = (Ok None,
     tr ++ [Request (url country)] ++ [Log ERROR ErrorRequestingShapefile]).
Proof.
  intros H. unfold request, bind, emit, ret. rewrite H.
  now rewrite <- app_assoc.
Qed.

Lemma check_adm_level_in_range (adm_level : string) (n : Z)
      (tr : list event) :
  Text.int adm_level = Some n -> (0 <= n <= 2)%Z ->
  check_adm_level adm_level tr = (Ok n, tr).
Proof.
  intros H Hn. unfold check_adm_level. rewrite H.
  destruct (n <? 0)%Z eqn:E1; [apply Z.ltb_lt in E1; lia|].
  destruct (n >? 2)%Z eqn:E2; [apply Z.gtb_lt in E2; lia|].
  reflexivity.
Qed.

Lemma check_adm_level_out_of_range (adm_level : string) (n : Z)
      (tr : list event) :
  Text.int adm_level = Some n -> (n < 0 \/ 2 < n)%Z ->
  check_adm_level adm_level tr
  = (Raise (Exception AdmLevelRange), tr ++ [Log ERROR AdmLevelRange]).
Proof.
  intros H Hn. unfold check_adm_level. rewrite H.
  destruct (n <? 0)%Z eqn:E1; [reflexivity|].
  destruct (n >? 2)%Z eqn:E2; [reflexivity|].
  apply Z.ltb_ge in E1. rewrite Z.gtb_ltb in E2. apply Z.ltb_ge in E2. lia.
Qed.

Lemma check_adm_level_not_a_number (adm_level : string) (tr : list event) :
  Text.int adm_level = None ->
  check_adm_level adm_level tr = (Raise (ValueError_int adm_level), tr).
Proof. intros H. unfold check_adm_level. now rewrite H. Qed.

(** A level that passes the check lies between 0 and 2. *)
Lemma check_adm_level_validated (adm_level : string) (n : Z)
      (tr tr' : list event) :
  check_adm_level adm_level tr = (Ok n, tr') -> (0 <= n <= 2)%Z /\ tr' = tr.
Proof.
  unfold check_adm_level. destruct (Text.int adm_level) as [m|];
    [|discriminate].
  destruct (m <? 0)%Z eqn:E1; [discriminate|].
  destruct (m >? 2)%Z eqn:E2; [discriminate|].
  simpl. intros [= <- <-].
  apply Z.ltb_ge in E1. rewrite Z.gtb_ltb in E2. apply Z.ltb_ge in E2.
  split; [lia|reflexivity].
Qed.

End Sections.

(** ** The record of the requested level *)

(** C3, as the program has it.  For a level between 0 and 2: an answer
    of more than two records gives the record at the position of the
    level, and logs nothing; an answer of one or two records gives its
    first record and logs the warning. *)
Theorem adm_level_selection
        (r : Response) (adm_level : Z) (country : string) (tr : list event) :
  (0 <= adm_level <= 2)%Z ->
  (2 < length r ->
   exists x, nth_error r (Z.to_nat adm_level) = Some x
             /\ select_adm (Some r) adm_level country tr = (Ok x, tr))
  /\ (1 <= length r <= 2 ->
      exists x, nth_error r 0 = Some x
                /\ select_adm (Some r) adm_level country tr
                   = (Ok x,
                      tr ++ [Log WARNING (AdmLevelMissing adm_level country)])).
Proof.
  intros Hlevel. split; intros Hlen.
  - destruct (nth_error r (Z.to_nat adm_level)) as [x|] eqn:E.
    + exists x. split; [reflexivity|].
      unfold select_adm, item. apply Nat.ltb_lt in Hlen.
      now rewrite Hlen, E.
    + apply nth_error_None in E. lia.
  - destruct r as [|x r]; [simpl in Hlen; lia|].
    exists x. split; [reflexivity|].
    unfold select_adm. destruct (2 <? length (x :: r)) eqn:E.
    + apply Nat.ltb_lt in E. lia.
    + reflexivity.
Qed.

Lemma adm_level_selection_witness :
  (exists x, nth_error [Sample.adm "a0"; Sample.adm "a1"; Sample.adm "a2"]
                       (Z.to_nat 1) = Some x
             /\ select_adm
                  (Some [Sample.adm "a0"; Sample.adm "a1"; Sample.adm "a2"])
                  1 "ITA" []
                = (Ok x, []))
  /\ (exists x, nth_error [Sample.adm "a0"; Sample.adm "a1"] 0 = Some x
                /\ select_adm (Some [Sample.adm "a0"; Sample.adm "a1"])
                              1 "FRA" []
                   = (Ok x, [] ++ [Log WARNING (AdmLevelMissing 1 "FRA")])).
Proof.
  split.
  - apply (adm_level_selection
             [Sample.adm "a0"; Sample.adm "a1"; Sample.adm "a2"] 1 "ITA" []);
      [lia|simpl; lia].
  - apply (adm_level_selection
             [Sample.adm "a0"; Sample.adm "a1"] 1 "FRA" []);
      [lia|simpl; lia].
Defined.

(** C3 as stated fails on an answer without records, which has two
    records or fewer: the warning is logged and the choice of the first
    record raises. *)
Lemma adm_level_selection_empty_answer :
  length (@nil AdmRecord) <= 2
  /\ select_adm (Some []) 0 "DEU" []
     = (Raise IndexError, [Log WARNING (AdmLevelMissing 0 "DEU")]).
Proof. split; [simpl; lia|reflexivity]. Qed.

(** ** Failures of the validation *)

(** C6.  The run stops at the first check that fails, with the
    exception that carries the message of that check: the input file is
    missing; or it is there and the variable is not in the grid; or both
    are fine and the upper-cased country is no known code; or all three
    are fine and the level is a number outside 0..2.  That message is
    the last thing the run logs, and neither of the two files is
    written.  Country and level are ASCII texts. *)
Theorem validation_failure_writes_nothing
        (env : Env) (inputfile outputfile varname adm_level country : string)
        (m : message) :
  (path_exists env inputfile = false
   /\ m = MissingInputFile inputfile)
  \/ (path_exists env inputfile = true
      /\ has_var (open_dataset env inputfile) varname = false
      /\ m = NotADataVariable
                varname (map fst (data_vars (open_dataset env inputfile))))
  \/ (path_exists env inputfile = true
      /\ has_var (open_dataset env inputfile) varname = true
      /\ Text.isascii country = true
      /\ mem (Text.upper country) (countries env) = false
      /\ m = CountryNotExisting (Text.upper country))
  \/ (path_exists env inputfile = true
      /\ has_var (open_dataset env inputfile) varname = true
      /\ Text.isascii country = true
      /\ mem (Text.upper country) (countries env) = true
      /\ Text.isascii adm_level = true
      /\ (exists n, Text.int adm_level = Some n /\ (n < 0 \/ 2 < n)%Z)
      /\ m = AdmLevelRange) ->
  exists tr,
    extract_time_series env inputfile outputfile varname adm_level country []
    = (Raise (Exception m), tr)
    /\ last tr (Log WARNING AddingParquetExtension) = Log ERROR m
    /\ existsb is_write tr = false.
Proof.
  intros H. unfold extract_time_series, bind.
  destruct H as [(Hfile & ->)|[(Hfile & Hvar & ->)|[(Hfile & Hvar & _ & Hc & ->)
                |(Hfile & Hvar & _ & Hc & _ & (n & Hint & Hn) & ->)]]].
  - rewrite load_grib_missing by exact Hfile. eexists.
    split; [reflexivity|]. split; reflexivity.
  - rewrite load_grib_found by exact Hfile.
    rewrite check_varname_absent by exact Hvar. eexists.
    split; [reflexivity|]. split; reflexivity.
  - rewrite load_grib_found by exact Hfile.
    rewrite check_varname_present by exact Hvar.
    rewrite check_country_invalid by exact Hc. eexists.
    split; [reflexivity|]. split; reflexivity.
  - rewrite load_grib_found by exact Hfile.
    rewrite check_varname_present by exact Hvar.
    rewrite check_country_valid by exact Hc.
    destruct (output_file_trace outputfile ([] ++ [OpenDataset inputfile]))
      as (target & warn & -> & Hwarn).
    destruct (get_json env (url (Text.upper country))) as [r|] eqn:Hr.
    + rewrite (request_answered env _ r) by exact Hr.
      rewrite (check_adm_level_out_of_range adm_level n) by assumption.
      eexists. split; [reflexivity|].
      split; [now rewrite last_last|].
      rewrite !existsb_app. destruct Hwarn as [-> | ->]; reflexivity.
    + rewrite request_failed by exact Hr.
      rewrite (check_adm_level_out_of_range adm_level n) by assumption.
      eexists. split; [reflexivity|].
      split; [now rewrite last_last|].
      rewrite !existsb_app. destruct Hwarn as [-> | ->]; reflexivity.
Qed.

Lemma validation_failure_writes_nothing_witness :
  (exists tr,
     extract_time_series Sample.env "none.grib" "out" "t2m" "1" "ita" []
     = (Raise (Exception (MissingInputFile "none.grib")), tr)
     /\ last tr (Log WARNING AddingParquetExtension)
        = Log ERROR (MissingInputFile "none.grib")
     /\ existsb is_write tr = false)
  /\ (exists tr,
        extract_time_series Sample.env "era5.grib" "out" "rain" "1" "ita" []
        = (Raise (Exception (NotADataVariable "rain" ["t2m"])), tr)
        /\ last tr (Log WARNING AddingParquetExtension)
           = Log ERROR (NotADataVariable "rain" ["t2m"])
        /\ existsb is_write tr = false)
  /\ (exists tr,
        extract_time_series Sample.env "era5.grib" "out" "t2m" "1" "zzz" []
        = (Raise (Exception (CountryNotExisting "ZZZ")), tr)
        /\ last tr (Log WARNING AddingParquetExtension)
           = Log ERROR (CountryNotExisting "ZZZ")
        /\ existsb is_write tr = false)
  /\ (exists tr,
        extract_time_series Sample.env "era5.grib" "out" "t2m" "5" "ita" []
        = (Raise (Exception AdmLevelRange), tr)
        /\ last tr (Log WARNING AddingParquetExtension)
           = Log ERROR AdmLevelRange
        /\ existsb is_write tr = false).
Proof.
  split; [|split; [|split]].
  - apply (validation_failure_writes_nothing
             Sample.env "none.grib" "out" "t2m" "1" "ita").
    left. split; reflexivity.
  - apply (validation_failure_writes_nothing
             Sample.env "era5.grib" "out" "rain" "1" "ita").
    right. left. repeat split.
  - apply (validation_failure_writes_nothing
             Sample.env "era5.grib" "out" "t2m" "1" "zzz").
    right. right. left. repeat split.
  - apply (validation_failure_writes_nothing
             Sample.env "era5.grib" "out" "t2m" "5" "ita").
    right. right. right. repeat split.
    exists 5%Z. split; [reflexivity|lia].
Defined.

(** ** Traces only grow *)

Lemma extends_ret {A} (a : A) : extends (ret a).
Proof. intros tr. exists []. simpl. now rewrite app_nil_r. Qed.

Lemma extends_raise {A} (e : exn) : extends (@raise A e).
Proof. intros tr. exists []. simpl. now rewrite app_nil_r. Qed.

Lemma extends_lift {A} (r : result A) : extends (lift r).
Proof. intros tr. exists []. simpl. now rewrite app_nil_r. Qed.

Lemma extends_emit (ev : event) : extends (emit ev).
Proof. intros tr. now exists [ev]. Qed.

Lemma extends_bind {A B} (m : M A) (k : A -> M B) :
  extends m -> (forall a, extends (k a)) -> extends (bind m k).
Proof.
  intros Hm Hk tr. unfold bind. destruct (Hm tr) as [more Hmore].
  destruct (m tr) as [[a|e] tr']; simpl in Hmore; subst tr'.
  - destruct (Hk a (tr ++ more)) as [more' Hmore'].
    exists (more ++ more'). now rewrite Hmore', app_assoc.
  - now exists more.
Qed.

Create HintDb trace.

#[local] Hint Resolve extends_ret extends_raise extends_lift extends_emit
  extends_bind : trace.

Lemma extends_fail {A} (m : message) : extends (@fail A m).
Proof. unfold fail. auto with trace. Qed.

#[local] Hint Resolve extends_fail : trace.

Lemma extends_check_adm_level (adm_level : string) :
  extends (check_adm_level adm_level).
Proof.
  unfold check_adm_level. destruct (Text.int adm_level) as [n|];
    [destruct (_ || _)|]; auto with trace.
Qed.

Lemma extends_select_adm (r : option Response) (adm_level : Z)
      (country : string) :
  extends (select_adm r adm_level country).
Proof.
  assert (Hitem : forall r i, extends (item r i))
    by (intros r0 i; unfold item; destruct (nth_error r0 _); auto with trace).
  unfold select_adm. destruct r as [r|]; [|auto with trace].
  destruct (2 <? length r); auto with trace.
Qed.

Lemma extends_read_boundary (env : Env) (selected_adm : AdmRecord) :
  extends (read_boundary env selected_adm).
Proof.
  unfold read_boundary. destruct (lookup _ selected_adm); auto with trace.
Qed.

Lemma extends_for_rows (ds : Dataset) (varname : string) (shape0 : nat)
      (rows : list Row) :
  forall st index, extends (for_rows ds varname shape0 st index rows).
Proof.
  induction rows as [|row rows IH]; intros st index; simpl;
    auto 6 with trace.
Qed.

Lemma extends_save (target_file_name : string) (st : LoopState) :
  extends (save target_file_name st).
Proof. unfold save. auto with trace. Qed.

#[local] Hint Resolve extends_check_adm_level extends_select_adm
  extends_read_boundary extends_for_rows extends_save : trace.

(** What a run does once the request is over. *)
Lemma extends_after_request (env : Env) (ds : Dataset)
      (varname adm_level country target : string) (r : option Response) :
  extends (bind (check_adm_level adm_level) (fun adm_level =>
           bind (select_adm r adm_level country) (fun selected_adm =>
           bind (read_boundary env selected_adm) (fun geoBoundary =>
           bind (for_rows ds varname (length geoBoundary)
                          (Frame.empty, []) 0 geoBoundary)
                (fun st => save target st))))).
Proof. auto 8 with trace. Qed.

(** ** Country and level *)

(** With everything else valid, a level outside 0..2 raises after the
    request, whether the request was answered or not. *)
Lemma level_out_of_range_raises
      (env : Env) (inputfile outputfile varname adm_level country : string)
      (n : Z) :
  path_exists env inputfile = true ->
  has_var (open_dataset env inputfile) varname = true ->
  mem (Text.upper country) (countries env) = true ->
  Text.int adm_level = Some n -> (n < 0 \/ 2 < n)%Z ->
  exists tr,
    extract_time_series env inputfile outputfile varname adm_level country []
    = (Raise (Exception AdmLevelRange), tr).
Proof.
  intros Hfile Hvar Hc Hint Hn. unfold extract_time_series, bind.
  rewrite load_grib_found by exact Hfile.
  rewrite check_varname_present by exact Hvar.
  rewrite check_country_valid by exact Hc.
  destruct (output_file_trace outputfile ([] ++ [OpenDataset inputfile]))
    as (target & warn & -> & _).
  destruct (get_json env (url (Text.upper country))) as [r|] eqn:Hr.
  - rewrite (request_answered env _ r) by exact Hr.
    rewrite (check_adm_level_out_of_range adm_level n) by assumption.
    now eexists.
  - rewrite request_failed by exact Hr.
    rewrite (check_adm_level_out_of_range adm_level n) by assumption.
    now eexists.
Qed.

(** C7.  With the input file there, the variable in it and an ASCII
    text for the country: a country whose upper-cased text is no known
    code makes the run raise the country exception right after the file
    is opened, before any request, any region and any write; and with a
    known country, a level that is an ASCII text and a number outside
    0..2 makes the run raise the level exception. *)
Theorem invalid_country_and_level
        (env : Env) (inputfile outputfile varname adm_level country : string) :
  path_exists env inputfile = true ->
  has_var (open_dataset env inputfile) varname = true ->
  Text.isascii country = true ->
  (mem (Text.upper country) (countries env) = false ->
   exists tr,
     extract_time_series env inputfile outputfile varname adm_level country []
     = (Raise (Exception (CountryNotExisting (Text.upper country))), tr)
     /\ tr = [OpenDataset inputfile;
              Log ERROR (CountryNotExisting (Text.upper country))]
     /\ existsb is_request tr = false
     /\ existsb is_region_step tr = false
     /\ existsb is_write tr = false)
  /\ (mem (Text.upper country) (countries env) = true ->
      Text.isascii adm_level = true ->
      forall n, Text.int adm_level = Some n -> (n < 0 \/ 2 < n)%Z ->
      fst (extract_time_series env inputfile outputfile varname
                               adm_level country [])
      = Raise (Exception AdmLevelRange)).
Proof.
  intros Hfile Hvar _. split; intros Hc.
  - eexists. unfold extract_time_series, bind.
    rewrite load_grib_found by exact Hfile.
    rewrite check_varname_present by exact Hvar.
    rewrite check_country_invalid by exact Hc.
    repeat split.
  - intros _ n Hint Hn.
    destruct (level_out_of_range_raises env inputfile outputfile varname
                adm_level country n Hfile Hvar Hc Hint Hn) as [tr Htr].
    now rewrite Htr.
Qed.

Lemma invalid_country_and_level_witness :
  (exists tr,
     extract_time_series Sample.env "era5.grib" "out" "t2m" "1" "ZZZ" []
     = (Raise (Exception (CountryNotExisting (Text.upper "ZZZ"))), tr)
     /\ tr = [OpenDataset "era5.grib";
              Log ERROR (CountryNotExisting (Text.upper "ZZZ"))]
     /\ existsb is_request tr = false
     /\ existsb is_region_step tr = false
     /\ existsb is_write tr = false)
  /\ fst (extract_time_series Sample.env "era5.grib" "out" "t2m" "5" "ita" [])
     = Raise (Exception AdmLevelRange).
Proof.
  split.
  - apply (invalid_country_and_level
             Sample.env "era5.grib" "out" "t2m" "1" "ZZZ"); reflexivity.
  - apply (proj2 (invalid_country_and_level
                    Sample.env "era5.grib" "out" "t2m" "5" "ita"
                    eq_refl eq_refl eq_refl)
                 eq_refl eq_refl 5%Z eq_refl).
    right. lia.
Defined.

(** ** A request that fails *)

(** After a request that raised, with everything before it valid: the
    error is logged, the level is read and checked as after any request,
    and a level that passes the check finds [r] unbound. *)
Lemma failed_request_continues
      (env : Env) (inputfile outputfile varname adm_level country : string) :
  path_exists env inputfile = true ->
  has_var (open_dataset env inputfile) varname = true ->
  mem (Text.upper country) (countries env) = true ->
  get_json env (url (Text.upper country)) = None ->
  exists warn,
    (warn = [] \/ warn = [Log WARNING AddingParquetExtension])
    /\ let tr := [OpenDataset inputfile] ++ warn
                 ++ [Request (url (Text.upper country));
                     Log ERROR ErrorRequestingShapefile] in
       extract_time_series env inputfile outputfile varname
                           adm_level country []
       = match Text.int adm_level with
         | None => (Raise (ValueError_int adm_level), tr)
         | Some n =>
             if (n <? 0)%Z || (n >? 2)%Z
             then (Raise (Exception AdmLevelRange),
                   tr ++ [Log ERROR AdmLevelRange])
             else (Raise (UnboundLocalError "r"), tr)
         end.
Proof.
  intros Hfile Hvar Hc Hr. unfold extract_time_series, bind.
  rewrite load_grib_found by exact Hfile.
  rewrite check_varname_present by exact Hvar.
  rewrite check_country_valid by exact Hc.
  destruct (output_file_trace outputfile ([] ++ [OpenDataset inputfile]))
    as (target & warn & -> & Hwarn).
  exists warn. split; [exact Hwarn|].
  rewrite request_failed by exact Hr.
  cbv zeta. unfold check_adm_level.
  destruct (Text.int adm_level) as [n|];
    [destruct ((n <? 0)%Z || (n >? 2)%Z)|];
    unfold fail, bind, emit, raise, select_adm; cbn [fst snd];
    f_equal; rewrite <- ?app_assoc; reflexivity.
Qed.

(** C9, at a failing input.  With the network down and a valid file,
    variable, country and level, the failure of the request is logged and
    the run goes on past the request, to end in the exception of the
    unbound [r]: it writes no file. *)
Theorem failed_request_unbound_response :
  extract_time_series Sample.offline "era5.grib" "out" "t2m" "1" "ita" []
  = (Raise (UnboundLocalError "r"),
     [OpenDataset "era5.grib";
      Log WARNING AddingParquetExtension;
      Request (url "ITA");
      Log ERROR ErrorRequestingShapefile]).
Proof. reflexivity. Qed.

(** ** Upper case *)

Lemma upper_ascii_idempotent (c : ascii) :
  Text.upper_ascii (Text.upper_ascii c) = Text.upper_ascii c.
Proof.
  destruct c as [[] [] [] [] [] [] [] []]; reflexivity.
Qed.

Lemma upper_idempotent (s : string) :
  Text.upper (Text.upper s) = Text.upper s.
Proof.
  induction s as [|c s IH]; [reflexivity|].
  simpl. now rewrite upper_ascii_idempotent, IH.
Qed.

(** ** What is raised after the country check *)

Lemma raises_only_ret {A} (P : exn -> Prop) (a : A) : raises_only P (ret a).
Proof. intros tr e tr' H. discriminate H. Qed.

Lemma raises_only_emit (P : exn -> Prop) (ev : event) :
  raises_only P (emit ev).
Proof. intros tr e tr' H. discriminate H. Qed.

Lemma raises_only_raise {A} (P : exn -> Prop) (e : exn) :
  P e -> raises_only P (@raise A e).
Proof. intros He tr e' tr' [= <- _]. exact He. Qed.

Lemma raises_only_lift {A} (P : exn -> Prop) (r : result A) :
  (forall e, r = Raise e -> P e) -> raises_only P (lift r).
Proof. intros Hr tr e tr' [= H _]. now apply Hr. Qed.

Lemma raises_only_bind {A B} (P : exn -> Prop) (m : M A) (k : A -> M B) :
  raises_only P m -> (forall a, raises_only P (k a)) ->
  raises_only P (bind m k).
Proof.
  intros Hm Hk tr e tr'. unfold bind.
  destruct (m tr) as [[a|e0] tr0] eqn:E.
  - apply Hk.
  - intros [= <- _]. exact (Hm _ _ _ E).
Qed.

#[local] Hint Resolve raises_only_ret raises_only_emit raises_only_raise
  raises_only_lift raises_only_bind : trace.

#[local] Hint Extern 1 (not_country _) => exact I : trace.

Lemma rbind_raise {A B} (r : result A) (k : A -> result B) (e : exn) :
  rbind r k = Raise e ->
  r = Raise e \/ exists a, r = Ok a /\ k a = Raise e.
Proof.
  destruct r as [a|e0]; simpl; intros H.
  - right. now exists a.
  - left. now injection H as ->.
Qed.

Lemma sel_not_country (ds : Dataset) (x0 x1 y0 y1 : Q) (e : exn) :
  sel ds x0 x1 y0 y1 = Raise e -> not_country e.
Proof.
  unfold sel.
  destruct (Axis.slice_locs (longitude ds) x0 x1) as [[j0 j1]|];
    destruct (Axis.slice_locs (latitude ds) y0 y1) as [[i0 i1]|];
    intros H; try discriminate H; injection H as <-; exact I.
Qed.

Lemma setitem_not_country (df : Frame.DataFrame) (k : string)
      (v : list Frame.cell) (e : exn) :
  Frame.setitem df k v = Raise e -> not_country e.
Proof.
  unfold Frame.setitem.
  destruct (length v =? _); intros H; [discriminate H|].
  injection H as <-. exact I.
Qed.

Lemma loop_body_not_country (ds : Dataset) (varname : string)
      (st : LoopState) (index : nat) (row : Row) (e : exn) :
  loop_body ds varname st index row = Raise e -> not_country e.
Proof.
  destruct st as [out stats]. unfold loop_body. intros H.
  apply rbind_raise in H. destruct H as [H|(w & _ & H)].
  { unfold this_dataset in H.
    destruct (total_bounds (geometry row)) as [[[xmin ymin] xmax] ymax].
    exact (sel_not_country _ _ _ _ _ _ H). }
  apply rbind_raise in H. destruct H as [H|(a & _ & H)].
  { unfold getitem in H. destruct (lookup varname (data_vars w));
      [discriminate H|]. injection H as <-. exact I. }
  destruct (0 <? size w); [|discriminate H].
  cbv zeta in H.
  apply rbind_raise in H. destruct H as [H|(out' & _ & H)].
  { destruct (Frame.len out =? 0); [|discriminate H].
    exact (setitem_not_country _ _ _ _ H). }
  apply rbind_raise in H. destruct H as [H|(values & _ & H)].
  { unfold stacked_getitem in H.
    destruct (lookup varname (stacked_vars _)); [discriminate H|].
    injection H as <-. exact I. }
  apply rbind_raise in H. destruct H as [H|(out'' & _ & H)].
  - exact (setitem_not_country _ _ _ _ H).
  - discriminate H.
Qed.

Lemma for_rows_not_country (ds : Dataset) (varname : string) (shape0 : nat)
      (rows : list Row) :
  forall st index,
    raises_only not_country (for_rows ds varname shape0 st index rows).
Proof.
  induction rows as [|row rows IH]; intros st index; simpl.
  - auto with trace.
  - apply raises_only_bind; [auto with trace|]. intros _.
    apply raises_only_bind; [|intros st'; apply IH].
    apply raises_only_lift. apply loop_body_not_country.
Qed.

Lemma after_request_not_country (env : Env) (ds : Dataset)
      (varname adm_level country target : string) (r : option Response) :
  raises_only not_country
    (bind (check_adm_level adm_level) (fun adm_level =>
     bind (select_adm r adm_level country) (fun selected_adm =>
     bind (read_boundary env selected_adm) (fun geoBoundary =>
     bind (for_rows ds varname (length geoBoundary)
                    (Frame.empty, []) 0 geoBoundary)
          (fun st => save target st))))).
Proof.
  assert (Hitem : forall r i, raises_only not_country (item r i))
    by (intros r0 i; unfold item; destruct (nth_error r0 _);
        auto with trace).
  unfold check_adm_level, select_adm, read_boundary, save, fail.
  apply raises_only_bind.
  { destruct (Text.int adm_level) as [n|]; [destruct (_ || _)|];
      auto with trace. }
  intros n. apply raises_only_bind.
  { destruct r as [r|]; [destruct (2 <? length r)|]; auto with trace. }
  intros selected_adm. apply raises_only_bind.
  { destruct (lookup _ selected_adm); auto with trace. }
  intros geoBoundary. apply raises_only_bind.
  - apply for_rows_not_country.
  - intros st. auto with trace.
Qed.

Lemma bind_ok {A B} (m : M A) (k : A -> M B) (tr tr' : list event) (a : A) :
  m tr = (Ok a, tr') -> bind m k tr = k a tr'.
Proof. intros H. unfold bind. now rewrite H. Qed.

Lemma request_made (env : Env) (country : string) (tr : list event) :
  exists r more,
    request env country tr = (Ok r, tr ++ Request (url country) :: more).
Proof.
  destruct (get_json env (url country)) as [r|] eqn:E.
  - exists (Some r), []. now apply request_answered.
  - exists None, [Log ERROR ErrorRequestingShapefile].
    now apply request_failed.
Qed.

(** C10.  With the input file there, the variable in it and an ASCII
    text for the country: the country is judged by its upper-cased text
    alone.  When that text is a known code the run does not raise the
    country exception and goes on to request the boundaries of the
    upper-cased code; when it is not, the run raises the country
    exception; and a run on a country is the run on its upper-cased
    text. *)
Theorem country_case_insensitive
        (env : Env) (inputfile outputfile varname adm_level country : string) :
  path_exists env inputfile = true ->
  has_var (open_dataset env inputfile) varname = true ->
  Text.isascii country = true ->
  (mem (Text.upper country) (countries env) = true ->
   exists res tr,
     extract_time_series env inputfile outputfile varname adm_level country []
     = (res, tr)
     /\ In (Request (url (Text.upper country))) tr
     /\ forall c, res <> Raise (Exception (CountryNotExisting c)))
  /\ (mem (Text.upper country) (countries env) = false ->
      fst (extract_time_series env inputfile outputfile varname
                               adm_level country [])
      = Raise (Exception (CountryNotExisting (Text.upper country))))
  /\ (forall tr,
        extract_time_series env inputfile outputfile varname
                            adm_level country tr
        = extract_time_series env inputfile outputfile varname
                              adm_level (Text.upper country) tr).
Proof.
  intros Hfile Hvar _. split; [|split].
  - intros Hc. unfold extract_time_series.
    erewrite bind_ok by (now apply load_grib_found).
    erewrite bind_ok by (now apply check_varname_present).
    erewrite bind_ok by (now apply check_country_valid).
    destruct (output_file_trace outputfile ([] ++ [OpenDataset inputfile]))
      as (target & warn & Hout & _).
    erewrite bind_ok by exact Hout.
    destruct (request_made env (Text.upper country)
                           (([] ++ [OpenDataset inputfile]) ++ warn))
      as (r & more & Hreq).
    erewrite bind_ok by exact Hreq.
    match goal with
    | |- exists res tr, ?run ?tr0 = _ /\ _ =>
        destruct (run tr0) as [res tr] eqn:E
    end.
    exists res, tr. split; [reflexivity|]. split.
    + destruct (extends_after_request
                  env (open_dataset env inputfile) varname adm_level
                  (Text.upper country) target r
                  ((([] ++ [OpenDataset inputfile]) ++ warn)
                     ++ Request (url (Text.upper country)) :: more))
        as [more' Hmore].
      rewrite E in Hmore. cbn [snd] in Hmore. rewrite Hmore.
      apply in_or_app. left. apply in_or_app. right. now left.
    + intros c ->.
      exact (after_request_not_country
               env (open_dataset env inputfile) varname adm_level
               (Text.upper country) target r _ _ _ E).
  - intros Hc. unfold extract_time_series.
    erewrite bind_ok by (now apply load_grib_found).
    erewrite bind_ok by (now apply check_varname_present).
    unfold bind. now rewrite check_country_invalid by exact Hc.
  - intros tr. unfold extract_time_series, check_country.
    now rewrite upper_idempotent.
Qed.

Lemma country_case_insensitive_witness :
  (exists res tr,
     extract_time_series Sample.env "era5.grib" "out" "t2m" "1" "ita" []
     = (res, tr)
     /\ In (Request (url (Text.upper "ita"))) tr
     /\ forall c, res <> Raise (Exception (CountryNotExisting c)))
  /\ fst (extract_time_series Sample.env "era5.grib" "out" "t2m" "1" "zzz" [])
     = Raise (Exception (CountryNotExisting (Text.upper "zzz")))
  /\ Text.upper "ita" = "ITA".
Proof.
  split; [|split].
  - apply (country_case_insensitive
             Sample.env "era5.grib" "out" "t2m" "1" "ita"); reflexivity.
  - apply (country_case_insensitive
             Sample.env "era5.grib" "out" "t2m" "1" "zzz"); reflexivity.
  - reflexivity.
Defined.

(** ** A run that reaches its end *)

(** The loop with its progress bar computes what the loop without it
    does, and only prints. *)
Lemma for_rows_iterrows (ds : Dataset) (varname : string) (shape0 : nat)
      (rows : list Row) :
  forall (st : LoopState) (index : nat) (tr : list event),
  exists prints,
    for_rows ds varname shape0 st index rows tr
    = (iterrows ds varname st index rows, tr ++ prints)
    /\ forallb is_region_step prints = true.
Proof.
  induction rows as [|row rows IH]; intros st index tr.
  - exists []. simpl. unfold ret. now rewrite app_nil_r.
  - cbn [for_rows iterrows]. unfold bind at 1, emit. unfold bind at 1, lift.
    destruct (loop_body ds varname st index row) as [st'|e]; cbn [rbind].
    + destruct (IH st' (S index) (tr ++ [Print (80 * (index + 1) / shape0)]))
        as (prints & Hrun & Hprints).
      exists (Print (80 * (index + 1) / shape0) :: prints).
      rewrite Hrun, <- app_assoc. split; [reflexivity|exact Hprints].
    + exists [Print (80 * (index + 1) / shape0)]. split; reflexivity.
Qed.

(** With valid arguments, an answer of the service that has the record
    of the level, and a loop that runs to its end, the run ends normally:
    the two tables of the loop are what it writes, last and once. *)
Lemma run_writes_tables
      (env : Env) (inputfile outputfile varname adm_level country : string)
      (n : Z) (r : Response) (selected_adm : AdmRecord) (dlPath : string)
      (out : Frame.DataFrame) (stats : list StatsRow) :
  path_exists env inputfile = true ->
  has_var (open_dataset env inputfile) varname = true ->
  mem (Text.upper country) (countries env) = true ->
  get_json env (url (Text.upper country)) = Some r ->
  Text.int adm_level = Some n -> (0 <= n <= 2)%Z ->
  nth_error r (if 2 <? length r then Z.to_nat n else 0) = Some selected_adm ->
  lookup "simplifiedGeometryGeoJSON" selected_adm = Some dlPath ->
  iterrows (open_dataset env inputfile) varname (Frame.empty, []) 0
           (read_file env dlPath) = Ok (out, stats) ->
  exists target tr,
    extract_time_series env inputfile outputfile varname adm_level country []
    = (Ok tt,
       tr ++ [ToParquet target out; ToCsv (target ++ ".csv")%string stats])
    /\ existsb is_write tr = false.
Proof.
  intros Hfile Hvar Hc Hr Hint Hn Hsel Hpath Hloop.
  unfold extract_time_series.
  erewrite bind_ok by (now apply load_grib_found).
  erewrite bind_ok by (now apply check_varname_present).
  erewrite bind_ok by (now apply check_country_valid).
  destruct (output_file_trace outputfile ([] ++ [OpenDataset inputfile]))
    as (target & warn & Hout & Hwarn).
  erewrite bind_ok by exact Hout.
  erewrite bind_ok by (apply (request_answered env _ r); exact Hr).
  erewrite bind_ok
    by (apply (check_adm_level_in_range adm_level n); assumption).
  set (tr0 := (([] ++ [OpenDataset inputfile]) ++ warn)
              ++ [Request (url (Text.upper country))]).
  assert (Hw0 : existsb is_write tr0 = false)
    by (unfold tr0; rewrite !existsb_app;
        destruct Hwarn as [-> | ->]; reflexivity).
  assert (Hselect : exists more,
             select_adm (Some r) n (Text.upper country) tr0
             = (Ok selected_adm, tr0 ++ more)
             /\ existsb is_write more = false).
  { unfold select_adm, item. destruct (2 <? length r).
    - rewrite Hsel. exists []. now rewrite app_nil_r.
    - unfold bind, emit. change (Z.to_nat 0) with 0. rewrite Hsel.
      now exists [Log WARNING (AdmLevelMissing n (Text.upper country))]. }
  destruct Hselect as (more & Hselect & Hw1).
  erewrite bind_ok by exact Hselect.
  assert (Hread : read_boundary env selected_adm (tr0 ++ more)
                  = (Ok (read_file env dlPath),
                     (tr0 ++ more) ++ [ReadFile dlPath]))
    by (unfold read_boundary; now rewrite Hpath).
  erewrite bind_ok by exact Hread.
  destruct (for_rows_iterrows
              (open_dataset env inputfile) varname
              (length (read_file env dlPath)) (read_file env dlPath)
              (Frame.empty, []) 0 ((tr0 ++ more) ++ [ReadFile dlPath]))
    as (prints & Hrows & Hprints).
  rewrite Hloop in Hrows. erewrite bind_ok by exact Hrows.
  exists target, (((tr0 ++ more) ++ [ReadFile dlPath]) ++ prints).
  split.
  - unfold save, bind, emit. cbn [fst snd]. now rewrite <- app_assoc.
  - rewrite !existsb_app, Hw0, Hw1. simpl.
    clear -Hprints. induction prints as [|ev prints IH]; [reflexivity|].
    simpl in *. apply andb_true_iff in Hprints. destruct Hprints as [H1 H2].
    rewrite (IH H2). destruct ev; try discriminate H1; reflexivity.
Qed.

(** A run on the sample world: France has one level only, so the level
    falls back to the country, whose one region covers the grid. *)
Example run_on_sample :
  extract_time_series Sample.env "era5.grib" "out.parquet" "t2m" "1" "fra" []
  = (Ok tt,
     [OpenDataset "era5.grib";
      Request (url "FRA");
      Log WARNING (AdmLevelMissing 1 "FRA");
      ReadFile "fra0.geojson";
      Print 80;
      ToParquet "out.parquet"
        {| Frame.index := 4;
           Frame.columns :=
             [("timestep",
               [Frame.Time 3600; Frame.Time 7200;
                Frame.Time 90000; Frame.Time 93600]);
              ("Whole",
               [Frame.Num (99 # 9); Frame.Num (549 # 9);
                Frame.Num (999 # 9); Frame.Num (1449 # 9)])] |};
      ToCsv "out.parquet.csv"
        [stats_row 0 Sample.whole Sample.era5]]).
Proof. reflexivity. Qed.

(** * Further properties *)

(** ** The series of any region *)

Lemma stacked_getitem_ok (c : Dataset) (varname : string) (values : list float) :
  stacked_getitem (stacked_data c) varname = Ok values ->
  length values = npoints c.
Proof.
  intros H.
  destruct (stacked_getitem_length c varname) as (vs & Hvs & Hlen).
  - intros Hnone. unfold stacked_getitem, stacked_data in H.
    cbn [stacked_vars] in H.
    rewrite (lookup_map (fun b : DataArray =>
               stack_mean (length (latitude c)) (length (longitude c))
                          (length (time c)) (length (step c)) b)) in H.
    rewrite Hnone in H. discriminate H.
  - rewrite H in Hvs. now injection Hvs as ->.
Qed.

(** What [aggregate] answers on the window of a region. *)
Lemma aggregate_window (ds : Dataset) (varname : string) (row : Row)
      (w : Dataset) :
  this_dataset ds row = Ok w ->
  has_var ds varname = true ->
  if 0 <? size w
  then exists values,
         aggregate ds varname row = Ok (Some (grid_timesteps ds, values))
         /\ length values = npoints ds
         /\ stacked_getitem (stacked_data (clip w (geometry row))) varname
            = Ok values
  else aggregate ds varname row = Ok None.
Proof.
  intros Hw Hvar.
  destruct (this_dataset_inv ds row w Hw) as (Ht & Hs & Hv).
  destruct (has_var_lookup ds varname Hvar) as [a Ha].
  unfold aggregate. rewrite Hw. cbn [rbind]. unfold getitem.
  destruct (lookup varname (data_vars w)) as [b|] eqn:Hb;
    [|apply Hv in Hb; congruence].
  cbn [rbind]. destruct (0 <? size w); [|reflexivity].
  cbv zeta. set (c := clip w (geometry row)).
  destruct (stacked_getitem_length c varname) as (vs & Hvs & Hlen).
  { unfold c. rewrite clip_lookup, Hb. discriminate. }
  exists vs. rewrite Hvs. cbn [rbind]. split; [|split].
  - do 3 f_equal. unfold stacked_data, grid_timesteps, c. simpl.
    now rewrite Ht, Hs.
  - rewrite Hlen. unfold npoints, c. simpl. now rewrite Ht, Hs.
  - reflexivity.
Qed.

(** X1.  Whatever the grid and the region, a series that [aggregate]
    produces has the composite time axis of the grid, time plus step for
    every pair with time outermost, and one value for each of its points:
    every region's series is aligned with the axis of the table. *)
Theorem series_on_grid_axis
        (ds : Dataset) (varname : string) (row : Row)
        (ts : list Z) (values : list float) :
  aggregate ds varname row = Ok (Some (ts, values)) ->
  ts = grid_timesteps ds
  /\ length ts = npoints ds
  /\ length values = npoints ds
  /\ 0 < npoints ds.
Proof.
  intros H. pose proof H as H0. unfold aggregate in H0.
  destruct (this_dataset ds row) as [w|e] eqn:Hw; [|discriminate H0].
  cbn [rbind] in H0.
  destruct (this_dataset_inv ds row w Hw) as (Ht & Hs & Hv).
  unfold getitem in H0.
  destruct (lookup varname (data_vars w)) as [b|] eqn:Hb; [|discriminate H0].
  cbn [rbind] in H0.
  destruct (0 <? size w) eqn:Hsize; [|discriminate H0].
  assert (Hvar : has_var ds varname = true).
  { unfold has_var. destruct (lookup varname (data_vars ds)) eqn:E;
      [reflexivity|]. apply Hv in E. congruence. }
  pose proof (aggregate_window ds varname row w Hw Hvar) as Ha.
  rewrite Hsize in Ha. destruct Ha as (vs & Ha & Hlen & _).
  rewrite H in Ha. injection Ha as -> ->.
  apply Nat.ltb_lt in Hsize.
  split; [reflexivity|]. split; [|split; [exact Hlen|]].
  - unfold grid_timesteps, npoints. apply length_stacked.
    intros. apply length_map.
  - exact (size_npoints ds w Ht Hs Hsize).
Qed.

Lemma series_on_grid_axis_witness :
  exists ts values,
    aggregate Sample.era5 "t2m" Sample.corner = Ok (Some (ts, values))
    /\ ts = grid_timesteps Sample.era5
    /\ length ts = npoints Sample.era5
    /\ length values = npoints Sample.era5
    /\ 0 < npoints Sample.era5.
Proof.
  eexists _, _. split; [reflexivity|].
  apply (series_on_grid_axis Sample.era5 "t2m" Sample.corner). reflexivity.
Defined.

(** ** What the loop can raise *)

Lemma loop_body_cases (ds : Dataset) (varname : string)
      (out : Frame.DataFrame) (stats : list StatsRow) (index : nat)
      (row : Row) :
  table_inv ds out ->
  (exists key, loop_body ds varname (out, stats) index row
               = Raise (KeyError key))
  \/ (exists out' stats',
        loop_body ds varname (out, stats) index row = Ok (out', stats')
        /\ table_inv ds out').
Proof.
  intros Hinv. destruct (this_dataset ds row) as [w|e] eqn:Hw.
  - destruct (has_var ds varname) eqn:Hvar.
    + destruct (loop_body_step ds varname out stats index row w Hw Hvar Hinv)
        as (out' & Hbody & Hinv' & _).
      right. now exists out', (stats ++ [stats_row index row w]).
    + left. exists varname. unfold loop_body. rewrite Hw. cbn [rbind].
      destruct (this_dataset_inv ds row w Hw) as (_ & _ & Hv).
      unfold has_var in Hvar.
      destruct (lookup varname (data_vars ds)) eqn:E; [discriminate|].
      apply Hv in E. unfold getitem. now rewrite E.
  - left. unfold loop_body. rewrite Hw. cbn [rbind].
    unfold this_dataset, sel in Hw.
    destruct (total_bounds (geometry row)) as [[[xmin ymin] xmax] ymax].
    destruct (Axis.slice_locs (longitude ds) xmin xmax) as [[j0 j1]|];
      destruct (Axis.slice_locs (latitude ds) ymax ymin) as [[i0 i1]|];
      try discriminate Hw; injection Hw as <-; now eexists.
Qed.

Lemma iterrows_raises (ds : Dataset) (varname : string) (rows : list Row) :
  forall (st : LoopState) (index : nat) (e : exn),
    table_inv ds (fst st) ->
    iterrows ds varname st index rows = Raise e ->
    exists key, e = KeyError key.
Proof.
  induction rows as [|row rows IH]; intros [out stats] index e Hinv H;
    [discriminate H|].
  cbn [iterrows] in H. simpl in Hinv.
  destruct (loop_body_cases ds varname out stats index row Hinv)
    as [(key & Hb)|(out' & stats' & Hb & Hinv')]; rewrite Hb in H.
  - injection H as <-. now exists key.
  - exact (IH (out', stats') (S index) e Hinv' H).
Qed.

(** X2.  Whatever the grid, the variable and the regions, the only
    exception the loop over the regions can raise is [KeyError] (a
    variable that is not in the grid, an axis the labels cannot be
    searched on): no column is ever refused for its length. *)
Theorem loop_raises_key_error_only
        (ds : Dataset) (varname : string) (rows : list Row) (e : exn) :
  iterrows ds varname (Frame.empty, []) 0 rows = Raise e ->
  exists key, e = KeyError key.
Proof.
  apply iterrows_raises. now left.
Qed.

Lemma loop_raises_key_error_only_witness :
  iterrows Sample.era5 "rain" (Frame.empty, []) 0 [Sample.far; Sample.whole]
  = Raise (KeyError "rain")
  /\ exists key, KeyError "rain" = KeyError key.
Proof.
  split; [reflexivity|].
  apply (loop_raises_key_error_only
           Sample.era5 "rain" [Sample.far; Sample.whole]).
  reflexivity.
Defined.

(** ** The columns of the table *)

(** The iteration of a region in terms of its series. *)
Lemma loop_body_series (ds : Dataset) (varname : string)
      (out : Frame.DataFrame) (stats : list StatsRow) (index : nat)
      (row : Row) (w : Dataset) :
  this_dataset ds row = Ok w ->
  has_var ds varname = true ->
  table_inv ds out ->
  loop_body ds varname (out, stats) index row
  = Ok (if has_cells ds row
        then {| Frame.index := npoints ds;
                Frame.columns :=
                  Frame.assign (shapeName row) (series_of ds varname row)
                    (if Frame.len out =? 0
                     then [("timestep", axis_column ds)]
                     else Frame.columns out) |}
        else out,
        stats ++ [stats_row index row w]).
Proof.
  intros Hw Hvar Hinv.
  destruct (loop_body_step ds varname out stats index row w Hw Hvar Hinv)
    as (out' & Hbody & _ & Hno & Hyes).
  rewrite Hbody. do 2 f_equal.
  assert (Hc : has_cells ds row = (0 <? size w))
    by (unfold has_cells; now rewrite Hw).
  rewrite Hc. destruct (0 <? size w) eqn:Hsize; [|now apply Hno].
  destruct (Hyes eq_refl) as (Hpos & values & Hlen & Hout).
  pose proof (aggregate_window ds varname row w Hw Hvar) as Ha.
  rewrite Hsize in Ha. destruct Ha as (vs & Ha & Hvs & Hget).
  assert (Hseries : series_of ds varname row = map Frame.of_float vs)
    by (unfold series_of; now rewrite Ha).
  (* the column the body sets is the one of the series *)
  rewrite (loop_body_aggregate ds varname out stats index row w Hw) in Hbody.
  rewrite Ha in Hbody. cbn [rbind] in Hbody. cbv zeta in Hbody.
  rewrite Hseries. unfold axis_column.
  assert (Htl : length (map Frame.Time (grid_timesteps ds)) = npoints ds).
  { rewrite length_map. unfold grid_timesteps, npoints.
    apply length_stacked. intros. apply length_map. }
  assert (Hvl : length (map Frame.of_float vs) = npoints ds)
    by now rewrite length_map.
  destruct Hinv as [->|(_ & Hidx & _)].
  - change (Frame.len Frame.empty =? 0) with true in *. cbv iota in *.
    rewrite setitem_empty in Hbody by lia. cbn [rbind] in Hbody.
    rewrite setitem_established in Hbody by (simpl; lia).
    cbn [rbind Frame.index Frame.columns] in Hbody.
    rewrite Htl in Hbody. now injection Hbody as <-.
  - unfold Frame.len in *. rewrite Hidx in *.
    destruct (npoints ds =? 0) eqn:E; [apply Nat.eqb_eq in E; lia|].
    cbn [rbind] in Hbody.
    rewrite setitem_established in Hbody by lia.
    cbn [rbind] in Hbody. rewrite Hidx in Hbody.
    now injection Hbody as <-.
Qed.

Section Columns.

Variables (ds : Dataset) (varname : string).
Hypothesis Hlon : monotonic (longitude ds) = true.
Hypothesis Hlat : monotonic (latitude ds) = true.
Hypothesis Hvar : has_var ds varname = true.

(** One iteration on a grid with monotonic axes. *)
Lemma step_series (out : Frame.DataFrame) (stats : list StatsRow)
      (index : nat) (row : Row) :
  table_inv ds out ->
  exists w out',
    this_dataset ds row = Ok w
    /\ loop_body ds varname (out, stats) index row
       = Ok (out', stats ++ [stats_row index row w])
    /\ table_inv ds out'
    /\ out' = (if has_cells ds row
               then {| Frame.index := npoints ds;
                       Frame.columns :=
                         Frame.assign (shapeName row)
                           (series_of ds varname row)
                           (if Frame.len out =? 0
                            then [("timestep", axis_column ds)]
                            else Frame.columns out) |}
               else out)
    /\ (has_cells ds row = true -> 0 < npoints ds).
Proof.
  intros Hinv.
  destruct (step_total ds varname Hlon Hlat Hvar out stats index row Hinv)
    as (w & out' & Hw & _ & Hbody & Hinv' & _ & Hyes).
  exists w, out'. split; [exact Hw|]. split; [exact Hbody|].
  split; [exact Hinv'|].
  rewrite (loop_body_series ds varname out stats index row w Hw Hvar Hinv)
    in Hbody.
  injection Hbody as <-. split; [reflexivity|].
  intros Hc. now destruct (Hyes Hc).
Qed.

Lemma iterrows_lookup (rows : list Row) :
  forall (st : LoopState) (index : nat),
    table_inv ds (fst st) ->
    exists st',
      iterrows ds varname st index rows = Ok st'
      /\ forall name,
           lookup name (Frame.columns (fst st'))
           = match last_named ds name rows with
             | Some r => Some (series_of ds varname r)
             | None =>
                 if (Frame.len (fst st) =? 0) && existsb (has_cells ds) rows
                 then if String.eqb name "timestep"
                      then Some (axis_column ds) else None
                 else lookup name (Frame.columns (fst st))
             end.
Proof.
  induction rows as [|row rows IH]; intros [out stats] index Hinv.
  - exists (out, stats). split; [reflexivity|]. intros name. simpl.
    now rewrite andb_false_r.
  - simpl in Hinv.
    destruct (step_series out stats index row Hinv)
      as (w & out' & Hw & Hbody & Hinv' & Hout & Hpos).
    destruct (IH (out', stats ++ [stats_row index row w]) (S index) Hinv')
      as (st' & Hrun & Hlookup).
    exists st'. cbn [iterrows]. rewrite Hbody. cbn [rbind].
    split; [exact Hrun|]. intros name. rewrite Hlookup.
    cbn [last_named existsb fst].
    destruct (last_named ds name rows) as [r|]; [reflexivity|].
    destruct (has_cells ds row) eqn:Hc.
    + assert (Hlen : (Frame.len out' =? 0) = false).
      { rewrite Hout. unfold Frame.len. simpl.
        apply Nat.eqb_neq. specialize (Hpos eq_refl). lia. }
      rewrite Hlen. cbn [andb orb]. rewrite andb_true_r, Hout.
      cbn [Frame.columns].
      destruct (String.eqb name (shapeName row)) eqn:E.
      * apply String.eqb_eq in E. subst name. apply lookup_assign_same.
      * rewrite lookup_assign_other
          by (intros Heq; subst name; rewrite String.eqb_refl in E;
              discriminate).
        destruct (Frame.len out =? 0); [|reflexivity].
        simpl. now destruct (String.eqb name "timestep").
    + rewrite andb_false_r. cbn [orb]. now rewrite Hout.
Qed.

Lemma assign_fresh (key : string) (value : list Frame.cell)
      (cols : list (string * list Frame.cell)) :
  ~ In key (map fst cols) -> Frame.assign key value cols = cols ++ [(key, value)].
Proof.
  induction cols as [|[k v] cols IH]; intros H; [reflexivity|].
  simpl in *. destruct (String.eqb key k) eqn:E.
  - apply String.eqb_eq in E. subst k. exfalso. apply H. now left.
  - f_equal. apply IH. intros Hin. apply H. now right.
Qed.

Lemma iterrows_columns (rows : list Row) :
  forall (st : LoopState) (index : nat),
    table_inv ds (fst st) ->
    NoDup (map shapeName rows) ->
    (forall r, In r rows ->
               shapeName r <> "timestep"
               /\ ~ In (shapeName r) (map fst (Frame.columns (fst st)))) ->
    exists st',
      iterrows ds varname st index rows = Ok st'
      /\ Frame.columns (fst st')
         = (if (Frame.len (fst st) =? 0) && existsb (has_cells ds) rows
            then [("timestep", axis_column ds)]
            else Frame.columns (fst st))
           ++ map (fun r => (shapeName r, series_of ds varname r))
                  (filter (has_cells ds) rows).
Proof.
  induction rows as [|row rows IH]; intros [out stats] index Hinv Hnd Hfresh.
  - exists (out, stats). split; [reflexivity|]. simpl.
    now rewrite andb_false_r, app_nil_r.
  - simpl in Hinv, Hfresh. cbn [map] in Hnd.
    apply NoDup_cons_iff in Hnd. destruct Hnd as [Hnotin Hnd].
    destruct (step_series out stats index row Hinv)
      as (w & out' & Hw & Hbody & Hinv' & Hout & Hpos).
    destruct (Hfresh row (or_introl eq_refl)) as [Hts Hrow].
    assert (Hbase : ~ In (shapeName row)
                      (map fst (if Frame.len out =? 0
                                then [("timestep", axis_column ds)]
                                else Frame.columns out))).
    { destruct (Frame.len out =? 0); [|exact Hrow].
      simpl. intros [H|[]]. now apply Hts. }
    destruct (IH (out', stats ++ [stats_row index row w]) (S index) Hinv' Hnd)
      as (st' & Hrun & Hcols).
    { intros r Hr. destruct (Hfresh r (or_intror Hr)) as [Hrts Hrout].
      split; [exact Hrts|]. cbn [fst]. rewrite Hout.
      destruct (has_cells ds row); [|exact Hrout].
      cbn [Frame.columns]. rewrite assign_fresh by exact Hbase.
      rewrite map_app, in_app_iff. simpl. intros [H|[H|[]]].
      - destruct (Frame.len out =? 0); [|now apply Hrout].
        simpl in H. destruct H as [H|[]]. now apply Hrts.
      - apply Hnotin. rewrite H. now apply in_map. }
    exists st'. cbn [iterrows]. rewrite Hbody. cbn [rbind].
    split; [exact Hrun|]. rewrite Hcols. cbn [fst existsb filter].
    destruct (has_cells ds row) eqn:Hc.
    + assert (Hlen : (Frame.len out' =? 0) = false).
      { rewrite Hout. unfold Frame.len. simpl.
        apply Nat.eqb_neq. specialize (Hpos eq_refl). lia. }
      rewrite Hlen. cbn [andb orb map]. rewrite andb_true_r, Hout.
      cbn [Frame.columns]. rewrite assign_fresh by exact Hbase.
      now rewrite <- app_assoc.
    + cbn [orb]. now rewrite Hout.
Qed.

End Columns.

(** ** The axis is set once *)

Lemma last_named_without_cells (ds : Dataset) (name : string)
      (pre rows : list Row) :
  existsb (has_cells ds) pre = false ->
  last_named ds name (pre ++ rows) = last_named ds name rows.
Proof.
  induction pre as [|r pre IH]; intros Hpre; [reflexivity|].
  simpl in Hpre. apply orb_false_iff in Hpre. destruct Hpre as [Hr Hpre].
  cbn [app last_named]. rewrite (IH Hpre), Hr, andb_false_r.
  now destruct (last_named ds name rows).
Qed.

(** An iteration that finds the table with its index set touches no
    column but the one of its region, and keeps the index. *)
Lemma loop_body_frame (ds : Dataset) (varname : string)
      (out : Frame.DataFrame) (stats : list StatsRow) (index : nat)
      (r : Row) (out' : Frame.DataFrame) (stats' : list StatsRow) :
  Frame.len out <> 0 ->
  loop_body ds varname (out, stats) index r = Ok (out', stats') ->
  Frame.len out' = Frame.len out
  /\ forall name,
       name <> shapeName r ->
       lookup name (Frame.columns out') = lookup name (Frame.columns out).
Proof.
  intros Hlen H. unfold loop_body in H.
  destruct (this_dataset ds r) as [w|e]; [|discriminate H].
  cbn [rbind] in H. destruct (getitem w varname); [|discriminate H].
  cbn [rbind] in H.
  destruct (0 <? size w); [|injection H as <- _; now split].
  cbv zeta in H. apply Nat.eqb_neq in Hlen. rewrite Hlen in H.
  cbn [rbind] in H.
  destruct (stacked_getitem (stacked_data (clip w (geometry r))) varname)
    as [values|e]; [|discriminate H].
  cbn [rbind] in H. unfold Frame.setitem in H.
  unfold Frame.len in Hlen. rewrite Hlen in H. cbn [andb] in H.
  destruct (length (map Frame.of_float values) =? Frame.index out);
    [|discriminate H].
  cbn [rbind] in H. injection H as <- _. split; [reflexivity|].
  intros name Hname. cbn [Frame.columns].
  apply lookup_assign_other. congruence.
Qed.

(** C5.  On a grid with monotonic axes that holds the variable, let a
    region with cells in its window come after regions that have none.
    Then the iterations of those regions set no column and leave the
    table the empty one; the iteration of that region sets the axis,
    which holds the time plus the step of every (time, step) pair of the
    grid, of which there is one at least, and then its column; and no
    later iteration sets the axis: an iteration that finds the table
    with its index set keeps the index and touches no column but the one
    of its region, whatever the table holds.  So the loop ends with a
    row per (time, step) pair and, in the column [timestep], the axis
    set at that region, unless a region with cells is itself named
    [timestep], whose series then stands there. *)
Theorem axis_established_once
        (ds : Dataset) (varname : string)
        (pre : list Row) (row : Row) (post : list Row) :
  monotonic (longitude ds) = true ->
  monotonic (latitude ds) = true ->
  has_var ds varname = true ->
  existsb (has_cells ds) pre = false ->
  has_cells ds row = true ->
  branches ds varname (Frame.empty, []) 0 (pre ++ row :: post)
  = map (fun _ => NoColumn) pre
    ++ AxisAndColumn
    :: map (fun r => if has_cells ds r then ColumnOnly else NoColumn) post
  /\ (exists stats,
        iterrows ds varname (Frame.empty, []) 0 pre = Ok (Frame.empty, stats))
  /\ 0 < npoints ds
  /\ (exists values stats,
        length values = npoints ds
        /\ iterrows ds varname (Frame.empty, []) 0 (pre ++ [row])
           = Ok ({| Frame.index := npoints ds;
                    Frame.columns :=
                      Frame.assign (shapeName row) values
                        [("timestep", map Frame.Time (grid_timesteps ds))] |},
                 stats))
  /\ (forall out stats index r out' stats',
        Frame.len out <> 0 ->
        loop_body ds varname (out, stats) index r = Ok (out', stats') ->
        Frame.len out' = Frame.len out
        /\ forall name,
             name <> shapeName r ->
             lookup name (Frame.columns out')
             = lookup name (Frame.columns out))
  /\ exists out stats,
       iterrows ds varname (Frame.empty, []) 0 (pre ++ row :: post)
       = Ok (out, stats)
       /\ Frame.len out = npoints ds
       /\ lookup "timestep" (Frame.columns out)
          = match last_named ds "timestep" (row :: post) with
            | Some r => Some (series_of ds varname r)
            | None => Some (axis_column ds)
            end.
Proof.
  intros Hlon Hlat Hvar Hpre Hrow.
  destruct (branches_prefix ds varname row post Hlon Hlat Hvar Hrow
                            pre [] 0 Hpre)
    as (Hbr & Hempty & Hpos & Hfirst).
  split; [exact Hbr|]. split; [exact Hempty|]. split; [exact Hpos|].
  split; [exact Hfirst|]. split; [apply loop_body_frame|].
  assert (Hsome : existsb (has_cells ds) (pre ++ row :: post) = true).
  { rewrite existsb_app. cbn [existsb]. rewrite Hrow.
    now rewrite orb_true_r. }
  destruct (iterrows_lookup ds varname Hlon Hlat Hvar (pre ++ row :: post)
                            (Frame.empty, []) 0)
    as ([out stats] & Hrun & Hlookup); [now left|].
  exists out, stats. split; [exact Hrun|].
  specialize (Hlookup "timestep"). cbn [fst] in Hlookup.
  rewrite (last_named_without_cells ds "timestep" pre (row :: post) Hpre)
    in Hlookup.
  rewrite Hsome in Hlookup.
  change (Frame.len Frame.empty =? 0) with true in Hlookup.
  cbn [andb] in Hlookup.
  change (String.eqb "timestep" "timestep") with true in Hlookup.
  cbv iota in Hlookup. split; [|exact Hlookup].
  destruct (iterrows_total ds varname Hlon Hlat Hvar (pre ++ row :: post)
                           (Frame.empty, []) 0)
    as (st' & Hrun' & Hinv & _ & _ & Hne); [now left|].
  rewrite Hrun in Hrun'. injection Hrun' as <-. cbn [fst] in Hinv, Hne.
  destruct Hinv as [Heq|(_ & Hidx & _)]; [now destruct (Hne Hsome)|].
  exact Hidx.
Qed.

Lemma axis_established_once_witness :
  branches Sample.era5 "t2m" (Frame.empty, []) 0
           ([Sample.far] ++ Sample.corner :: [Sample.whole])
  = map (fun _ => NoColumn) [Sample.far]
    ++ AxisAndColumn
    :: map (fun r => if has_cells Sample.era5 r then ColumnOnly else NoColumn)
           [Sample.whole]
  /\ (exists stats,
        iterrows Sample.era5 "t2m" (Frame.empty, []) 0 [Sample.far]
        = Ok (Frame.empty, stats))
  /\ 0 < npoints Sample.era5
  /\ (exists values stats,
        length values = npoints Sample.era5
        /\ iterrows Sample.era5 "t2m" (Frame.empty, []) 0
                    ([Sample.far] ++ [Sample.corner])
           = Ok ({| Frame.index := npoints Sample.era5;
                    Frame.columns :=
                      Frame.assign (shapeName Sample.corner) values
                        [("timestep",
                          map Frame.Time (grid_timesteps Sample.era5))] |},
                 stats))
  /\ (forall out stats index r out' stats',
        Frame.len out <> 0 ->
        loop_body Sample.era5 "t2m" (out, stats) index r = Ok (out', stats') ->
        Frame.len out' = Frame.len out
        /\ forall name,
             name <> shapeName r ->
             lookup name (Frame.columns out')
             = lookup name (Frame.columns out))
  /\ exists out stats,
       iterrows Sample.era5 "t2m" (Frame.empty, []) 0
                ([Sample.far] ++ Sample.corner :: [Sample.whole])
       = Ok (out, stats)
       /\ Frame.len out = npoints Sample.era5
       /\ lookup "timestep" (Frame.columns out)
          = Some (axis_column Sample.era5).
Proof.
  apply (axis_established_once Sample.era5 "t2m"
           [Sample.far] Sample.corner [Sample.whole]); reflexivity.
Defined.

(** X3.  On a grid with monotonic axes that holds the variable, the
    loop leaves under every name the series of the last region so named
    that has cells in its window: a later region replaces the column of
    an earlier one of the same name, and a region named [timestep]
    replaces the axis.  A name no such region bears has no column, but
    for [timestep], which holds the composite time axis as soon as one
    region has cells. *)
Theorem columns_hold_last_series
        (ds : Dataset) (varname : string) (rows : list Row) :
  monotonic (longitude ds) = true ->
  monotonic (latitude ds) = true ->
  has_var ds varname = true ->
  exists out stats,
    iterrows ds varname (Frame.empty, []) 0 rows = Ok (out, stats)
    /\ forall name,
         lookup name (Frame.columns out)
         = match last_named ds name rows with
           | Some r => Some (series_of ds varname r)
           | None =>
               if existsb (has_cells ds) rows && String.eqb name "timestep"
               then Some (axis_column ds) else None
           end.
Proof.
  intros Hlon Hlat Hvar.
  destruct (iterrows_lookup ds varname Hlon Hlat Hvar rows (Frame.empty, []) 0)
    as ([out stats] & Hrun & Hlookup); [now left|].
  exists out, stats. split; [exact Hrun|]. intros name.
  rewrite Hlookup. cbn [fst]. change (Frame.len Frame.empty =? 0) with true.
  cbn [andb]. destruct (last_named ds name rows); [reflexivity|].
  destruct (existsb (has_cells ds) rows); reflexivity.
Qed.

Lemma columns_hold_last_series_witness :
  exists out stats,
    iterrows Sample.era5 "t2m" (Frame.empty, []) 0
             [Sample.far; Sample.corner; Sample.whole] = Ok (out, stats)
    /\ forall name,
         lookup name (Frame.columns out)
         = match last_named Sample.era5 name
                            [Sample.far; Sample.corner; Sample.whole] with
           | Some r => Some (series_of Sample.era5 "t2m" r)
           | None =>
               if existsb (has_cells Sample.era5)
                          [Sample.far; Sample.corner; Sample.whole]
                  && String.eqb name "timestep"
               then Some (axis_column Sample.era5) else None
           end.
Proof.
  apply (columns_hold_last_series
           Sample.era5 "t2m" [Sample.far; Sample.corner; Sample.whole]);
    reflexivity.
Defined.

(** X4.  On a grid with monotonic axes that holds the variable, with
    regions of distinct names none of which is [timestep], the table
    the loop leaves has the axis first and then one column per region
    with cells in its window, in the order of the regions: a region
    without cells has no column. *)
Theorem columns_in_region_order
        (ds : Dataset) (varname : string) (rows : list Row) :
  monotonic (longitude ds) = true ->
  monotonic (latitude ds) = true ->
  has_var ds varname = true ->
  NoDup (map shapeName rows) ->
  ~ In "timestep" (map shapeName rows) ->
  existsb (has_cells ds) rows = true ->
  exists stats,
    iterrows ds varname (Frame.empty, []) 0 rows
    = Ok ({| Frame.index := npoints ds;
             Frame.columns :=
               ("timestep", axis_column ds)
               :: map (fun r => (shapeName r, series_of ds varname r))
                      (filter (has_cells ds) rows) |},
          stats).
Proof.
  intros Hlon Hlat Hvar Hnd Hts Hsome.
  destruct (iterrows_columns ds varname Hlon Hlat Hvar rows
                             (Frame.empty, []) 0)
    as ([out stats] & Hrun & Hcols); [now left|exact Hnd| |].
  { intros r Hr. split; [|intros []].
    intros Heq. apply Hts. rewrite <- Heq. now apply in_map. }
  cbn [fst] in Hcols. change (Frame.len Frame.empty =? 0) with true in Hcols.
  rewrite Hsome in Hcols. cbn [andb app] in Hcols.
  destruct (iterrows_total ds varname Hlon Hlat Hvar rows (Frame.empty, []) 0)
    as (st' & Hrun' & Hinv & _ & _ & Hne); [now left|].
  rewrite Hrun in Hrun'. injection Hrun' as <-. cbn [fst] in Hinv, Hne.
  specialize (Hne Hsome).
  destruct Hinv as [->|(_ & Hidx & _)]; [congruence|].
  exists stats. rewrite Hrun. do 2 f_equal.
  destruct out as [idx cols]. simpl in *. now subst.
Qed.

Lemma columns_in_region_order_witness :
  exists stats,
    iterrows Sample.era5 "t2m" (Frame.empty, []) 0
             [Sample.far; Sample.corner; Sample.whole]
    = Ok ({| Frame.index := npoints Sample.era5;
             Frame.columns :=
               ("timestep", axis_column Sample.era5)
               :: map (fun r => (shapeName r, series_of Sample.era5 "t2m" r))
                      (filter (has_cells Sample.era5)
                              [Sample.far; Sample.corner; Sample.whole]) |},
          stats).
Proof.
  apply (columns_in_region_order
           Sample.era5 "t2m" [Sample.far; Sample.corner; Sample.whole]);
    try reflexivity.
  - repeat constructor; simpl; intuition discriminate.
  - simpl. intuition discriminate.
Defined.

(** ** The statistics table *)

Lemma ascending_monotonic (a : list Q) : ascending a = true -> monotonic a = true.
Proof. intros H. unfold monotonic. now rewrite H. Qed.

Lemma descending_monotonic (a : list Q) :
  descending a = true -> monotonic a = true.
Proof. intros H. unfold monotonic. rewrite H. apply orb_true_r. Qed.

(** The axes of the window of a region, on a grid whose longitudes ascend
    and whose latitudes descend. *)
Lemma window_axes (ds : Dataset) (row : Row) (w : Dataset) :
  ascending (longitude ds) = true ->
  descending (latitude ds) = true ->
  this_dataset ds row = Ok w ->
  length (latitude w) * length (longitude w) = box_cells ds row.
Proof.
  intros Hlon Hlat Hw. unfold this_dataset, box_cells in *.
  destruct (total_bounds (geometry row)) as [[[xmin ymin] xmax] ymax].
  destruct (slice_ascending (longitude ds) xmin xmax Hlon)
    as (j0 & j1 & Hj & Hjf).
  destruct (slice_descending (latitude ds) ymin ymax Hlat)
    as (i0 & i1 & Hi & Hif).
  destruct (sel_cut ds xmin xmax ymax ymin i0 i1 j0 j1 Hj Hi)
    as (w' & Hw' & _ & _ & Hla & Hlo & _).
  rewrite Hw in Hw'. injection Hw' as <-.
  now rewrite Hla, Hlo, Hif, Hjf.
Qed.

Lemma iterrows_stats (ds : Dataset) (varname : string) (rows : list Row) :
  ascending (longitude ds) = true ->
  descending (latitude ds) = true ->
  has_var ds varname = true ->
  forall (st : LoopState) (index : nat),
    table_inv ds (fst st) ->
    exists st',
      iterrows ds varname st index rows = Ok st'
      /\ snd st'
         = snd st
           ++ map (fun ir => box_stats ds (fst ir) (snd ir))
                  (combine (seq index (length rows)) rows).
Proof.
  intros Hlon Hlat Hvar.
  induction rows as [|row rows IH]; intros [out stats] index Hinv.
  - exists (out, stats). simpl. now rewrite app_nil_r.
  - simpl in Hinv.
    destruct (step_total ds varname
                (ascending_monotonic _ Hlon) (descending_monotonic _ Hlat)
                Hvar out stats index row Hinv)
      as (w & out' & Hw & _ & Hbody & Hinv' & _).
    destruct (IH (out', stats ++ [stats_row index row w]) (S index) Hinv')
      as (st' & Hrun & Hstats).
    exists st'. cbn [iterrows]. rewrite Hbody. cbn [rbind].
    split; [exact Hrun|]. rewrite Hstats. cbn [snd length seq combine map].
    rewrite <- app_assoc. do 2 f_equal.
    unfold stats_row, box_stats. cbn [fst snd].
    now rewrite (window_axes ds row w Hlon Hlat Hw).
Qed.

(** X5.  On a grid whose longitudes ascend and whose latitudes descend,
    and that holds the variable, the loop leaves one row of statistics
    per region, in the order of the regions and whether or not the region
    has a series: its position, its name, its code, its area in km2
    rounded to two decimals, and the number of cells of the grid in its
    bounding box, which the shape of the region inside the box does not
    change. *)
Theorem stats_one_row_per_region
        (ds : Dataset) (varname : string) (rows : list Row) :
  ascending (longitude ds) = true ->
  descending (latitude ds) = true ->
  has_var ds varname = true ->
  exists out,
    iterrows ds varname (Frame.empty, []) 0 rows
    = Ok (out, map (fun ir => box_stats ds (fst ir) (snd ir))
                   (combine (seq 0 (length rows)) rows)).
Proof.
  intros Hlon Hlat Hvar.
  destruct (iterrows_stats ds varname rows Hlon Hlat Hvar (Frame.empty, []) 0)
    as ([out stats] & Hrun & Hstats); [now left|].
  exists out. rewrite Hrun. simpl in Hstats. now rewrite Hstats.
Qed.

Lemma stats_one_row_per_region_witness :
  exists out,
    iterrows Sample.era5 "t2m" (Frame.empty, []) 0
             [Sample.far; Sample.corner; Sample.whole]
    = Ok (out, map (fun ir => box_stats Sample.era5 (fst ir) (snd ir))
                   (combine (seq 0 3)
                            [Sample.far; Sample.corner; Sample.whole])).
Proof.
  apply (stats_one_row_per_region
           Sample.era5 "t2m" [Sample.far; Sample.corner; Sample.whole]);
    reflexivity.
Defined.

(** ** The two files are written last, or not at all *)

Lemma no_write_forallb (l : list event) :
  forallb no_write l = true <-> existsb is_write l = false.
Proof.
  induction l as [|ev l IH]; simpl; [tauto|].
  unfold no_write at 1. rewrite andb_true_iff, orb_false_iff, negb_true_iff.
  tauto.
Qed.

Lemma adds_ret {A} (P : event -> bool) (a : A) : adds P (ret a).
Proof. intros tr. exists []. simpl. now rewrite app_nil_r. Qed.

Lemma adds_raise {A} (P : event -> bool) (e : exn) : adds P (@raise A e).
Proof. intros tr. exists []. simpl. now rewrite app_nil_r. Qed.

Lemma adds_lift {A} (P : event -> bool) (r : result A) : adds P (lift r).
Proof. intros tr. exists []. simpl. now rewrite app_nil_r. Qed.

Lemma adds_emit (P : event -> bool) (ev : event) :
  P ev = true -> adds P (emit ev).
Proof. intros H tr. exists [ev]. simpl. now rewrite H. Qed.

Lemma adds_bind {A B} (P : event -> bool) (m : M A) (k : A -> M B) :
  adds P m -> (forall a, adds P (k a)) -> adds P (bind m k).
Proof.
  intros Hm Hk tr. unfold bind. destruct (Hm tr) as (more & Hmore & HP).
  destruct (m tr) as [[a|e] tr']; simpl in Hmore; subst tr'.
  - destruct (Hk a (tr ++ more)) as (more' & Hmore' & HP').
    exists (more ++ more'). rewrite Hmore', app_assoc. split; [reflexivity|].
    rewrite forallb_app. now rewrite HP, HP'.
  - now exists more.
Qed.

Create HintDb quiet.

#[local] Hint Resolve adds_ret adds_raise adds_lift adds_bind : quiet.
#[local] Hint Extern 1 (adds _ (emit _)) =>
  apply adds_emit; reflexivity : quiet.

Lemma adds_fail {A} (m : message) : adds no_write (@fail A m).
Proof. unfold fail. auto with quiet. Qed.

#[local] Hint Resolve adds_fail : quiet.

Lemma adds_load_grib (env : Env) (inputfile : string) :
  adds no_write (load_grib env inputfile).
Proof.
  unfold load_grib. destruct (path_exists env inputfile); auto with quiet.
Qed.

Lemma adds_check_varname (ds : Dataset) (varname : string) :
  adds no_write (check_varname ds varname).
Proof.
  unfold check_varname. destruct (negb _); auto with quiet.
Qed.

Lemma adds_check_country (env : Env) (country : string) :
  adds no_write (check_country env country).
Proof.
  unfold check_country. destruct (negb _); auto with quiet.
Qed.

Lemma adds_output_file (outputfile : string) :
  adds no_write (output_file outputfile).
Proof.
  unfold output_file. destruct (negb _); auto with quiet.
Qed.

Lemma adds_request (env : Env) (country : string) :
  adds no_write (request env country).
Proof.
  unfold request. destruct (get_json env (url country)); auto 6 with quiet.
Qed.

Lemma adds_check_adm_level (adm_level : string) :
  adds no_write (check_adm_level adm_level).
Proof.
  unfold check_adm_level. destruct (Text.int adm_level) as [n|];
    [destruct (_ || _)|]; auto with quiet.
Qed.

Lemma adds_select_adm (r : option Response) (adm_level : Z)
      (country : string) :
  adds no_write (select_adm r adm_level country).
Proof.
  assert (Hitem : forall r i, adds no_write (item r i))
    by (intros r0 i; unfold item; destruct (nth_error r0 _);
        auto with quiet).
  unfold select_adm. destruct r as [r|]; [|auto with quiet].
  destruct (2 <? length r); auto with quiet.
Qed.

Lemma adds_read_boundary (env : Env) (selected_adm : AdmRecord) :
  adds no_write (read_boundary env selected_adm).
Proof.
  unfold read_boundary. destruct (lookup _ selected_adm); auto with quiet.
Qed.

Lemma adds_for_rows (ds : Dataset) (varname : string) (shape0 : nat)
      (rows : list Row) :
  forall st index, adds no_write (for_rows ds varname shape0 st index rows).
Proof.
  induction rows as [|row rows IH]; intros st index; simpl;
    auto 6 with quiet.
Qed.

#[local] Hint Resolve adds_load_grib adds_check_varname adds_check_country
  adds_output_file adds_request adds_check_adm_level adds_select_adm
  adds_read_boundary adds_for_rows : quiet.

Lemma writes_at_end_save (target : string) (st : LoopState) :
  writes_at_end (save target st).
Proof.
  intros tr Htr. unfold save, bind, emit. cbn.
  exists tr, target, (fst st), (snd st). split; [|exact Htr].
  now rewrite <- app_assoc.
Qed.

Lemma writes_at_end_bind {A} (m : M A) (k : A -> M unit) :
  adds no_write m -> (forall a, writes_at_end (k a)) ->
  writes_at_end (bind m k).
Proof.
  intros Hm Hk tr Htr. unfold bind.
  destruct (Hm tr) as (more & Hmore & Hquiet).
  apply no_write_forallb in Hquiet.
  assert (Htr' : existsb is_write (tr ++ more) = false)
    by now rewrite existsb_app, Htr, Hquiet.
  destruct (m tr) as [[a|e] tr']; simpl in Hmore; subst tr'.
  - now apply Hk.
  - exact Htr'.
Qed.

(** X6.  Whatever the arguments and the world, a run either raises
    without having written any file, or ends after having written the
    table and then the statistics, to the path of the table followed by
    [.csv], as the last two things it does: no file is written before
    every step before the save has succeeded, and none is written twice. *)
Theorem files_written_last_or_never
        (env : Env) (inputfile outputfile varname adm_level country : string) :
  match extract_time_series env inputfile outputfile varname
                            adm_level country [] with
  | (Ok _, tr) =>
      exists before target out stats,
        tr = before ++ [ToParquet target out;
                        ToCsv (target ++ ".csv")%string stats]
        /\ existsb is_write before = false
  | (Raise _, tr) => existsb is_write tr = false
  end.
Proof.
  assert (H : writes_at_end
                (extract_time_series env inputfile outputfile varname
                                     adm_level country)).
  { unfold extract_time_series.
    do 9 (apply writes_at_end_bind; [auto with quiet|intros ?]).
    apply writes_at_end_save. }
  exact (H [] eq_refl).
Qed.

(** ** The level is read after the request *)

(** X7.  With the input file there, the variable in it, a known
    country, and ASCII texts for the country and the level: a level
    that [int] refuses stops the run with the exception of [int], and a
    level that is a number outside 0..2 with the exception of the range
    check, in both cases only after the boundary service has been
    asked: the request is in the trace, and no boundary file is read. *)
Theorem level_checked_after_request
        (env : Env) (inputfile outputfile varname adm_level country : string)
        (e : exn) :
  path_exists env inputfile = true ->
  has_var (open_dataset env inputfile) varname = true ->
  Text.isascii country = true ->
  mem (Text.upper country) (countries env) = true ->
  Text.isascii adm_level = true ->
  (Text.int adm_level = None /\ e = ValueError_int adm_level)
  \/ ((exists n, Text.int adm_level = Some n /\ (n < 0 \/ 2 < n)%Z)
      /\ e = Exception AdmLevelRange) ->
  exists tr,
    extract_time_series env inputfile outputfile varname adm_level country []
    = (Raise e, tr)
    /\ In (Request (url (Text.upper country))) tr
    /\ forall path, ~ In (ReadFile path) tr.
Proof.
  intros Hfile Hvar _ Hc _ Hlevel. unfold extract_time_series.
  erewrite bind_ok by (now apply load_grib_found).
  erewrite bind_ok by (now apply check_varname_present).
  erewrite bind_ok by (now apply check_country_valid).
  destruct (output_file_trace outputfile ([] ++ [OpenDataset inputfile]))
    as (target & warn & Hout & Hwarn).
  erewrite bind_ok by exact Hout.
  destruct (request_made env (Text.upper country)
                         (([] ++ [OpenDataset inputfile]) ++ warn))
    as (r & more & Hreq).
  assert (Hmore : more = [] \/ more = [Log ERROR ErrorRequestingShapefile]).
  { destruct (get_json env (url (Text.upper country))) as [r'|] eqn:E.
    - rewrite (request_answered env _ r') in Hreq by exact E.
      injection Hreq as _ Hreq. apply app_inv_head in Hreq.
      injection Hreq as <-. now left.
    - rewrite request_failed in Hreq by exact E.
      injection Hreq as _ Hreq. apply app_inv_head in Hreq.
      injection Hreq as <-. now right. }
  erewrite bind_ok by exact Hreq.
  unfold bind.
  destruct Hlevel as [(Hnone & ->)|((n & Hint & Hn) & ->)].
  - rewrite check_adm_level_not_a_number by exact Hnone.
    eexists. split; [reflexivity|]. split.
    + apply in_or_app. right. now left.
    + intros path Hin.
      destruct Hwarn as [-> | ->], Hmore as [-> | ->];
        simpl in Hin; intuition discriminate.
  - rewrite (check_adm_level_out_of_range adm_level n) by assumption.
    eexists. split; [reflexivity|]. split.
    + apply in_or_app. left. apply in_or_app. right. now left.
    + intros path Hin.
      destruct Hwarn as [-> | ->], Hmore as [-> | ->];
        simpl in Hin; intuition discriminate.
Qed.

Lemma level_checked_after_request_witness :
  (exists tr,
     extract_time_series Sample.env "era5.grib" "out" "t2m" "one" "ita" []
     = (Raise (ValueError_int "one"), tr)
     /\ In (Request (url (Text.upper "ita"))) tr
     /\ forall path, ~ In (ReadFile path) tr)
  /\ (exists tr,
        extract_time_series Sample.env "era5.grib" "out" "t2m" "7" "ita" []
        = (Raise (Exception AdmLevelRange), tr)
        /\ In (Request (url (Text.upper "ita"))) tr
        /\ forall path, ~ In (ReadFile path) tr).
Proof.
  split.
  - apply (level_checked_after_request
             Sample.env "era5.grib" "out" "t2m" "one" "ita");
      try reflexivity.
    left. split; reflexivity.
  - apply (level_checked_after_request
             Sample.env "era5.grib" "out" "t2m" "7" "ita");
      try reflexivity.
    right. split; [|reflexivity]. exists 7%Z. split; [reflexivity|lia].
Defined.

(** ** The cells of a window *)


Lemma getslice_within {A} (l : list A) (i0 i1 i : nat) :
  i < length (Axis.getslice l i0 i1) -> i0 + i < length l.
Proof.
  unfold Axis.getslice. rewrite length_skipn, length_firstn. lia.
Qed.


(** ** A region whose shape keeps no cell *)





(** ** The progress bar *)

Lemma for_rows_prints (ds : Dataset) (varname : string) (shape0 : nat)
      (rows : list Row) :
  forall (st : LoopState) (index : nat) (tr : list event),
  exists reached,
    reached <= length rows
    /\ snd (for_rows ds varname shape0 st index rows tr)
       = tr ++ map (fun k => Print (80 * (k + 1) / shape0))
                   (seq index reached)
    /\ ((exists st', fst (for_rows ds varname shape0 st index rows tr)
                     = Ok st')
        -> reached = length rows).
Proof.
  induction rows as [|row rows IH]; intros st index tr.
  - exists 0. simpl. rewrite app_nil_r. repeat split. lia.
  - cbn [for_rows]. unfold bind at 1, emit. unfold bind at 1, lift.
    destruct (loop_body ds varname st index row) as [st'|e].
    + destruct (IH st' (S index) (tr ++ [Print (80 * (index + 1) / shape0)]))
        as (reached & Hle & Htr & Hok).
      exists (S reached). split; [simpl; lia|]. split.
      * rewrite Htr, <- app_assoc. reflexivity.
      * intros H. simpl. f_equal. now apply Hok.
    + exists 1. split; [simpl; lia|]. split; [reflexivity|].
      intros [st' H]. discriminate H.
Qed.

(** X10.  The loop prints one bar per region it reaches, before it works
    on the region: the bar of the region at position [k] of [n] has
    [80 * (k + 1) / n] signs, which is never more than 80, and a loop that
    reaches its end has printed a bar for every region, the last of them
    full. *)
Theorem progress_bar_fills
        (ds : Dataset) (varname : string) (rows : list Row)
        (tr : list event) :
  rows <> [] ->
  exists reached,
    reached <= length rows
    /\ snd (for_rows ds varname (length rows) (Frame.empty, []) 0 rows tr)
       = tr ++ map (fun k => Print (80 * (k + 1) / length rows))
                   (seq 0 reached)
    /\ (forall k, k < reached -> 80 * (k + 1) / length rows <= 80)
    /\ ((exists st, fst (for_rows ds varname (length rows)
                                  (Frame.empty, []) 0 rows tr) = Ok st)
        -> reached = length rows
           /\ 80 * (length rows - 1 + 1) / length rows = 80).
Proof.
  intros Hrows.
  assert (Hpos : 0 < length rows) by (destruct rows; [congruence|simpl; lia]).
  destruct (for_rows_prints ds varname (length rows) rows (Frame.empty, []) 0 tr)
    as (reached & Hle & Htr & Hok).
  exists reached. split; [exact Hle|]. split; [exact Htr|]. split.
  - intros k Hk. apply Nat.Div0.div_le_upper_bound. nia.
  - intros H. split; [now apply Hok|].
    replace (length rows - 1 + 1) with (length rows) by lia.
    apply Nat.div_mul. lia.
Qed.

Lemma progress_bar_fills_witness :
  exists reached,
    reached <= 3
    /\ snd (for_rows Sample.era5 "t2m" 3 (Frame.empty, []) 0
                     [Sample.far; Sample.corner; Sample.whole] [])
       = [] ++ map (fun k => Print (80 * (k + 1) / 3)) (seq 0 reached)
    /\ (forall k, k < reached -> 80 * (k + 1) / 3 <= 80)
    /\ ((exists st, fst (for_rows Sample.era5 "t2m" 3 (Frame.empty, []) 0
                                  [Sample.far; Sample.corner; Sample.whole] [])
                    = Ok st)
        -> reached = 3 /\ 80 * (3 - 1 + 1) / 3 = 80).
Proof.
  apply (progress_bar_fills Sample.era5 "t2m"
           [Sample.far; Sample.corner; Sample.whole] []).
  discriminate.
Defined.

(** ** The command line *)

Lemma getopt_argv_of (l : list Cli.given) :
  Cli.getopt (Cli.argv_of l) "hi:o:v:a:c:"
             ["ifile="; "ofile="; "varname="; "adm_level="; "country_iso3="]
  = Cli.Parsed (map Cli.entry l, []).
Proof.
  induction l as [|[[k long] arg] l IH]; [reflexivity|].
  change (Cli.argv_of (((k, long), arg) :: l))
    with (Cli.spelled k long :: arg :: Cli.argv_of l).
  destruct k, long; cbn; rewrite IH; reflexivity.
Qed.

Lemma for_opts_entries (l : list Cli.given) :
  forall vars,
    Cli.for_opts (map Cli.entry l) vars = Some (Cli.bind_all l vars).
Proof.
  induction l as [|[[k long] arg] l IH]; intros vars; [reflexivity|].
  destruct k, long; cbn; apply IH.
Qed.

Lemma length_argv_of (l : list Cli.given) :
  length (Cli.argv_of l) = 2 * length l.
Proof.
  induction l as [|g l IH]; [reflexivity|].
  unfold Cli.argv_of in *. cbn [flat_map app length]. rewrite IH. lia.
Qed.

Lemma get_set (k k' : Cli.key) (arg : string) (vars : Cli.locals) :
  Cli.get k (Cli.set k' arg vars)
  = if Cli.key_eqb k k' then Some arg else Cli.get k vars.
Proof. destruct k, k'; reflexivity. Qed.

Lemma key_eqb_eq (k k' : Cli.key) : Cli.key_eqb k k' = true <-> k = k'.
Proof. destruct k, k'; simpl; split; congruence. Qed.

Lemma get_bind_all_other (k : Cli.key) (l : list Cli.given) :
  ~ In k (map Cli.key_of l) ->
  forall vars, Cli.get k (Cli.bind_all l vars) = Cli.get k vars.
Proof.
  induction l as [|g l IH]; intros Hk vars; [reflexivity|].
  simpl in Hk. unfold Cli.bind_all in *. cbn [fold_left].
  rewrite IH by tauto. rewrite get_set.
  destruct (Cli.key_eqb k (Cli.key_of g)) eqn:E; [|reflexivity].
  apply key_eqb_eq in E. subst k. tauto.
Qed.

Lemma get_bind_all (k : Cli.key) (long : bool) (arg : string)
      (l : list Cli.given) :
  NoDup (map Cli.key_of l) -> In (k, long, arg) l ->
  forall vars, Cli.get k (Cli.bind_all l vars) = Some arg.
Proof.
  induction l as [|g l IH]; intros Hnd Hin vars; [contradiction|].
  cbn [map] in Hnd. apply NoDup_cons_iff in Hnd. destruct Hnd as [Hg Hnd].
  unfold Cli.bind_all in *. cbn [fold_left]. destruct Hin as [->|Hin].
  - fold (Cli.bind_all l (Cli.set k arg vars)).
    change (Cli.key_of (k, long, arg)) with k in *.
    rewrite get_bind_all_other by exact Hg.
    rewrite get_set. now destruct k.
  - now apply IH.
Qed.

Lemma five_keys_once (l : list Cli.given) :
  length l = 5 ->
  (forall k, In k (map Cli.key_of l)) ->
  NoDup (map Cli.key_of l).
Proof.
  intros Hlen Hall.
  apply (@NoDup_incl_NoDup _ [Cli.KI; Cli.KO; Cli.KV; Cli.KA; Cli.KC]).
  - repeat constructor; simpl; intuition discriminate.
  - rewrite length_map, Hlen. simpl. lia.
  - intros k _. apply Hall.
Qed.

(** X11.  A command line of ten arguments that gives each of the five
    options once with its value after it, in whatever order and each
    written with one dash and its letter or with two dashes and its full
    name, launches the extraction on the five values, whatever the
    values are. *)
Theorem main_launches_in_any_order
        (env : Env) (l : list Cli.given)
        (li lo lv la lc : bool) (i o v a c : string) :
  length l = 5 ->
  In (Cli.KI, li, i) l ->
  In (Cli.KO, lo, o) l ->
  In (Cli.KV, lv, v) l ->
  In (Cli.KA, la, a) l ->
  In (Cli.KC, lc, c) l ->
  Cli.main env (Cli.argv_of l) = Cli.run env i o v a c.
Proof.
  intros Hlen Hi Ho Hv Ha Hc.
  assert (Hnd : NoDup (map Cli.key_of l)).
  { apply five_keys_once; [exact Hlen|].
    intros k. destruct k;
      [ apply (in_map Cli.key_of _ _ Hi) | apply (in_map Cli.key_of _ _ Ho)
      | apply (in_map Cli.key_of _ _ Hv) | apply (in_map Cli.key_of _ _ Ha)
      | apply (in_map Cli.key_of _ _ Hc) ]. }
  unfold Cli.main. rewrite length_argv_of, Hlen. cbn [Nat.mul Nat.add Nat.eqb negb].
  rewrite getopt_argv_of, for_opts_entries. unfold Cli.launch.
  change (Cli.inputfile (Cli.bind_all l Cli.unbound))
    with (Cli.get Cli.KI (Cli.bind_all l Cli.unbound)).
  change (Cli.outputfile (Cli.bind_all l Cli.unbound))
    with (Cli.get Cli.KO (Cli.bind_all l Cli.unbound)).
  change (Cli.varname (Cli.bind_all l Cli.unbound))
    with (Cli.get Cli.KV (Cli.bind_all l Cli.unbound)).
  change (Cli.adm_level (Cli.bind_all l Cli.unbound))
    with (Cli.get Cli.KA (Cli.bind_all l Cli.unbound)).
  change (Cli.country (Cli.bind_all l Cli.unbound))
    with (Cli.get Cli.KC (Cli.bind_all l Cli.unbound)).
  rewrite (get_bind_all Cli.KI li i l Hnd Hi).
  rewrite (get_bind_all Cli.KO lo o l Hnd Ho).
  rewrite (get_bind_all Cli.KV lv v l Hnd Hv).
  rewrite (get_bind_all Cli.KA la a l Hnd Ha).
  rewrite (get_bind_all Cli.KC lc c l Hnd Hc).
  reflexivity.
Qed.

Lemma main_launches_in_any_order_witness :
  Cli.main Sample.env
           ["--country_iso3"; "ita"; "-v"; "t2m"; "-a"; "1";
            "--ofile"; "out"; "-i"; "era5.grib"]
  = Cli.run Sample.env "era5.grib" "out" "t2m" "1" "ita".
Proof.
  apply (main_launches_in_any_order
           Sample.env
           [(Cli.KC, true, "ita"); (Cli.KV, false, "t2m");
            (Cli.KA, false, "1"); (Cli.KO, true, "out");
            (Cli.KI, false, "era5.grib")]
           false true false false true);
    simpl; auto 6.
Defined.

(** X12.  A command line of ten arguments made of five options with
    their values, where one of the five options is not given (so that
    another is given twice), raises the error of a local variable that
    is not bound: the extraction is not launched and nothing is
    logged. *)
Theorem main_stops_on_missing_option
        (env : Env) (l : list Cli.given) (k : Cli.key) :
  length l = 5 ->
  ~ In k (map Cli.key_of l) ->
  exists name, Cli.main env (Cli.argv_of l) = ([], Cli.Unbound name).
Proof.
  intros Hlen Hk.
  unfold Cli.main. rewrite length_argv_of, Hlen.
  cbn [Nat.mul Nat.add Nat.eqb negb].
  rewrite getopt_argv_of, for_opts_entries.
  pose proof (get_bind_all_other k l Hk Cli.unbound) as Hget.
  unfold Cli.launch.
  destruct (Cli.inputfile (Cli.bind_all l Cli.unbound)) eqn:Ei;
    [|now eexists].
  destruct (Cli.outputfile (Cli.bind_all l Cli.unbound)) eqn:Eo;
    [|now eexists].
  destruct (Cli.varname (Cli.bind_all l Cli.unbound)) eqn:Ev;
    [|now eexists].
  destruct (Cli.adm_level (Cli.bind_all l Cli.unbound)) eqn:Ea;
    [|now eexists].
  destruct (Cli.country (Cli.bind_all l Cli.unbound)) eqn:Ec;
    [|now eexists].
  exfalso. destruct k; simpl in Hget; congruence.
Qed.

Lemma main_stops_on_missing_option_witness :
  exists name,
    Cli.main Sample.env
             ["-i"; "era5.grib"; "-i"; "other.grib"; "-v"; "t2m";
              "-c"; "ita"; "-a"; "1"]
    = ([], Cli.Unbound name).
Proof.
  apply (main_stops_on_missing_option
           Sample.env
           [(Cli.KI, false, "era5.grib"); (Cli.KI, false, "other.grib");
            (Cli.KV, false, "t2m"); (Cli.KC, false, "ita");
            (Cli.KA, false, "1")]
           Cli.KO); [reflexivity|].
  simpl. intuition discriminate.
Defined.

Lemma for_opts_help (opts : list (string * string)) (arg : string) :
  In ("-h", arg) opts -> forall vars, Cli.for_opts opts vars = None.
Proof.
  induction opts as [|[opt arg'] opts IH]; intros Hin vars; [contradiction|].
  cbn [Cli.for_opts]. destruct (String.eqb opt "-h") eqn:E; [reflexivity|].
  destruct Hin as [Hin|Hin].
  - injection Hin as -> _. rewrite String.eqb_refl in E. discriminate.
  - repeat match goal with
           | |- (if ?b then _ else _) = _ => destruct b
           end; now apply IH.
Qed.

(** X13.  On a command line of ten arguments that [getopt] reads, an
    [-h] among the options read makes [main] print the usage and exit:
    the extraction is not launched, whatever the other options are and
    wherever [-h] stands among them. *)
Theorem main_help_exits
        (env : Env) (argv : list string)
        (opts : list (string * string)) (rest : list string) (arg : string) :
  length argv = 10 ->
  Cli.getopt argv "hi:o:v:a:c:"
             ["ifile="; "ofile="; "varname="; "adm_level="; "country_iso3="]
  = Cli.Parsed (opts, rest) ->
  In ("-h", arg) opts ->
  Cli.main env argv = ([Cli.Stdout Cli.usage], Cli.SystemExit).
Proof.
  intros Hlen Hparse Hin. unfold Cli.main.
  rewrite Hlen, Hparse. cbn [Nat.eqb negb].
  now rewrite (for_opts_help opts arg Hin).
Qed.

Lemma main_help_exits_witness :
  Cli.main Sample.env
           ["-i"; "era5.grib"; "-o"; "out"; "-v"; "t2m"; "-c"; "ita";
            "-ha"; "1"]
  = ([Cli.Stdout Cli.usage], Cli.SystemExit).
Proof.
  apply (main_help_exits
           Sample.env _
           [("-i", "era5.grib"); ("-o", "out"); ("-v", "t2m"); ("-c", "ita");
            ("-h", ""); ("-a", "1")] [] "");
    [reflexivity|reflexivity|].
  simpl. auto 6.
Defined.

(** ** A run that ends normally *)

(** X14.  With the input file there, the variable in it, a known
    country, a level between 0 and 2 (country and level being ASCII
    texts), an answer of the service that has the record the level
    selects, with the path of its geometry, and a grid with monotonic
    axes, the run ends normally whatever the regions of the boundary
    file are: it reads that file, then writes a table whose columns are
    all as long as its index, and one row of statistics per region. *)
Theorem run_completes
        (env : Env) (inputfile outputfile varname adm_level country : string)
        (n : Z) (r : Response) (selected_adm : AdmRecord) (dlPath : string) :
  path_exists env inputfile = true ->
  has_var (open_dataset env inputfile) varname = true ->
  Text.isascii country = true ->
  mem (Text.upper country) (countries env) = true ->
  get_json env (url (Text.upper country)) = Some r ->
  Text.isascii adm_level = true ->
  Text.int adm_level = Some n -> (0 <= n <= 2)%Z ->
  nth_error r (if 2 <? length r then Z.to_nat n else 0) = Some selected_adm ->
  lookup "simplifiedGeometryGeoJSON" selected_adm = Some dlPath ->
  monotonic (longitude (open_dataset env inputfile)) = true ->
  monotonic (latitude (open_dataset env inputfile)) = true ->
  exists target before out stats,
    extract_time_series env inputfile outputfile varname adm_level country []
    = (Ok tt,
       before ++ [ToParquet target out; ToCsv (target ++ ".csv")%string stats])
    /\ existsb is_write before = false
    /\ aligned out
    /\ length stats = length (read_file env dlPath).
Proof.
  intros Hfile Hvar _ Hc Hr _ Hint Hn Hsel Hpath Hlon Hlat.
  destruct (iterrows_total (open_dataset env inputfile) varname
                           Hlon Hlat Hvar (read_file env dlPath)
                           (Frame.empty, []) 0)
    as ([out stats] & Hrun & Hinv & Hlen & _); [now left|].
  destruct (run_writes_tables env inputfile outputfile varname adm_level
                              country n r selected_adm dlPath out stats
                              Hfile Hvar Hc Hr Hint Hn Hsel Hpath Hrun)
    as (target & before & Hwhole & Hquiet).
  exists target, before, out, stats.
  split; [exact Hwhole|]. split; [exact Hquiet|]. split.
  - simpl in Hinv. destruct Hinv as [->|(_ & _ & Hal & _)];
      [constructor|exact Hal].
  - exact Hlen.
Qed.

Lemma run_completes_witness :
  exists target before out stats,
    extract_time_series Sample.env "era5.grib" "out" "t2m" "1" "ita" []
    = (Ok tt,
       before ++ [ToParquet target out; ToCsv (target ++ ".csv")%string stats])
    /\ existsb is_write before = false
    /\ aligned out
    /\ length stats = length (read_file Sample.env "ita1.geojson").
Proof.
  apply (run_completes
           Sample.env "era5.grib" "out" "t2m" "1" "ita" 1
           [Sample.adm "ita0.geojson"; Sample.adm "ita1.geojson";
            Sample.adm "ita2.geojson"]
           (Sample.adm "ita1.geojson") "ita1.geojson");
    try reflexivity.
  lia.
Defined.

(** ** Cells outside the bounding box *)

(** X15.  On grids whose longitudes ascend and whose latitudes descend,
    the series of a region depends on the variable through the cells
    whose longitude and latitude lie in the bounding box of the region
    only: two grids with the same four axes whose variables agree on
    those cells give the region the same series. *)
Theorem series_reads_the_box_only
        (ds ds' : Dataset) (varname : string) (a a' : DataArray) (row : Row)
        (xmin ymin xmax ymax : Q) :
  total_bounds (geometry row) = (xmin, ymin, xmax, ymax) ->
  ascending (longitude ds) = true ->
  descending (latitude ds) = true ->
  time ds' = time ds -> step ds' = step ds ->
  latitude ds' = latitude ds -> longitude ds' = longitude ds ->
  lookup varname (data_vars ds) = Some a ->
  lookup varname (data_vars ds') = Some a' ->
  (forall t s i j,
      i < length (latitude ds) -> j < length (longitude ds) ->
      between ymin ymax (nth i (latitude ds) 0%Q) = true ->
      between xmin xmax (nth j (longitude ds) 0%Q) = true ->
      a t s i j = a' t s i j) ->
  aggregate ds' varname row = aggregate ds varname row.
Proof.
  intros Hb Hlon Hlat Ht Hs Hla Hlo Ha Ha' Hagree.
  destruct (slice_ascending (longitude ds) xmin xmax Hlon)
    as (j0 & j1 & Hj & Hjf).
  destruct (slice_descending (latitude ds) ymin ymax Hlat)
    as (i0 & i1 & Hi & Hif).
  destruct (sel_cut ds xmin xmax ymax ymin i0 i1 j0 j1 Hj Hi)
    as (w & Hw & Hwt & Hws & Hwla & Hwlo & Hwv).
  assert (Hj' : Axis.slice_locs (longitude ds') xmin xmax = Some (j0, j1))
    by now rewrite Hlo.
  assert (Hi' : Axis.slice_locs (latitude ds') ymax ymin = Some (i0, i1))
    by now rewrite Hla.
  destruct (sel_cut ds' xmin xmax ymax ymin i0 i1 j0 j1 Hj' Hi')
    as (w' & Hw' & Hwt' & Hws' & Hwla' & Hwlo' & Hwv').
  rewrite Hla in Hwla'. rewrite Hlo in Hwlo'.
  rewrite Ht in Hwt'. rewrite Hs in Hws'.
  unfold aggregate, this_dataset. rewrite Hb, Hw, Hw'. cbn [rbind].
  unfold getitem. rewrite Hwv, Hwv', Ha, Ha'. cbn [option_map rbind].
  assert (Hsize : size w' = size w)
    by (unfold size; now rewrite Hwt, Hwt', Hws, Hws', Hwla, Hwla', Hwlo, Hwlo').
  rewrite Hsize. destruct (0 <? size w); [|reflexivity].
  cbv zeta. unfold stacked_getitem, stacked_data. cbn [stacked_vars timestep].
  rewrite (lookup_map (fun b : DataArray =>
             stack_mean (length (latitude (clip w (geometry row))))
                        (length (longitude (clip w (geometry row))))
                        (length (time (clip w (geometry row))))
                        (length (step (clip w (geometry row)))) b)).
  rewrite (lookup_map (fun b : DataArray =>
             stack_mean (length (latitude (clip w' (geometry row))))
                        (length (longitude (clip w' (geometry row))))
                        (length (time (clip w' (geometry row))))
                        (length (step (clip w' (geometry row)))) b)).
  cbn [clip data_vars latitude longitude time step].
  rewrite (lookup_map (fun (b : DataArray) t s i j =>
             if mask (geometry row) (longitude w) (latitude w) i j
             then b t s i j else nan)).
  rewrite (lookup_map (fun (b : DataArray) t s i j =>
             if mask (geometry row) (longitude w') (latitude w') i j
             then b t s i j else nan)).
  rewrite Hwv, Hwv', Ha, Ha'. cbn [option_map rbind].
  rewrite Hwt, Hwt', Hws, Hws', Hwla', Hwlo'.
  rewrite <- Hwla, <- Hwlo.
  do 3 f_equal. apply stack_mean_ext. intros t s i j Hi_lt Hj_lt.
  destruct (mask (geometry row) (longitude w) (latitude w) i j);
    [|reflexivity].
  symmetry. apply Hagree.
  - rewrite Hwla in Hi_lt. now apply getslice_within in Hi_lt.
  - rewrite Hwlo in Hj_lt. now apply getslice_within in Hj_lt.
  - rewrite <- (nth_getslice (latitude ds) i0 i1 i 0%Q)
      by (rewrite <- Hwla; exact Hi_lt).
    assert (Hin : In (nth i (Axis.getslice (latitude ds) i0 i1) 0%Q)
                     (Axis.getslice (latitude ds) i0 i1))
      by (apply nth_In; rewrite <- Hwla; exact Hi_lt).
    rewrite Hif in Hin at 2. now apply filter_In in Hin.
  - rewrite <- (nth_getslice (longitude ds) j0 j1 j 0%Q)
      by (rewrite <- Hwlo; exact Hj_lt).
    assert (Hin : In (nth j (Axis.getslice (longitude ds) j0 j1) 0%Q)
                     (Axis.getslice (longitude ds) j0 j1))
      by (apply nth_In; rewrite <- Hwlo; exact Hj_lt).
    rewrite Hjf in Hin at 2. now apply filter_In in Hin.
Qed.

Lemma series_reads_the_box_only_witness :
  aggregate More.era5_elsewhere "t2m" Sample.corner
  = aggregate Sample.era5 "t2m" Sample.corner.
Proof.
  apply (series_reads_the_box_only
           Sample.era5 More.era5_elsewhere "t2m"
           Sample.t2m More.t2m_elsewhere Sample.corner 9 41 11 43);
    try reflexivity.
  intros t s i j Hi Hj Hlat Hlon. unfold More.t2m_elsewhere.
  simpl in Hi, Hj.
  destruct i as [|[|[|i]]]; try lia;
    destruct j as [|[|[|j]]]; try lia;
    try reflexivity; vm_compute in Hlat, Hlon; discriminate.
Defined.
